(** * OUSD compensation calculation: ownership reconciliation and ledger

    A shallow embedding of the Python scripts of the repository
    (uniswap_lps.py, sushiswap_lps.py, mooniswap_lps.py, snowswap_stakers.py,
    uniswap_swaps.py and transform.py) and the properties of their
    specification.

    Conventions of the embedding.
    - A Python [int] is a [Z]; an unsigned on-chain quantity (a uint256
      balance, a uint112 reserve) is an [N], injected into [Z] where the
      script does arithmetic with it.
    - A [decimal.Decimal] is a coefficient and a decimal exponent; every
      arithmetic operation rounds its exact result to the 28 significant
      digits of Python's default context, ties to even.  Exponent limits
      (Emin, Emax), NaN and the infinities are outside the model.
    - An exception or [sys.exit(1)] is a value of [exn] carried by the
      result type [res].
    - A [float] is an IEEE 754 binary64 number ([SpecFloat]).
    - [Transform.CalcParameters] has the types of its constructor's
      defaults: an integer ETH rate, decimals for the rest.  main() passes
      the ETH rate and the minimum threshold as floats: [Eligibility] has
      [eligible_balance_usd] for an ETH rate and a minimum threshold of
      either kind. *)

From Stdlib Require Import ZArith NArith List String Ascii Bool Lia.
From Stdlib Require Import QArith Qround Qpower Qabs Lqa.
From Stdlib Require SpecFloat.
Import ListNotations.
Open Scope Z_scope.

(** ** Exceptions and results *)

Inductive exn : Type :=
| SysExit              (* sys.exit(1) *)
| AssertionError       (* a failed assert *)
| DecimalException     (* decimal.DivisionByZero / decimal.InvalidOperation *)
| OverflowError        (* int too large to convert to float *)
| ValueError           (* Web3.toChecksumAddress on an invalid address *)
| TypeError.           (* Path(None) *)

Inductive res (A : Type) : Type :=
| Return (a : A)
| Raise (e : exn).

Arguments Return {A} a.
Arguments Raise {A} e.

Definition bind {A B : Type} (m : res A) (k : A -> res B) : res B :=
  match m with
  | Return a => k a
  | Raise e => Raise e
  end.

Notation "'do' x <- m ; k" := (bind m (fun x => k))
  (at level 10, x name, m at level 100, k at level 200).

(** ** Python's decimal module, default context *)

Module Decimal.

Record decimal : Type := mkDec { coef : Z; expo : Z }.

(** getcontext().prec *)
Definition prec : Z := 28.

Fixpoint ndigits_aux (fuel : nat) (n : Z) : Z :=
  match fuel with
  | O => 1
  | S f => if n <? 10 then 1 else 1 + ndigits_aux f (n / 10)
  end.

(** len(str(n)) for a non-negative n *)
Definition ndigits (n : Z) : Z := ndigits_aux (Z.to_nat (Z.log2 n)) n.

(** ROUND_HALF_EVEN: drop the last [k] digits of the non-negative [n]. *)
Definition round_half_even (n k : Z) : Z :=
  let q := n / 10 ^ k in
  let r := n mod 10 ^ k in
  if (10 ^ k <? 2 * r) || ((10 ^ k =? 2 * r) && Z.odd q) then q + 1 else q.

(** Decimal._fix: round to the precision of the context. *)
Definition dec_fix (d : decimal) : decimal :=
  let n := Z.abs (coef d) in
  let k := ndigits n - prec in
  if k <=? 0 then d
  else
    let q := round_half_even n k in
    if prec <? ndigits q
    then mkDec (Z.sgn (coef d) * (q / 10)) (expo d + k + 1)
    else mkDec (Z.sgn (coef d) * q) (expo d + k).

(** Decimal(n) for an int n: exact. *)
Definition dec_of_Z (n : Z) : decimal := mkDec n 0.

Definition dec_zero : decimal := dec_of_Z 0.

Definition dec_neg (d : decimal) : decimal := mkDec (- coef d) (expo d).

Definition dec_add (a b : decimal) : decimal :=
  let e := Z.min (expo a) (expo b) in
  dec_fix (mkDec (coef a * 10 ^ (expo a - e) + coef b * 10 ^ (expo b - e)) e).

Definition dec_sub (a b : decimal) : decimal := dec_add a (dec_neg b).

Definition dec_mul (a b : decimal) : decimal :=
  dec_fix (mkDec (coef a * coef b) (expo a + expo b)).

Definition dec_abs (d : decimal) : decimal :=
  dec_fix (mkDec (Z.abs (coef d)) (expo d)).

(** The exact quotient is brought as close to the ideal exponent as its
    trailing zeros allow. *)
Fixpoint strip_exact (fuel : nat) (c e ideal : Z) : Z * Z :=
  match fuel with
  | O => (c, e)
  | S f =>
      if (e <? ideal) && (c mod 10 =? 0)
      then strip_exact f (c / 10) (e + 1) ideal
      else (c, e)
  end.

(** Decimal.__truediv__: [None] stands for the trapped DivisionByZero or
    InvalidOperation signal. *)
Definition dec_div (a b : decimal) : option decimal :=
  if coef b =? 0 then None
  else if coef a =? 0 then Some (dec_fix (mkDec 0 (expo a - expo b)))
  else
    let n1 := Z.abs (coef a) in
    let n2 := Z.abs (coef b) in
    let sg := Z.sgn (coef a) * Z.sgn (coef b) in
    let shift := ndigits n2 - ndigits n1 + prec + 1 in
    let e := expo a - expo b - shift in
    let num := if 0 <=? shift then n1 * 10 ^ shift else n1 in
    let den := if 0 <=? shift then n2 else n2 * 10 ^ (- shift) in
    let coeff := num / den in
    let remainder := num mod den in
    let ce := if remainder =? 0
              then strip_exact (Z.to_nat (expo a - expo b - e)) coeff e
                               (expo a - expo b)
              else (if coeff mod 5 =? 0 then coeff + 1 else coeff, e) in
    Some (dec_fix (mkDec (sg * fst ce) (snd ce))).

(** math.floor(d) *)
Definition dec_floor (d : decimal) : Z :=
  if 0 <=? expo d then coef d * 10 ^ expo d else coef d / 10 ^ (- expo d).

(** Comparisons are exact. *)
Definition dec_compare (a b : decimal) : comparison :=
  let e := Z.min (expo a) (expo b) in
  (coef a * 10 ^ (expo a - e)) ?= (coef b * 10 ^ (expo b - e)).

Definition dec_eqb (a b : decimal) : bool :=
  match dec_compare a b with Eq => true | _ => false end.
Definition dec_ltb (a b : decimal) : bool :=
  match dec_compare a b with Lt => true | _ => false end.
Definition dec_leb (a b : decimal) : bool :=
  match dec_compare a b with Gt => false | _ => true end.

(** bool(d) *)
Definition dec_truthy (d : decimal) : bool := negb (coef d =? 0).

(** The rational a decimal denotes. *)
Definition dec_to_Q (d : decimal) : Q :=
  (inject_Z (coef d) * Qpower (inject_Z 10) (expo d))%Q.

(** Constants of the scripts, as the float literals convert:
    Decimal(1e18), Decimal(1.25). *)
Definition dec_1e18 : decimal := mkDec (10 ^ 18) 0.
Definition dec_1_25 : decimal := mkDec 125 (-2).

End Decimal.
Import Decimal.

(** ** Python numbers: an [int] or a [Decimal]

    The LP scripts start their running totals as the int 0 and add Decimal
    amounts to them; the mixed operations convert the int exactly and round
    the result as any Decimal operation does. *)

Inductive num : Type :=
| PyInt (z : Z)
| PyDec (d : decimal).

Definition to_decimal (x : num) : decimal :=
  match x with
  | PyInt z => dec_of_Z z
  | PyDec d => d
  end.

Definition num_add (x y : num) : num :=
  match x, y with
  | PyInt a, PyInt b => PyInt (a + b)
  | _, _ => PyDec (dec_add (to_decimal x) (to_decimal y))
  end.

Definition num_sub (x y : num) : num :=
  match x, y with
  | PyInt a, PyInt b => PyInt (a - b)
  | _, _ => PyDec (dec_sub (to_decimal x) (to_decimal y))
  end.

Definition num_abs (x : num) : num :=
  match x with
  | PyInt a => PyInt (Z.abs a)
  | PyDec d => PyDec (dec_abs d)
  end.

(** [x > y] *)
Definition num_gtb (x y : num) : bool := dec_ltb (to_decimal y) (to_decimal x).

(** math.floor *)
Definition num_floor (x : num) : Z :=
  match x with
  | PyInt a => a
  | PyDec d => dec_floor d
  end.

(** bool(x) *)
Definition num_truthy (x : num) : bool :=
  match x with
  | PyInt a => negb (a =? 0)
  | PyDec d => dec_truthy d
  end.

(** The running sum of a loop [total = 0; for x in xs: total += x]. *)
Definition num_sum (xs : list num) : num := fold_left num_add xs (PyInt 0).

Definition sum_Z (xs : list Z) : Z := fold_left Z.add xs 0.

(** ** Definitions shared by the scripts *)

Definition ZERO_ADDRESS : string := "0x0000000000000000000000000000000000000000".
Definition OUSD_ADDRESS : string := "0x2A8e1E676Ec238d8A992307B495b45B3fEAa5e86".
Definition MINIMUM_LIQUIDITY : Z := 1000.
Definition MAX_ROUNDING_DRIFT : Z := 10.

(** str.startswith *)
Definition startswith (s p : string) : bool := String.prefix p s.

(** [x in xs] on a list of strings *)
Definition mem (x : string) (xs : list string) : bool :=
  existsb (String.eqb x) xs.

(** bool(s) for a string *)
Definition str_truthy (s : string) : bool := negb (String.eqb s "").

Definition div_res (a b : decimal) : res decimal :=
  match dec_div a b with
  | Some q => Return q
  | None => Raise DecimalException
  end.

(** ousd_value_adjustment, the same function in every script. *)
Definition ousd_value_adjustment (token_balance : num) (from_cpt to_cpt : Z)
  : res Z :=
  let token_balance := to_decimal token_balance in
  let from_cpt := dec_of_Z from_cpt in
  let to_cpt := dec_of_Z to_cpt in
  do q <- div_res (dec_mul token_balance from_cpt) dec_1e18;
  let credits := dec_floor q in
  do r <- div_res (dec_mul (dec_of_Z credits) dec_1e18) to_cpt;
  Return (dec_floor r).

(** A line of the LP scripts' CSV output:
    token0,token1,lp_address,lp_balance,token0_value,token1_value *)
Record lp_row : Type := mkRow {
  row_token0 : string;
  row_token1 : string;
  row_lp_address : string;
  row_lp_balance : Z;
  row_token0_value : Z;
  row_token1_value : Z
}.

(** The adjustment of the printed balances under [--credits-per-token]:
    [args.credits_per_token] is [None] when the option is absent. *)
Definition adjust_balances (a b : string) (credits_per_token : option Z)
    (current_cpt : Z) (a_balance b_balance : num) : res (num * num) :=
  match credits_per_token with
  | None => Return (a_balance, b_balance)
  | Some to_cpt =>
      if String.eqb a OUSD_ADDRESS && num_truthy a_balance then
        do v <- ousd_value_adjustment a_balance current_cpt to_cpt;
        Return (PyInt v, b_balance)
      else if String.eqb b OUSD_ADDRESS && num_truthy b_balance then
        do v <- ousd_value_adjustment b_balance current_cpt to_cpt;
        Return (a_balance, PyInt v)
      else Return (a_balance, b_balance)
  end.

(** The shares of both reserves of a holder of [lp_balance] pool tokens out
    of [denom]. *)
Definition reserve_shares (a_supply b_supply : Z) (lp_balance denom : Z)
  : res (num * num) :=
  if lp_balance =? 0 then Return (PyInt 0, PyInt 0)
  else
    do ratio <- div_res (dec_of_Z lp_balance) (dec_of_Z denom);
    Return (PyDec (dec_mul (dec_of_Z a_supply) ratio),
            PyDec (dec_mul (dec_of_Z b_supply) ratio)).

(** Transactions and events, as web3 returns them. *)
Record Transaction : Type := mkTx {
  tx_input : string;
  tx_from : option string
}.

Record MintEvent : Type := mkMint {
  mint_transactionHash : string;
  mint_sender : string          (* args.sender *)
}.

(** tx.get('from', minter) *)
Definition tx_get_from (tx : Transaction) (minter : string) : string :=
  match tx_from tx with
  | Some s => s
  | None => minter
  end.

(** What the loop ended with: the lines printed so far and the exception
    that stopped the script, if any. *)
Definition run : Type := (list lp_row * option exn)%type.

Record TransferEvent : Type := mkTransfer {
  transfer_to : string          (* args.to *)
}.

(** [if ok(x) and x not in addresses_of_interest:
        addresses_of_interest.append(x)] *)
Definition guarded_append (ok : string -> bool) (x : string)
    (addresses_of_interest : list string) : list string :=
  if ok x && negb (mem x addresses_of_interest)
  then addresses_of_interest ++ [x]
  else addresses_of_interest.

(** The guard of the Uniswap and Sushiswap scripts: [x != ZERO_ADDRESS]. *)
Definition add_address : string -> list string -> list string :=
  guarded_append (fun x => negb (String.eqb x ZERO_ADDRESS)).


(** The guard of the Mooniswap and SnowSwap scripts: [if account]. *)
Definition add_account : string -> list string -> list string :=
  guarded_append str_truthy.

(** A loop of guarded appends over the candidate addresses. *)
Definition collect (ok : string -> bool) (candidates : list string)
    (addresses_of_interest : list string) : list string :=
  fold_left (fun acc x => guarded_append ok x acc)
            candidates addresses_of_interest.

(** The specification's participant set: the candidates that pass the guard,
    each kept at its first occurrence. *)
Fixpoint first_occurrences (xs : list string) : list string :=
  match xs with
  | [] => []
  | x :: rest =>
      x :: filter (fun y => negb (String.eqb y x)) (first_occurrences rest)
  end.

Definition nonzero (x : string) : bool := negb (String.eqb x ZERO_ADDRESS).

(** The loop over the Mint events, for the call signatures [sigs] a script
    knows. *)
Definition known_origin (sigs : list string) (tx : Transaction) : bool :=
  existsb (startswith (tx_input tx)) sigs.

Fixpoint mints_loop (getTransaction : string -> Transaction)
    (sigs : list string) (mints : list MintEvent)
    (addresses_of_interest : list string) : res (list string) :=
  match mints with
  | [] => Return addresses_of_interest
  | mint :: rest =>
      let minter := mint_sender mint in
      let tx := getTransaction (mint_transactionHash mint) in
      if negb (known_origin sigs tx) then Raise SysExit
      else
        let lp_addr := tx_get_from tx minter in
        mints_loop getTransaction sigs rest
                   (add_address lp_addr addresses_of_interest)
  end.

Definition transfers_loop (transfers : list TransferEvent)
    (addresses_of_interest : list string) : list string :=
  fold_left (fun acc t => add_address (transfer_to t) acc)
            transfers addresses_of_interest.

(** ** uniswap_lps.py *)

Module UniswapLps.

Definition ADD_LIQUDITY_SIG : string := "0xe8e33700".
Definition ADD_LIQUDITY_ETH_SIG : string := "0xf305d719".
Definition signatures : list string := [ADD_LIQUDITY_SIG; ADD_LIQUDITY_ETH_SIG].

Record totals : Type := mkTotals {
  running_total : Z;
  running_total_a : num;
  running_total_b : num
}.

Section Main.

(** The chain at the queried block and the command line. *)
Variable getTransaction : string -> Transaction.
Variable balanceOf : string -> N.
Variables total_supply a_supply b_supply : N.
Variables a b : string.
Variable credits_per_token : option Z.
Variable current_cpt : Z.

Definition discover (mints : list MintEvent) (transfers : list TransferEvent)
  : res (list string) :=
  do addresses_of_interest <- mints_loop getTransaction signatures mints [];
  Return (transfers_loop transfers addresses_of_interest).

(** The body of the loop over the addresses of interest. *)
Definition holder_step (addr : string) (st : totals) : res (totals * lp_row) :=
  let lp_balance := Z.of_N (balanceOf addr) in
  do ab <- reserve_shares (Z.of_N a_supply) (Z.of_N b_supply) lp_balance
             (Z.of_N total_supply - MINIMUM_LIQUIDITY);
  let st' := mkTotals (running_total st + lp_balance)
                      (num_add (running_total_a st) (fst ab))
                      (num_add (running_total_b st) (snd ab)) in
  do ab' <- adjust_balances a b credits_per_token current_cpt (fst ab) (snd ab);
  Return (st', mkRow a b addr lp_balance
                     (num_floor (fst ab')) (num_floor (snd ab'))).

Fixpoint holders_loop (addrs : list string) (st : totals)
  : totals * list lp_row * option exn :=
  match addrs with
  | [] => (st, [], None)
  | addr :: rest =>
      match holder_step addr st with
      | Raise e => (st, [], Some e)
      | Return (st', row) =>
          let '(st'', out, e) := holders_loop rest st' in
          (st'', row :: out, e)
      end
  end.

(** The checks after the loop; each failure is a [sys.exit(1)]. *)
Definition verify (st : totals) : option exn :=
  if negb (running_total st =? Z.of_N total_supply - MINIMUM_LIQUIDITY)
  then Some SysExit
  else if num_gtb (num_sub (PyInt (Z.of_N a_supply)) (running_total_a st))
                  (PyInt MAX_ROUNDING_DRIFT)
  then Some SysExit
  else if num_gtb (num_sub (PyInt (Z.of_N b_supply)) (running_total_b st))
                  (PyInt MAX_ROUNDING_DRIFT)
  then Some SysExit
  else None.

(** The script from the balance loop on, for the discovered addresses. *)
Definition attribute (addresses_of_interest : list string) : run :=
  match holders_loop addresses_of_interest (mkTotals 0 (PyInt 0) (PyInt 0)) with
  | (_, out, Some e) => (out, Some e)
  | (st, out, None) => (out, verify st)
  end.

Definition main (pair_address : string) (mints : list MintEvent)
    (transfers : list TransferEvent) : run :=
  if negb (str_truthy pair_address) then ([], Some SysExit)
  else
    match discover mints transfers with
    | Raise e => ([], Some e)
    | Return addresses_of_interest => attribute addresses_of_interest
    end.

(** The totals the balance loop accumulates, in closed form. *)
Definition shares (addr : string) : num * num :=
  match reserve_shares (Z.of_N a_supply) (Z.of_N b_supply)
          (Z.of_N (balanceOf addr))
          (Z.of_N total_supply - MINIMUM_LIQUIDITY) with
  | Return ab => ab
  | Raise _ => (PyInt 0, PyInt 0)
  end.

Definition sum_balances (holders : list string) : Z :=
  sum_Z (map (fun x => Z.of_N (balanceOf x)) holders).

Definition sum_a (holders : list string) : num :=
  num_sum (map (fun x => fst (shares x)) holders).

Definition sum_b (holders : list string) : num :=
  num_sum (map (fun x => snd (shares x)) holders).

(** What a printed line says about its holder when the script runs without
    [--credits-per-token]: the ratio and the product are Decimal operations,
    only the printed value is floored. *)
Definition row_attributed (row : lp_row) : Prop :=
  row_lp_balance row = Z.of_N (balanceOf (row_lp_address row))
  /\ (row_lp_balance row = 0 ->
      row_token0_value row = 0 /\ row_token1_value row = 0)
  /\ (row_lp_balance row <> 0 ->
      exists ratio,
        dec_div (dec_of_Z (row_lp_balance row))
                (dec_of_Z (Z.of_N total_supply - MINIMUM_LIQUIDITY))
        = Some ratio
        /\ row_token0_value row
           = dec_floor (dec_mul (dec_of_Z (Z.of_N a_supply)) ratio)
        /\ row_token1_value row
           = dec_floor (dec_mul (dec_of_Z (Z.of_N b_supply)) ratio)).

(** The reserve is not more than MAX_ROUNDING_DRIFT above the attributed
    sum. *)
Definition drift_ok (reserve : N) (attributed : num) : Prop :=
  num_gtb (num_sub (PyInt (Z.of_N reserve)) attributed)
          (PyInt MAX_ROUNDING_DRIFT) = false.

Definition reconciles (holders : list string) : Prop :=
  sum_balances holders = Z.of_N total_supply - MINIMUM_LIQUIDITY
  /\ drift_ok a_supply (sum_a holders)
  /\ drift_ok b_supply (sum_b holders).

End Main.
End UniswapLps.

(** ** sushiswap_lps.py *)

Module SushiswapLps.

Definition ADD_LIQUDITY_SIG : string := "0xe8e33700".
Definition ADD_LIQUDITY_ETH_SIG : string := "0xf305d719".
Definition ZAP_IN_ETH_SIG : string := "0x1d572320".
Definition signatures : list string :=
  [ADD_LIQUDITY_SIG; ADD_LIQUDITY_ETH_SIG; ZAP_IN_ETH_SIG].

Record totals : Type := mkTotals {
  master_chef_total : Z;
  running_total : Z;
  running_total_no_chef : Z;
  running_total_a : num;
  running_total_b : num
}.

Section Main.

Variable getTransaction : string -> Transaction.
Variable balanceOf : string -> N.
(** master_chef.address, poolLength(), poolInfo(pid)[0] and
    userInfo(pid, addr)[0] *)
Variable master_chef_address : string.
Variable pool_length : N.
Variable poolInfo : Z -> string.
Variable userInfo : Z -> string -> N.
Variables total_supply a_supply b_supply : N.
Variables a b : string.
Variable credits_per_token : option Z.
Variable current_cpt : Z.

(** [for pid in reversed(range(0, n))]: the first match from the top. *)
Fixpoint find_pool (pair_address : string) (n : nat) : option Z :=
  match n with
  | O => None
  | S m =>
      if String.eqb (poolInfo (Z.of_nat m)) pair_address
      then Some (Z.of_nat m)
      else find_pool pair_address m
  end.

Definition discover (mints : list MintEvent) (transfers : list TransferEvent)
  : res (list string) :=
  do addresses_of_interest <- mints_loop getTransaction signatures mints [];
  Return (transfers_loop transfers addresses_of_interest).

(** The body of the balance loop; [None] for the row is the [continue] taken
    for MasterChef itself. *)
Definition holder_step (pair_pool_id : Z) (addr : string) (st : totals)
  : res (totals * option lp_row) :=
  let lp_balance := Z.of_N (balanceOf addr) in
  if String.eqb addr master_chef_address then
    do ratio <- div_res (dec_of_Z lp_balance)
                  (dec_of_Z (Z.of_N total_supply - MINIMUM_LIQUIDITY));
    Return (mkTotals lp_balance (running_total st) (running_total_no_chef st)
                     (running_total_a st) (running_total_b st), None)
  else
    let chef_lp_balance := Z.of_N (userInfo pair_pool_id addr) in
    let combined_lp_balance := lp_balance + chef_lp_balance in
    do ab <- reserve_shares (Z.of_N a_supply) (Z.of_N b_supply)
               combined_lp_balance (Z.of_N total_supply - MINIMUM_LIQUIDITY);
    let st' := mkTotals (master_chef_total st)
                        (running_total st + combined_lp_balance)
                        (running_total_no_chef st + lp_balance)
                        (num_add (running_total_a st) (fst ab))
                        (num_add (running_total_b st) (snd ab)) in
    do ab' <- adjust_balances a b credits_per_token current_cpt
                (fst ab) (snd ab);
    Return (st', Some (mkRow a b addr combined_lp_balance
                             (num_floor (fst ab')) (num_floor (snd ab')))).

Fixpoint holders_loop (pair_pool_id : Z) (addrs : list string) (st : totals)
  : totals * list lp_row * option exn :=
  match addrs with
  | [] => (st, [], None)
  | addr :: rest =>
      match holder_step pair_pool_id addr st with
      | Raise e => (st, [], Some e)
      | Return (st', row) =>
          let '(st'', out, e) := holders_loop pair_pool_id rest st' in
          (st'', match row with Some r => r :: out | None => out end, e)
      end
  end.

Definition verify (st : totals) : option exn :=
  let total_total := running_total_no_chef st + master_chef_total st in
  if negb (total_total =? running_total st) then Some SysExit
  else if negb (total_total =? Z.of_N total_supply - MINIMUM_LIQUIDITY)
  then Some SysExit
  else if num_gtb (num_sub (PyInt (Z.of_N a_supply)) (running_total_a st))
                  (PyInt MAX_ROUNDING_DRIFT)
  then Some SysExit
  else if num_gtb (num_sub (PyInt (Z.of_N b_supply)) (running_total_b st))
                  (PyInt MAX_ROUNDING_DRIFT)
  then Some SysExit
  else None.

Definition attribute (pair_pool_id : Z) (addresses_of_interest : list string)
  : run :=
  match holders_loop pair_pool_id addresses_of_interest
                     (mkTotals 0 0 0 (PyInt 0) (PyInt 0)) with
  | (_, out, Some e) => (out, Some e)
  | (st, out, None) => (out, verify st)
  end.

Definition main (pair_address : string) (mints : list MintEvent)
    (transfers : list TransferEvent) : run :=
  if negb (str_truthy pair_address) then ([], Some SysExit)
  else
    match find_pool pair_address (Z.to_nat (Z.of_N pool_length - 1)) with
    | None => ([], Some SysExit)
    | Some pair_pool_id =>
        match discover mints transfers with
        | Raise e => ([], Some e)
        | Return addresses_of_interest =>
            attribute pair_pool_id addresses_of_interest
        end
    end.

(** The totals the balance loop accumulates, in closed form; MasterChef
    itself is skipped. *)
Definition combined (pair_pool_id : Z) (addr : string) : Z :=
  Z.of_N (balanceOf addr) + Z.of_N (userInfo pair_pool_id addr).

Definition shares (pair_pool_id : Z) (addr : string) : num * num :=
  match reserve_shares (Z.of_N a_supply) (Z.of_N b_supply)
          (combined pair_pool_id addr)
          (Z.of_N total_supply - MINIMUM_LIQUIDITY) with
  | Return ab => ab
  | Raise _ => (PyInt 0, PyInt 0)
  end.

Definition stakers (holders : list string) : list string :=
  filter (fun x => negb (String.eqb x master_chef_address)) holders.

Definition chef_total (holders : list string) : Z :=
  if mem master_chef_address holders
  then Z.of_N (balanceOf master_chef_address) else 0.

Definition sum_combined (pair_pool_id : Z) (holders : list string) : Z :=
  sum_Z (map (combined pair_pool_id) (stakers holders)).

Definition sum_direct (holders : list string) : Z :=
  sum_Z (map (fun x => Z.of_N (balanceOf x)) (stakers holders)).

Definition sum_a (pair_pool_id : Z) (holders : list string) : num :=
  num_sum (map (fun x => fst (shares pair_pool_id x)) (stakers holders)).

Definition sum_b (pair_pool_id : Z) (holders : list string) : num :=
  num_sum (map (fun x => snd (shares pair_pool_id x)) (stakers holders)).

Definition drift_ok (reserve : N) (attributed : num) : Prop :=
  num_gtb (num_sub (PyInt (Z.of_N reserve)) attributed)
          (PyInt MAX_ROUNDING_DRIFT) = false.

(** MasterChef's own ratio is computed even though it is not used. *)
Definition chef_ok (holders : list string) : Prop :=
  mem master_chef_address holders = true ->
  Z.of_N total_supply - MINIMUM_LIQUIDITY <> 0.

Definition reconciles (pair_pool_id : Z) (holders : list string) : Prop :=
  chef_ok holders
  /\ sum_direct holders + chef_total holders
     = sum_combined pair_pool_id holders
  /\ sum_combined pair_pool_id holders
     = Z.of_N total_supply - MINIMUM_LIQUIDITY
  /\ drift_ok a_supply (sum_a pair_pool_id holders)
  /\ drift_ok b_supply (sum_b pair_pool_id holders).

End Main.
End SushiswapLps.

(** ** mooniswap_lps.py *)

Module MooniswapLps.

Record DepositedEvent : Type := mkDeposited {
  deposited_account : string    (* args.account *)
}.

Record totals : Type := mkTotals {
  running_total : Z;
  running_total_a : num;
  running_total_b : num
}.

Section Main.

Variable balanceOf : string -> N.
Variables total_supply a_supply b_supply : N.
Variables a b : string.
Variable credits_per_token : option Z.
Variable current_cpt : Z.

Definition discover (deposits : list DepositedEvent)
    (transfers : list TransferEvent) : list string :=
  let addresses_of_interest :=
    fold_left (fun acc d => add_account (deposited_account d) acc)
              deposits [] in
  fold_left (fun acc t => add_account (transfer_to t) acc)
            transfers addresses_of_interest.

Definition holder_step (addr : string) (st : totals) : res (totals * lp_row) :=
  let lp_balance := Z.of_N (balanceOf addr) in
  do ab <- reserve_shares (Z.of_N a_supply) (Z.of_N b_supply) lp_balance
             (Z.of_N total_supply);
  let st' := mkTotals (running_total st + lp_balance)
                      (num_add (running_total_a st) (fst ab))
                      (num_add (running_total_b st) (snd ab)) in
  do ab' <- adjust_balances a b credits_per_token current_cpt (fst ab) (snd ab);
  Return (st', mkRow a b addr lp_balance
                     (num_floor (fst ab')) (num_floor (snd ab'))).

Fixpoint holders_loop (addrs : list string) (st : totals)
  : totals * list lp_row * option exn :=
  match addrs with
  | [] => (st, [], None)
  | addr :: rest =>
      match holder_step addr st with
      | Raise e => (st, [], Some e)
      | Return (st', row) =>
          let '(st'', out, e) := holders_loop rest st' in
          (st'', row :: out, e)
      end
  end.

(** Only the reserves are verified, in both directions. *)
Definition verify (st : totals) : option exn :=
  if num_gtb (num_abs (num_sub (PyInt (Z.of_N a_supply)) (running_total_a st)))
             (PyInt MAX_ROUNDING_DRIFT)
  then Some SysExit
  else if num_gtb (num_abs (num_sub (PyInt (Z.of_N b_supply))
                                    (running_total_b st)))
                  (PyInt MAX_ROUNDING_DRIFT)
  then Some SysExit
  else None.

Definition attribute (addresses_of_interest : list string) : run :=
  match holders_loop addresses_of_interest (mkTotals 0 (PyInt 0) (PyInt 0)) with
  | (_, out, Some e) => (out, Some e)
  | (st, out, None) => (out, verify st)
  end.

Definition main (deposits : list DepositedEvent)
    (transfers : list TransferEvent) : run :=
  attribute (discover deposits transfers).

(** The totals the balance loop accumulates, in closed form. *)
Definition shares (addr : string) : num * num :=
  match reserve_shares (Z.of_N a_supply) (Z.of_N b_supply)
          (Z.of_N (balanceOf addr)) (Z.of_N total_supply) with
  | Return ab => ab
  | Raise _ => (PyInt 0, PyInt 0)
  end.

Definition sum_balances (holders : list string) : Z :=
  sum_Z (map (fun x => Z.of_N (balanceOf x)) holders).

Definition sum_a (holders : list string) : num :=
  num_sum (map (fun x => fst (shares x)) holders).

Definition sum_b (holders : list string) : num :=
  num_sum (map (fun x => snd (shares x)) holders).

(** The attributed sum is within MAX_ROUNDING_DRIFT of the reserve. *)
Definition drift_ok (reserve : N) (attributed : num) : Prop :=
  num_gtb (num_abs (num_sub (PyInt (Z.of_N reserve)) attributed))
          (PyInt MAX_ROUNDING_DRIFT) = false.

(** No division by a zero supply. *)
Definition supply_ok (holders : list string) : Prop :=
  total_supply = 0%N -> forall x, In x holders -> balanceOf x = 0%N.

Definition reconciles (holders : list string) : Prop :=
  supply_ok holders
  /\ drift_ok a_supply (sum_a holders)
  /\ drift_ok b_supply (sum_b holders).

End Main.
End MooniswapLps.

(** ** snowswap_stakers.py: the discovery of the stakers *)

Module SnowswapStakers.

Record StakedEvent : Type := mkStaked {
  staked_user : string          (* args.user *)
}.

Definition discover (stakes : list StakedEvent) : list string :=
  fold_left (fun acc s => add_account (staked_user s) acc) stakes [].

End SnowswapStakers.

(** ** uniswap_swaps.py *)

Module UniswapSwaps.

Record SwapArgs : Type := mkArgs {
  amount0In : N;
  amount1In : N;
  amount0Out : N;
  amount1Out : N;
  to : string
}.

Record SwapEvent : Type := mkSwap {
  event_address : string;
  event_args : SwapArgs;
  event_blockNumber : Z;
  event_transactionHash : string
}.

Record Receipt : Type := mkReceipt {
  receipt_status : bool;
  receipt_from : string
}.

Inductive direction : Type := DirLeft | DirRight.

Definition is_left (d : direction) : bool :=
  match d with DirLeft => true | DirRight => false end.

(** A line of the output:
    token0,token1,block_number,in_address,out_address,swap_direction,
    token0_amount,token1_amount,token_in,token_out,token0_relevance,tx_hash *)
Record swap_row : Type := mkSwapRow {
  swap_token0 : string;
  swap_token1 : string;
  swap_block_number : Z;
  swap_in_address : string;
  swap_out_address : string;
  swap_direction : string;
  swap_token0_amount : Z;
  swap_token1_amount : Z;
  swap_token_in : string;
  swap_token_out : string;
  swap_token0_relevance : string;
  swap_tx_hash : string
}.

Definition direction_of (args : SwapArgs) : direction :=
  if (amount1Out args <? amount0Out args)%N then DirLeft else DirRight.

(** a_change and b_change *)
Definition changes (args : SwapArgs) : Z * Z :=
  let a_change := Z.of_N (amount0In args) in
  let b_change := Z.of_N (amount1Out args) - Z.of_N (amount1In args) in
  if is_left (direction_of args)
  then (Z.of_N (amount0Out args) - Z.of_N (amount0In args),
        Z.of_N (amount1In args))
  else (a_change, b_change).

Section Main.

Variables a b : string.
Variable pair_address : string.
Variables token0 token1 : string.
(** token0() and token1() of any pair contract *)
Variable pair_token0 : string -> string.
Variable pair_token1 : string -> string.
Variable getTransactionReceipt : string -> Receipt.
(** pair.events.Swap().processReceipt(receipt) *)
Variable processReceipt : string -> list SwapEvent.
(** rebasingCreditsPerToken at a block *)
Variable rebasingCreditsPerToken : Z -> Z.
Variable credits_per_token : option Z.

Definition relevance (first_is_pair last_is_pair : bool) (d : direction)
  : string :=
  let from_ousd := first_is_pair && negb (is_left d) in
  let to_ousd := last_is_pair && is_left d in
  if from_ousd && to_ousd then "in+out"
  else if from_ousd then "in"
  else if first_is_pair && is_left d then "through"
  else if to_ousd then "out"
  else if last_is_pair && negb (is_left d) then "through"
  else "through".

(** The body of the loop over the Swap events; [None] is the [continue] of a
    failed transaction. *)
Definition classify (event : SwapEvent) : res (option swap_row) :=
  let tx_hash := event_transactionHash event in
  let receipt := getTransactionReceipt tx_hash in
  if negb (receipt_status receipt) then Return None
  else
    let args := event_args event in
    let in_address := receipt_from receipt in
    let out_address := to args in
    let d := direction_of args in
    let '(a_change, b_change) := changes args in
    let token_in := if is_left d then token1 else token0 in
    let token_out := if is_left d then token0 else token1 in
    let tx_swaps := processReceipt tx_hash in
    let '(token0_relevance, token_in, token_out, out_address) :=
      match tx_swaps with
      | [] => ("unknown"%string, token_in, token_out, out_address)
      | first :: _ =>
          let last := List.last tx_swaps first in
          let first_is_pair := String.eqb (event_address first) pair_address in
          let last_is_pair := String.eqb (event_address last) pair_address in
          let from_ousd := first_is_pair && negb (is_left d) in
          let to_ousd := last_is_pair && is_left d in
          let '(token_in, token_out) :=
            if negb (from_ousd || to_ousd) then
              if negb from_ousd then
                (if (amount1In (event_args first)
                     <? amount0In (event_args first))%N
                 then pair_token0 (event_address first)
                 else pair_token1 (event_address first), token_out)
              else
                (token_in,
                 if (amount1Out (event_args last)
                     <? amount0Out (event_args last))%N
                 then pair_token0 (event_address last)
                 else pair_token1 (event_address last))
            else (token_in, token_out) in
          let out_address :=
            fold_left (fun out swap =>
                         if negb (String.eqb (to (event_args swap)) out)
                         then to (event_args swap) else out)
                      tx_swaps out_address in
          (relevance first_is_pair last_is_pair d, token_in, token_out,
           out_address)
      end in
    do a_change <-
      match credits_per_token with
      | Some cpt =>
          if cpt =? 0 then Return a_change
          else ousd_value_adjustment (PyInt a_change)
                 (rebasingCreditsPerToken (event_blockNumber event)) cpt
      | None => Return a_change
      end;
    Return (Some (mkSwapRow a b (event_blockNumber event) in_address
                   out_address (if is_left d then "buy" else "sell")
                   a_change b_change token_in token_out token0_relevance
                   tx_hash)).

End Main.
End UniswapSwaps.

(** ** transform.py *)

Module Transform.

Inductive Direction : Type := LEFT | RIGHT.

Definition Direction_eqb (x y : Direction) : bool :=
  match x, y with
  | LEFT, LEFT | RIGHT, RIGHT => true
  | _, _ => false
  end.

(** The parameters with the types of the constructor's defaults: the ETH
    rate is an int, the minimum threshold a Decimal.  [Eligibility] below
    has the eligible balance for the floats main() passes. *)
Record CalcParameters : Type := mkParams {
  split_threshold : decimal;
  ousd_ogn_split : decimal;
  ogn_price_usd : decimal;
  eth_value_usd : Z;
  minimum_threshold : decimal
}.

(** CalcParameters(): Decimal(0.5), Decimal(15e16), int(600), Decimal(0),
    Decimal(1000e18) *)
Definition default_params : CalcParameters :=
  mkParams (mkDec (10 ^ 21) 0) (mkDec 5 (-1)) (mkDec (15 * 10 ^ 16) 0)
           600 (mkDec 0 0).

(** A swap is the tuple (ousd_value, counter_value, direction). *)
Definition swap : Type := (Z * Z * Direction)%type.

Record Account : Type := mkAccount {
  address : string;
  params : CalcParameters;
  _ousd_balance_start : Z;
  _ousd_balance_end : Z;
  _ousd_lp_start : Z;
  _ousd_lp_end : Z;
  _usdt_swaps : list swap;
  _usdc_swaps : list swap;
  _weth_swaps : list swap;
  _virgox_proceeds : list Z
}.

(** Account(address, params) *)
Definition new_account (address : string) (params : CalcParameters) : Account :=
  mkAccount address params 0 0 0 0 [] [] [] [].

Section Properties.

Variable self : Account.

(** For the integer rate; [Eligibility._eth_to_usd] has the product with a
    float. *)
Definition _eth_to_usd (eth_value : Z) : Z :=
  eth_value * eth_value_usd (params self).

Definition swap_in (swaps : list swap) : Z :=
  sum_Z (map (fun x : swap =>
                if Direction_eqb (snd x) RIGHT then snd (fst x) else 0) swaps).

Definition swap_out (swaps : list swap) : Z :=
  sum_Z (map (fun x : swap =>
                if Direction_eqb (snd x) LEFT then snd (fst x) else 0) swaps).

Definition usdt_swap_in : Z := swap_in (_usdt_swaps self).
Definition usdt_swap_out : Z := swap_out (_usdt_swaps self).
Definition usdc_swap_in : Z := swap_in (_usdc_swaps self).
Definition usdc_swap_out : Z := swap_out (_usdc_swaps self).
Definition weth_swap_in : Z := swap_in (_weth_swaps self).
Definition weth_swap_out : Z := swap_out (_weth_swaps self).

Definition trading_gain_usdt : Z :=
  if _ousd_balance_start self + _ousd_lp_start self <=? 0 then 0
  else usdt_swap_in - usdt_swap_out.

Definition trading_gain_usdc : Z :=
  if _ousd_balance_start self + _ousd_lp_start self <=? 0 then 0
  else usdc_swap_in - usdc_swap_out.

Definition trading_gain_weth : Z :=
  if _ousd_balance_start self + _ousd_lp_start self <=? 0 then 0
  else weth_swap_in - weth_swap_out.

Definition trading_gain_virgox : Z :=
  match _virgox_proceeds self with
  | [] => 0
  | _ => sum_Z (_virgox_proceeds self)
  end.

(** convert_decimals, called with decin <= decout only *)
Definition convert_decimals (val decin decout : Z) : Z :=
  val * 10 ^ (decout - decin).

Definition trading_gain_total_usd : Z :=
  convert_decimals trading_gain_usdt 6 18
  + convert_decimals trading_gain_usdc 6 18
  + _eth_to_usd trading_gain_weth
  + trading_gain_virgox.

(** The eligible balance for the integer rate and the Decimal threshold: an
    int.  It is [Eligibility.eligible_balance_usd] at these types
    ([eligible_default_types] below), which has the other types too. *)
Definition eligible_balance_usd : Z :=
  let diff := _ousd_balance_start self + _ousd_lp_start self
              - Z.max trading_gain_total_usd 0 in
  if dec_ltb (dec_of_Z diff) (minimum_threshold (params self)) then 0
  else diff.

Definition adjusted_ousd_compensation : Z :=
  let eligible := eligible_balance_usd in
  if dec_leb (dec_of_Z eligible) (split_threshold (params self)) then eligible
  else
    let above_split :=
      dec_sub (dec_of_Z eligible) (split_threshold (params self)) in
    dec_floor (dec_add (split_threshold (params self))
                       (dec_mul above_split (ousd_ogn_split (params self)))).

(** The operand pair of the sanity check of adjusted_ogn_compensation. *)
Definition ogn_usd_value : decimal :=
  let above_split :=
    dec_sub (dec_of_Z eligible_balance_usd) (split_threshold (params self)) in
  dec_sub above_split
          (dec_of_Z (dec_floor (dec_mul above_split
                                        (ousd_ogn_split (params self))))).

Definition sanity_check : bool :=
  dec_eqb (dec_add ogn_usd_value (dec_of_Z adjusted_ousd_compensation))
          (dec_of_Z eligible_balance_usd).

Definition adjusted_ogn_compensation : res Z :=
  let eligible := eligible_balance_usd in
  if dec_leb (dec_of_Z eligible) (split_threshold (params self)) then Return 0
  else
    if negb sanity_check then Raise AssertionError
    else
      do q <- div_res ogn_usd_value (ogn_price_usd (params self));
      Return (dec_floor (dec_mul q dec_1e18)).

(** A cell of the list [to_list] builds: a string or a Decimal. *)
Inductive cell : Type :=
| CStr (s : string)
| CDec (d : decimal).

(** locale.currency(_, symbol=False, grouping=True), fixed by the locale of
    the process. *)
Variable locale_currency : decimal -> string.

Definition to_list : res (list cell) :=
  do ogn <- adjusted_ogn_compensation;
  do eligible_h <- div_res (dec_of_Z eligible_balance_usd) dec_1e18;
  do ousd_h <- div_res (dec_of_Z adjusted_ousd_compensation) dec_1e18;
  do ogn_interest_h <- div_res (dec_mul (dec_of_Z ogn) dec_1_25) dec_1e18;
  do ogn_h <- div_res (dec_of_Z ogn) dec_1e18;
  Return [ CStr (address self);
           CStr (locale_currency eligible_h);
           CStr (locale_currency ousd_h);
           CStr (locale_currency ogn_interest_h);
           CStr (locale_currency ogn_h);
           CDec (dec_of_Z eligible_balance_usd);
           CDec (dec_of_Z adjusted_ousd_compensation);
           CDec (dec_of_Z ogn) ].

End Properties.

(** The accumulating methods. *)
Definition add_ousd_balance_start (self : Account) (bal : Z) : Account :=
  mkAccount (address self) (params self)
            (_ousd_balance_start self + bal) (_ousd_balance_end self)
            (_ousd_lp_start self) (_ousd_lp_end self)
            (_usdt_swaps self) (_usdc_swaps self) (_weth_swaps self)
            (_virgox_proceeds self).

Definition add_ousd_lp_start (self : Account) (bal : Z) : Account :=
  mkAccount (address self) (params self)
            (_ousd_balance_start self) (_ousd_balance_end self)
            (_ousd_lp_start self + bal) (_ousd_lp_end self)
            (_usdt_swaps self) (_usdc_swaps self) (_weth_swaps self)
            (_virgox_proceeds self).

Definition add_usdt_swap (self : Account) (s : swap) : Account :=
  mkAccount (address self) (params self)
            (_ousd_balance_start self) (_ousd_balance_end self)
            (_ousd_lp_start self) (_ousd_lp_end self)
            (_usdt_swaps self ++ [s]) (_usdc_swaps self) (_weth_swaps self)
            (_virgox_proceeds self).

Definition add_usdc_swap (self : Account) (s : swap) : Account :=
  mkAccount (address self) (params self)
            (_ousd_balance_start self) (_ousd_balance_end self)
            (_ousd_lp_start self) (_ousd_lp_end self)
            (_usdt_swaps self) (_usdc_swaps self ++ [s]) (_weth_swaps self)
            (_virgox_proceeds self).

Definition add_weth_swap (self : Account) (s : swap) : Account :=
  mkAccount (address self) (params self)
            (_ousd_balance_start self) (_ousd_balance_end self)
            (_ousd_lp_start self) (_ousd_lp_end self)
            (_usdt_swaps self) (_usdc_swaps self) (_weth_swaps self ++ [s])
            (_virgox_proceeds self).

Definition add_virgox_proceed (self : Account) (usd_proceeds : Z) : Account :=
  mkAccount (address self) (params self)
            (_ousd_balance_start self) (_ousd_balance_end self)
            (_ousd_lp_start self) (_ousd_lp_end self)
            (_usdt_swaps self) (_usdc_swaps self) (_weth_swaps self)
            (_virgox_proceeds self ++ [usd_proceeds]).

(** The counter-asset received by the sells and paid by the buys. *)
Definition inflow (swaps : list swap) : Z :=
  sum_Z (map (fun x : swap => snd (fst x))
             (filter (fun x : swap => Direction_eqb (snd x) RIGHT) swaps)).

Definition outflow (swaps : list swap) : Z :=
  sum_Z (map (fun x : swap => snd (fst x))
             (filter (fun x : swap => Direction_eqb (snd x) LEFT) swaps)).

End Transform.

(** ** Python's float

    A [float] is an IEEE 754 binary64 number, as the Standard Library
    specifies it ([SpecFloat], with 53 bits of mantissa and exponents up to
    1024): every operation rounds its exact result to the nearest float, ties
    to even, and overflows to an infinity. *)

Module PyFloat.

Definition float : Type := SpecFloat.spec_float.

Definition float_add : float -> float -> float := SpecFloat.SFadd 53 1024.
Definition float_sub : float -> float -> float := SpecFloat.SFsub 53 1024.
Definition float_mul : float -> float -> float := SpecFloat.SFmul 53 1024.
Definition float_div : float -> float -> float := SpecFloat.SFdiv 53 1024.

(** [x < y], false when one of them is a NaN *)
Definition float_ltb : float -> float -> bool := SpecFloat.SFltb.

Definition float_zero : float := SpecFloat.S754_zero false.

(** The nearest float to an int, an infinity beyond the largest float. *)
Definition nearest_float (n : Z) : float :=
  SpecFloat.binary_normalize 53 1024 n 0 false.

(** float(n), as the arithmetic of an int with a float converts the int:
    OverflowError, int too large to convert to float, beyond the largest
    float. *)
Definition float_of_int (n : Z) : res float :=
  match nearest_float n with
  | SpecFloat.S754_infinity _ => Raise OverflowError
  | x => Return x
  end.

(** The signed mantissa of a finite float, whose value is
    [mantissa * 2 ^ e]. *)
Definition mantissa (s : bool) (m : positive) : Z :=
  if s then Z.neg m else Z.pos m.

(** The comparison of an int with a float is exact, the int is not
    converted: [None] for a NaN, with which every comparison is false. *)
Definition compare_int_float (n : Z) (x : float) : option comparison :=
  match x with
  | SpecFloat.S754_nan => None
  | SpecFloat.S754_infinity s => Some (if s then Gt else Lt)
  | SpecFloat.S754_zero _ => Some (n ?= 0)
  | SpecFloat.S754_finite s m e =>
      Some (if 0 <=? e then n ?= mantissa s m * 2 ^ e
            else n * 2 ^ (- e) ?= mantissa s m)
  end.

(** Decimal.from_float(x) for a zero or a finite float: exact. *)
Definition dec_of_float (x : float) : option decimal :=
  match x with
  | SpecFloat.S754_zero _ => Some (mkDec 0 0)
  | SpecFloat.S754_finite s m e =>
      Some (if 0 <=? e then mkDec (mantissa s m * 2 ^ e) 0
            else mkDec (mantissa s m * 5 ^ (- e)) e)
  | _ => None
  end.

(** The float literals of main() in transform.py: 578.24 is the float
    nearest to 57824/100, and 1e16 is exact. *)
Definition float_578_24 : float :=
  SpecFloat.S754_finite false 5086252829161554 (-43).
Definition float_1e16 : float :=
  SpecFloat.S754_finite false 5000000000000000 1.

End PyFloat.

(** ** transform.py: the eligible balance with the numbers of the caller

    CalcParameters stores the ETH rate and the minimum threshold as they are
    given, and [eligible_balance_usd] computes with them.  [Transform] above
    gives them the types of the constructor's defaults, [int(600)] and
    [Decimal(0)]; main() passes the floats [578.24] and [1e16].  Here the
    rate is an int or a float and the threshold an int, a float or a
    Decimal, with Python's arithmetic for each: ints are exact, an int that
    meets a float is converted to the nearest float first, and comparisons
    are exact for every pair of types. *)

Module Eligibility.
Import PyFloat Transform.

Inductive number : Type :=
| Int (n : Z)
| Float (x : float).

Inductive threshold : Type :=
| Number (v : number)
| Dec (d : decimal).

Definition number_add (a b : number) : res number :=
  match a, b with
  | Int m, Int n => Return (Int (m + n))
  | Int m, Float y => do x <- float_of_int m; Return (Float (float_add x y))
  | Float x, Int n => do y <- float_of_int n; Return (Float (float_add x y))
  | Float x, Float y => Return (Float (float_add x y))
  end.

Definition number_sub (a b : number) : res number :=
  match a, b with
  | Int m, Int n => Return (Int (m - n))
  | Int m, Float y => do x <- float_of_int m; Return (Float (float_sub x y))
  | Float x, Int n => do y <- float_of_int n; Return (Float (float_sub x y))
  | Float x, Float y => Return (Float (float_sub x y))
  end.

Definition number_mul (a b : number) : res number :=
  match a, b with
  | Int m, Int n => Return (Int (m * n))
  | Int m, Float y => do x <- float_of_int m; Return (Float (float_mul x y))
  | Float x, Int n => do y <- float_of_int n; Return (Float (float_mul x y))
  | Float x, Float y => Return (Float (float_mul x y))
  end.

(** [a < b] *)
Definition number_ltb (a b : number) : bool :=
  match a, b with
  | Int m, Int n => m <? n
  | Int m, Float y =>
      match compare_int_float m y with Some Lt => true | _ => false end
  | Float x, Int n =>
      match compare_int_float n x with Some Gt => true | _ => false end
  | Float x, Float y => float_ltb x y
  end.

(** max(a, b): the first argument unless the second is greater. *)
Definition number_max (a b : number) : number :=
  if number_ltb a b then b else a.

(** [v < t] for a threshold.  A float is compared with a Decimal through
    Decimal.from_float, and the comparison of a NaN signals
    InvalidOperation. *)
Definition below (v : number) (t : threshold) : res bool :=
  match t with
  | Number w => Return (number_ltb v w)
  | Dec d =>
      match v with
      | Int n => Return (dec_ltb (dec_of_Z n) d)
      | Float x =>
          match dec_of_float x with
          | Some dx => Return (dec_ltb dx d)
          | None =>
              match x with
              | SpecFloat.S754_infinity s => Return s
              | _ => Raise DecimalException
              end
          end
      end
  end.

Section Properties.

(** self.params.eth_value_usd and self.params.minimum_threshold *)
Variable eth_value_usd : number.
Variable minimum_threshold : threshold.

Variable self : Account.

Definition _eth_to_usd (eth_value : Z) : res number :=
  number_mul (Int eth_value) eth_value_usd.

Definition trading_gain_total_usd : res number :=
  let usd := convert_decimals (trading_gain_usdt self) 6 18
             + convert_decimals (trading_gain_usdc self) 6 18 in
  do eth <- _eth_to_usd (trading_gain_weth self);
  do sum <- number_add (Int usd) eth;
  number_add sum (Int (trading_gain_virgox self)).

Definition eligible_balance_usd : res number :=
  do gain <- trading_gain_total_usd;
  do diff <- number_sub (Int (_ousd_balance_start self + _ousd_lp_start self))
                        (number_max gain (Int 0));
  do small <- below diff minimum_threshold;
  if small then Return (Int 0) else Return diff.

End Properties.

(** [v < 0] *)
Definition negative (v : number) : bool := number_ltb v (Int 0).

(** [v == 0], the test by which main() leaves an account out of its
    output. *)
Definition equals_zero (v : number) : bool :=
  match v with
  | Int n => n =? 0
  | Float (SpecFloat.S754_zero _) => true
  | Float _ => false
  end.

(** [0 <= t] *)
Definition nonnegative (t : threshold) : bool :=
  match t with
  | Number (Int n) => 0 <=? n
  | Number (Float x) => SpecFloat.SFleb float_zero x
  | Dec d => 0 <=? coef d
  end.

(** The total trading gain in integers, for an integer ETH rate. *)
Definition integer_gain (self : Account) (rate : Z) : Z :=
  convert_decimals (trading_gain_usdt self) 6 18
  + convert_decimals (trading_gain_usdc self) 6 18
  + trading_gain_weth self * rate
  + trading_gain_virgox self.

(** The ETH rate and the minimum threshold of main(). *)
Definition main_eth_value_usd : number := Float float_578_24.
Definition main_minimum_threshold : threshold := Number (Float float_1e16).

End Eligibility.

(** ** The formulas of the specification, in exact arithmetic *)

Module Spec.

(** Section 4.2: the attributed sum lies within the drift bound of the
    reserve, and the shares add up to the attributable supply. *)
Definition within_drift (reserve : N) (attributed : num) : Prop :=
  num_gtb (num_abs (num_sub (PyInt (Z.of_N reserve)) attributed))
          (PyInt MAX_ROUNDING_DRIFT) = false.

Definition conservation (total_supply a_supply b_supply : N)
    (sum_shares : Z) (sum_a sum_b : num) : Prop :=
  sum_shares = Z.of_N total_supply - MINIMUM_LIQUIDITY
  /\ within_drift a_supply sum_a
  /\ within_drift b_supply sum_b.

(** Section 3: reserveX * rawShareBalance / attributableSupply in unbounded
    precision, floored at the output. *)
Definition attributed_reserve (reserve lp attributable : Z) : Z :=
  Qfloor (inject_Z reserve * inject_Z lp / inject_Z attributable).

(** Section 4.4, the split rule. *)
Definition primary_comp (eligible : Z) (threshold ratio : Q) : Q :=
  if Qle_bool (inject_Z eligible) threshold then inject_Z eligible
  else
    let above_split := (inject_Z eligible - threshold)%Q in
    (threshold + inject_Z (Qfloor (above_split * ratio)))%Q.

Definition secondary_comp (eligible : Z) (threshold ratio price : Q) : Z :=
  if Qle_bool (inject_Z eligible) threshold then 0
  else
    let above_split := (inject_Z eligible - threshold)%Q in
    let secondary_usd :=
      (above_split - inject_Z (Qfloor (above_split * ratio)))%Q in
    Qfloor (secondary_usd / price).

(** Section 4.3: amount-out minus amount-in on either side. *)
Definition changes (args : UniswapSwaps.SwapArgs) : Z * Z :=
  (Z.of_N (UniswapSwaps.amount0Out args) - Z.of_N (UniswapSwaps.amount0In args),
   Z.of_N (UniswapSwaps.amount1Out args) - Z.of_N (UniswapSwaps.amount1In args)).

End Spec.

(** ** Worked examples *)

Module Examples.
Import Transform.

(** A chain with three holders. *)
Definition holders3 (x y z : N) (s : string) : N :=
  if String.eqb s "0xA" then x
  else if String.eqb s "0xB" then y
  else if String.eqb s "0xC" then z
  else 0%N.

Definition no_stake (pid : Z) (s : string) : N := 0%N.

(** Scenario A of the specification, with a second holder for the rest of
    the attributable supply. *)
Definition scenario_a : run :=
  UniswapLps.attribute (holders3 500000 499000 0) 1000000 2000000 300
                       "0xOUSD" "0xUSDT" None 0 ["0xA"; "0xB"]%string.

(** Two holders of a pool of realistic size. *)
Definition two_holders : string -> N :=
  holders3 431095318149642000987 2047951545599124332404 0.

Definition two_holders_run : run :=
  UniswapLps.attribute two_holders 2479046863748766334391
                       9634204159224655393987466 5000000000000
                       "0xOUSD" "0xUSDT" None 0 ["0xA"; "0xB"]%string.

(** A Mooniswap pool of 2000 shares of which one holder of 500 is known. *)
Definition mooniswap_run : run :=
  MooniswapLps.attribute (holders3 500 0 0) 2000 8 4
                         "0xOUSD" "0xUSDT" None 0 ["0xA"]%string.

(** A pool whose reserve needs more than 28 digits. *)
Definition large_reserve : N := (10 ^ 33 - 100)%N.

Definition large_reserve_run : run :=
  UniswapLps.attribute (holders3 4 1 1) 1006 large_reserve 300
                       "0xOUSD" "0xUSDT" None 0 ["0xA"; "0xB"; "0xC"]%string.

(** The split threshold, the split ratio and the OGN price of [main].  The
    ETH rate is the integer 578 and the minimum threshold the Decimal 10^16
    here; [main] itself has the floats 578.24 and 1e16, which are
    [Eligibility.main_eth_value_usd] and
    [Eligibility.main_minimum_threshold]. *)
Definition main_params : CalcParameters :=
  mkParams (mkDec (10 ^ 21) 0) (mkDec 25 (-2)) (mkDec (1492 * 10 ^ 14) 0)
           578 (mkDec (10 ^ 16) 0).

(** The same with a split of Decimal(0.3). *)
Definition decimal_0_3 : decimal :=
  mkDec 299999999999999988897769753748434595763683319091796875 (-54).

Definition split_0_3_params : CalcParameters :=
  mkParams (mkDec (10 ^ 21) 0) decimal_0_3 (mkDec (1492 * 10 ^ 14) 0)
           578 (mkDec (10 ^ 16) 0).

(** Scenario C of the specification. *)
Definition scenario_c_params : CalcParameters :=
  mkParams (mkDec 1000 0) (mkDec 25 (-2)) (mkDec (1492 * 10 ^ 14) 0)
           578 (mkDec 0 0).

(** An account that only has a pre-incident balance. *)
Definition holder (p : CalcParameters) (balance : Z) : Account :=
  add_ousd_balance_start (new_account "0xA" p) balance.

(** A sell of 100 OUSD for 50 of the counter-asset. *)
Definition sell_args : UniswapSwaps.SwapArgs :=
  UniswapSwaps.mkArgs 100 0 0 50 "0xA".

Definition one_receipt (h : string) : UniswapSwaps.Receipt :=
  UniswapSwaps.mkReceipt true "0xA".

Definition sell_event : UniswapSwaps.SwapEvent :=
  UniswapSwaps.mkSwap "0xPAIR" sell_args 11272255 "0xT1".

(** A transaction that calls addLiquidity, one that does not. *)
Definition transactions (h : string) : Transaction :=
  if String.eqb h "0xT1" then mkTx "0xe8e33700000000aa" (Some "0xA"%string)
  else if String.eqb h "0xT2" then mkTx "0xf305d719000000bb" (Some "0xB"%string)
  else mkTx "0xdeadbeef" (Some "0xC"%string).

End Examples.

(** ** dict_get, the same function in every script *)

Module DictGet.

(** What the scripts read out of an event: [None], a string, an int or a
    nested dict. *)
#[warnings="-register-all"] Inductive value : Type :=
| VNone
| VStr (s : string)
| VInt (z : Z)
| VDict (items : list (string * value)).

Fixpoint lookup (key : string) (items : list (string * value)) : value :=
  match items with
  | [] => VNone
  | (k, v) :: rest => if String.eqb k key then v else lookup key rest
  end.

(** d.get(key): the value at the key, [None] when the key is missing; an
    object that is not a dict has no [get], and the AttributeError that
    follows is the result [None] here. *)
Definition get (d : value) (key : string) : option value :=
  match d with
  | VDict items => Some (lookup key items)
  | _ => None
  end.

(** s.split(sep) for a separator of one character *)
Fixpoint split (sep : ascii) (s : string) : list string :=
  match s with
  | EmptyString => [EmptyString]
  | String c rest =>
      if Ascii.eqb c sep then EmptyString :: split sep rest
      else
        match split sep rest with
        | [] => [String c EmptyString]
        | p :: ps => String c p :: ps
        end
  end.

(** sep.join(parts) *)
Fixpoint join (sep : string) (parts : list string) : string :=
  match parts with
  | [] => EmptyString
  | p :: rest =>
      match rest with
      | [] => p
      | _ :: _ => p ++ sep ++ join sep rest
      end
  end.

(** dict_get(d, path); the recursion is on the path with its first part
    removed, [fuel] counts the calls. *)
Fixpoint dict_get_fuel (fuel : nat) (d : value) (path : string)
  : option value :=
  match fuel with
  | O => None
  | S fuel =>
      let pparts := split "." path in
      let lp := List.length pparts in
      if (lp <? 1)%nat then Some VNone
      else if (1 <? lp)%nat then
        match get d (hd EmptyString pparts) with
        | Some v => dict_get_fuel fuel v (join "." (tl pparts))
        | None => None
        end
      else get d path
  end.

(** A path of n characters has at most n + 1 parts. *)
Definition dict_get (d : value) (path : string) : option value :=
  dict_get_fuel (S (String.length path)) d path.

(** The lookup key by key. *)
Fixpoint walk (d : value) (keys : list string) : option value :=
  match keys with
  | [] => Some VNone
  | k :: rest =>
      match rest with
      | [] => get d k
      | _ :: _ =>
          match get d k with
          | Some v => walk v rest
          | None => None
          end
      end
  end.

(** A key without a dot. *)
Definition plain (k : string) : Prop := split "." k = [k].

End DictGet.

(** ** transform.py: load_address_list *)

Module AddressList.

Section Load.

(** Web3.toChecksumAddress: [None] stands for the ValueError it raises on a
    string that is not an address. *)
Variable toChecksumAddress : string -> option string.

(** [for x in text.split('\n'): if x and not x.startswith('#'):
        addresses.append(Web3.toChecksumAddress(x))] *)
Fixpoint lines_loop (lines : list string) (addresses : list string)
  : res (list string) :=
  match lines with
  | [] => Return addresses
  | x :: rest =>
      if str_truthy x && negb (startswith x "#") then
        match toChecksumAddress x with
        | Some address => lines_loop rest (addresses ++ [address])
        | None => Raise ValueError
        end
      else lines_loop rest addresses
  end.

(** The file system: the text read_text() returns for the regular file at a
    path, [None] where is_file() is false. *)
Variable file_at : string -> option string.

(** [fname] is [None] for Python's None, of which Path makes a TypeError. *)
Definition load_address_list (fname : option string) : res (list string) :=
  match fname with
  | None => Raise TypeError
  | Some path =>
      match file_at path with
      | None => Return []
      | Some text => lines_loop (DictGet.split "010" text) []
      end
  end.

End Load.

(** A line that is kept: not empty and not a comment. *)
Definition is_address_line (x : string) : bool :=
  str_truthy x && negb (startswith x "#").

End AddressList.

(** ** uniswap_swaps.py: the loop over the Swap events *)

Module UniswapSwapsMain.
Import UniswapSwaps.

Section Main.

Variables a b : string.
Variable pair_address : string.
Variables token0 token1 : string.
Variable pair_token0 : string -> string.
Variable pair_token1 : string -> string.
Variable getTransactionReceipt : string -> Receipt.
Variable processReceipt : string -> list SwapEvent.
Variable rebasingCreditsPerToken : Z -> Z.
Variable credits_per_token : option Z.

(** [for event in swap_filter.get_all_entries()]: the lines printed and the
    exception that stopped the loop, if any. *)
Fixpoint events_loop (events : list SwapEvent) : list swap_row * option exn :=
  match events with
  | [] => ([], None)
  | event :: rest =>
      match classify a b pair_address token0 token1 pair_token0 pair_token1
                     getTransactionReceipt processReceipt
                     rebasingCreditsPerToken credits_per_token event with
      | Raise e => ([], Some e)
      | Return None => events_loop rest
      | Return (Some row) =>
          let '(out, e) := events_loop rest in (row :: out, e)
      end
  end.

Definition main (events : list SwapEvent) : list swap_row * option exn :=
  if negb (str_truthy pair_address) then ([], Some SysExit)
  else if negb (String.eqb token0 a) then ([], Some AssertionError)
  else if negb (String.eqb token1 b) then ([], Some AssertionError)
  else events_loop events.

End Main.
End UniswapSwapsMain.

(** ** Two runs of an LP script compared *)

(** Two printed lines that differ at most in the amount of OUSD. *)
Definition same_but_ousd (a b : string) (r0 r1 : lp_row) : Prop :=
  row_lp_address r1 = row_lp_address r0
  /\ row_lp_balance r1 = row_lp_balance r0
  /\ (a <> OUSD_ADDRESS -> row_token0_value r1 = row_token0_value r0)
  /\ (b <> OUSD_ADDRESS -> row_token1_value r1 = row_token1_value r0).

(** Two runs that end the same way and print the same lines but for the
    amounts of OUSD. *)
Definition same_run_but_ousd (a b : string) (plain adjusted : run) : Prop :=
  snd adjusted = snd plain
  /\ Forall2 (same_but_ousd a b) (fst plain) (fst adjusted).

(** The printed amounts of a line are within one unit of the floors of the
    exact shares [reserve * lp_balance / denom], each when that share is
    below 10^26. *)
Definition within_one_of_share (reserve_a reserve_b denom : Z) (row : lp_row)
  : Prop :=
  (reserve_a * row_lp_balance row < denom * 10 ^ 26 ->
   Z.abs (row_token0_value row - reserve_a * row_lp_balance row / denom) <= 1)
  /\ (reserve_b * row_lp_balance row < denom * 10 ^ 26 ->
      Z.abs (row_token1_value row - reserve_b * row_lp_balance row / denom)
      <= 1).

(** ** Worked examples: swaps *)

Module SwapExamples.
Import UniswapSwaps.

(** A purchase of OUSD routed through another pair, a direct purchase, a
    sale, a swap of a failed transaction and a sale of OUSD that was bought
    on another pair in the same transaction. *)
Definition hop1 : SwapEvent :=
  mkSwap "0xOTHER" (mkArgs 70 0 0 69 "0xPAIR") 100 "0xT1".
Definition hop2 : SwapEvent :=
  mkSwap "0xPAIR" (mkArgs 0 69 68 0 "0xA") 100 "0xT1".
Definition direct : SwapEvent :=
  mkSwap "0xPAIR" (mkArgs 0 50 49 0 "0xB") 101 "0xT2".
Definition sale : SwapEvent :=
  mkSwap "0xPAIR" (mkArgs 30 0 0 29 "0xC") 102 "0xT3".
Definition failed : SwapEvent :=
  mkSwap "0xPAIR" (mkArgs 10 0 0 9 "0xD") 103 "0xT4".
Definition hop5 : SwapEvent :=
  mkSwap "0xOTHER" (mkArgs 40 0 0 39 "0xPAIR") 104 "0xT5".
Definition sale5 : SwapEvent :=
  mkSwap "0xPAIR" (mkArgs 39 0 0 38 "0xE") 104 "0xT5".

Definition receipts (h : string) : Receipt :=
  if String.eqb h "0xT1" then mkReceipt true "0xA"
  else if String.eqb h "0xT2" then mkReceipt true "0xB"
  else if String.eqb h "0xT3" then mkReceipt true "0xC"
  else if String.eqb h "0xT5" then mkReceipt true "0xE"
  else mkReceipt false "0xD".

Definition swaps_of (h : string) : list SwapEvent :=
  if String.eqb h "0xT1" then [hop1; hop2]
  else if String.eqb h "0xT2" then [direct]
  else if String.eqb h "0xT3" then [sale]
  else if String.eqb h "0xT5" then [hop5; sale5]
  else [].

Definition tokens0 (pair : string) : string :=
  if String.eqb pair "0xPAIR" then "0xOUSD" else "0xUSDC".
Definition tokens1 (pair : string) : string := "0xUSDT".

Definition classify : SwapEvent -> res (option swap_row) :=
  UniswapSwaps.classify "0xOUSD" "0xUSDT" "0xPAIR" "0xOUSD" "0xUSDT"
    tokens0 tokens1 receipts swaps_of (fun _ => 10 ^ 18) None.

Definition main : list SwapEvent -> list swap_row * option exn :=
  UniswapSwapsMain.main "0xOUSD" "0xUSDT" "0xPAIR" "0xOUSD" "0xUSDT"
    tokens0 tokens1 receipts swaps_of (fun _ => 10 ^ 18) None.

End SwapExamples.

(** ** transform.py: the loading of the lines of the extractors *)

Module TransformLoad.
Import Transform.

Definition WETH_ADDRESS : string := "0xC02aaA39b223FE8D0A0e5C4F27eAD9083C756Cc2".
Definition USDT_ADDRESS : string := "0xdAC17F958D2ee523a2206206994597C13D831ec7".
Definition USDC_ADDRESS : string := "0xA0b86991c6218b36c1d19D4a2e9Eb0cE3606eB48".

(** The counter-asset sides of the LP positions of an account: attributes
    that process_uniswap_lp_data writes and nothing reads. *)
Record CounterLp : Type := mkCounterLp {
  _usdt_lp_start : Z;
  _usdt_lp_end : Z;
  _usdc_lp_start : Z;
  _usdc_lp_end : Z;
  _weth_lp_start : Z;
  _weth_lp_end : Z
}.

(** An Account object: the attributes of [Account] and the counter-asset
    sides. *)
Definition account_object : Type := (Account * CounterLp)%type.

(** Account(address, params) *)
Definition new_object (address : string) (params : CalcParameters)
  : account_object :=
  (new_account address params, mkCounterLp 0 0 0 0 0 0).

Definition add_ousd_balance_end (self : Account) (bal : Z) : Account :=
  mkAccount (address self) (params self)
            (_ousd_balance_start self) (_ousd_balance_end self + bal)
            (_ousd_lp_start self) (_ousd_lp_end self)
            (_usdt_swaps self) (_usdc_swaps self) (_weth_swaps self)
            (_virgox_proceeds self).

Definition add_ousd_lp_end (self : Account) (bal : Z) : Account :=
  mkAccount (address self) (params self)
            (_ousd_balance_start self) (_ousd_balance_end self)
            (_ousd_lp_start self) (_ousd_lp_end self + bal)
            (_usdt_swaps self) (_usdc_swaps self) (_weth_swaps self)
            (_virgox_proceeds self).

Definition add_usdt_lp_start (self : CounterLp) (val : Z) : CounterLp :=
  mkCounterLp (_usdt_lp_start self + val) (_usdt_lp_end self)
              (_usdc_lp_start self) (_usdc_lp_end self)
              (_weth_lp_start self) (_weth_lp_end self).

Definition add_usdt_lp_end (self : CounterLp) (val : Z) : CounterLp :=
  mkCounterLp (_usdt_lp_start self) (_usdt_lp_end self + val)
              (_usdc_lp_start self) (_usdc_lp_end self)
              (_weth_lp_start self) (_weth_lp_end self).

Definition add_usdc_lp_start (self : CounterLp) (val : Z) : CounterLp :=
  mkCounterLp (_usdt_lp_start self) (_usdt_lp_end self)
              (_usdc_lp_start self + val) (_usdc_lp_end self)
              (_weth_lp_start self) (_weth_lp_end self).

Definition add_usdc_lp_end (self : CounterLp) (val : Z) : CounterLp :=
  mkCounterLp (_usdt_lp_start self) (_usdt_lp_end self)
              (_usdc_lp_start self) (_usdc_lp_end self + val)
              (_weth_lp_start self) (_weth_lp_end self).

Definition add_weth_lp_start (self : CounterLp) (val : Z) : CounterLp :=
  mkCounterLp (_usdt_lp_start self) (_usdt_lp_end self)
              (_usdc_lp_start self) (_usdc_lp_end self)
              (_weth_lp_start self + val) (_weth_lp_end self).

Definition add_weth_lp_end (self : CounterLp) (val : Z) : CounterLp :=
  mkCounterLp (_usdt_lp_start self) (_usdt_lp_end self)
              (_usdc_lp_start self) (_usdc_lp_end self)
              (_weth_lp_start self) (_weth_lp_end self + val).

(** The dict [accounts], address => Account, in the order of insertion. *)
Definition ledger : Type := list (string * account_object).

(** What stops the loading: the KeyError of [accounts[key]] or the
    [sys.exit(1)] of an unknown token pair. *)
Inductive failure : Type :=
| KeyError (key : string)
| Exit.

Inductive loaded (A : Type) : Type :=
| Ok (a : A)
| Fail (f : failure).

Arguments Ok {A} a.
Arguments Fail {A} f.

(** accounts.get(key) *)
Fixpoint get (accounts : ledger) (key : string)
  : option account_object :=
  match accounts with
  | [] => None
  | (k, v) :: rest => if String.eqb k key then Some v else get rest key
  end.

(** A method call on [accounts[key]]: the object is changed in place. *)
Fixpoint call (accounts : ledger) (key : string)
    (method : account_object -> account_object) : loaded ledger :=
  match accounts with
  | [] => Fail (KeyError key)
  | (k, v) :: rest =>
      if String.eqb k key then Ok ((k, method v) :: rest)
      else
        match call rest key method with
        | Ok rest' => Ok ((k, v) :: rest')
        | Fail f => Fail f
        end
  end.

Definition on_account (method : Account -> Account)
  : account_object -> account_object :=
  fun self => (method (fst self), snd self).

Definition on_counter (method : CounterLp -> CounterLp)
  : account_object -> account_object :=
  fun self => (fst self, method (snd self)).

Section Load.

(** Web3.toChecksumAddress *)
Variable toChecksumAddress : string -> string.

Definition create_account_if_not_exists (accounts_dict : ledger)
    (address : string) (params : CalcParameters) : ledger :=
  let address := toChecksumAddress address in
  match get accounts_dict address with
  | None => accounts_dict ++ [(address, new_object address params)]
  | Some _ => accounts_dict
  end.

(** The body of the loop of process_uniswap_lp_data; the line is a line of
    an LP script. *)
Definition lp_data_step (params : CalcParameters) (is_start : bool)
    (accounts : ledger) (lp : lp_row) : loaded ledger :=
  let token1 := row_token1 lp in
  let lp_address := row_lp_address lp in
  let token0_value := row_token0_value lp in
  let token1_value := row_token1_value lp in
  let accounts := create_account_if_not_exists accounts lp_address params in
  if is_start then
    match call accounts lp_address
               (on_account (fun self => add_ousd_lp_start self token0_value))
    with
    | Fail f => Fail f
    | Ok accounts =>
        if String.eqb token1 USDT_ADDRESS then
          call accounts lp_address
               (on_counter (fun self => add_usdt_lp_start self token1_value))
        else if String.eqb token1 USDC_ADDRESS then
          call accounts lp_address
               (on_counter (fun self => add_usdc_lp_start self token1_value))
        else if String.eqb token1 WETH_ADDRESS then
          call accounts lp_address
               (on_counter (fun self => add_weth_lp_start self token1_value))
        else Fail Exit
    end
  else
    match call accounts lp_address
               (on_account (fun self => add_ousd_lp_end self token0_value))
    with
    | Fail f => Fail f
    | Ok accounts =>
        if String.eqb token1 USDT_ADDRESS then
          call accounts lp_address
               (on_counter (fun self => add_usdt_lp_end self token1_value))
        else if String.eqb token1 USDC_ADDRESS then
          call accounts lp_address
               (on_counter (fun self => add_usdc_lp_end self token1_value))
        else if String.eqb token1 WETH_ADDRESS then
          call accounts lp_address
               (on_counter (fun self => add_weth_lp_end self token1_value))
        else Fail Exit
    end.

Fixpoint process_uniswap_lp_data (csvdata : list lp_row)
    (accounts : ledger) (params : CalcParameters) (is_start : bool)
  : loaded ledger :=
  match csvdata with
  | [] => Ok accounts
  | lp :: rest =>
      match lp_data_step params is_start accounts lp with
      | Fail f => Fail f
      | Ok accounts => process_uniswap_lp_data rest accounts params is_start
      end
  end.

(** The body of the loop of process_uniswap_swap_data; the line is a line
    of uniswap_swaps.py. *)
Definition swap_data_step (params : CalcParameters)
    (accounts : ledger) (swap : UniswapSwaps.swap_row)
  : loaded ledger :=
  let token1 := UniswapSwaps.swap_token1 swap in
  let in_address := UniswapSwaps.swap_in_address swap in
  let out_address := UniswapSwaps.swap_out_address swap in
  let swap_direction := UniswapSwaps.swap_direction swap in
  let token0_amount := UniswapSwaps.swap_token0_amount swap in
  let token1_amount := UniswapSwaps.swap_token1_amount swap in
  let accounts := create_account_if_not_exists accounts in_address params in
  let accounts := create_account_if_not_exists accounts out_address params in
  let direction := if String.eqb swap_direction "buy" then LEFT else RIGHT in
  if String.eqb token1 USDT_ADDRESS then
    call accounts in_address
         (on_account (fun self =>
            add_usdt_swap self (token0_amount, token1_amount, direction)))
  else if String.eqb token1 USDC_ADDRESS then
    call accounts in_address
         (on_account (fun self =>
            add_usdc_swap self (token0_amount, token1_amount, direction)))
  else if String.eqb token1 WETH_ADDRESS then
    call accounts in_address
         (on_account (fun self =>
            add_weth_swap self (token0_amount, token1_amount, direction)))
  else Fail Exit.

Fixpoint process_uniswap_swap_data (csvdata : list UniswapSwaps.swap_row)
    (accounts : ledger) (params : CalcParameters)
  : loaded ledger :=
  match csvdata with
  | [] => Ok accounts
  | swap :: rest =>
      match swap_data_step params accounts swap with
      | Fail f => Fail f
      | Ok accounts => process_uniswap_swap_data rest accounts params
      end
  end.

End Load.

(** The attributes of the account at an address, those of a new account
    when there is none. *)
Definition account_at (accounts : ledger) (params : CalcParameters)
    (key : string) : Account :=
  match get accounts key with
  | Some self => fst self
  | None => new_account key params
  end.

(** The swap tuple of a line. *)
Definition swap_of_line (swap : UniswapSwaps.swap_row) : Transform.swap :=
  (UniswapSwaps.swap_token0_amount swap, UniswapSwaps.swap_token1_amount swap,
   if String.eqb (UniswapSwaps.swap_direction swap) "buy" then LEFT
   else RIGHT).

(** The lines of an address, the lines of a sender with a counter-asset. *)
Definition lines_of (key : string) (csvdata : list lp_row) : list lp_row :=
  filter (fun lp => String.eqb (row_lp_address lp) key) csvdata.

Definition swaps_of (key token1 : string)
    (csvdata : list UniswapSwaps.swap_row) : list UniswapSwaps.swap_row :=
  filter (fun swap =>
            String.eqb (UniswapSwaps.swap_in_address swap) key
            && String.eqb (UniswapSwaps.swap_token1 swap) token1) csvdata.

Definition known_pair (token1 : string) : bool :=
  String.eqb token1 USDT_ADDRESS || String.eqb token1 USDC_ADDRESS
  || String.eqb token1 WETH_ADDRESS.

End TransformLoad.

(** ** Worked examples: loading *)

Module LoadExamples.
Import Transform TransformLoad.

(** Addresses are taken to be in checksum form, but for one. *)
Definition checksum (address : string) : string :=
  if String.eqb address "0xabc" then "0xABC" else address.

(** Web3.toChecksumAddress on the addresses of two tokens, in lower case
    and in checksum form; no other string is taken for an address here. *)
Definition to_checksum (address : string) : option string :=
  if String.eqb address "0xdac17f958d2ee523a2206206994597c13d831ec7"
     || String.eqb address USDT_ADDRESS
  then Some USDT_ADDRESS
  else if String.eqb address "0xc02aaa39b223fe8d0a0e5c4f27ead9083c756cc2"
          || String.eqb address WETH_ADDRESS
  then Some WETH_ADDRESS
  else None.

(** Two files of addresses: a blacklist that ends with a newline, and a file
    with a line that is not an address. *)
Definition files (path : string) : option string :=
  if String.eqb path "blacklist.txt" then
    Some (DictGet.join (String "010" EmptyString)
            ["# blacklist"; "0xdac17f958d2ee523a2206206994597c13d831ec7";
             ""; "0xC02aaA39b223FE8D0A0e5C4F27eAD9083C756Cc2"; ""]%string)
  else if String.eqb path "invalid.txt" then
    Some (DictGet.join (String "010" EmptyString)
            ["# blacklist"; "0xabc"]%string)
  else None.

(** Lines of the LP scripts for three pairs. *)
Definition lp_lines : list lp_row :=
  [ mkRow OUSD_ADDRESS USDT_ADDRESS "0xA" 500000 1001001 150;
    mkRow OUSD_ADDRESS USDT_ADDRESS "0xB" 499000 998998 149;
    mkRow OUSD_ADDRESS WETH_ADDRESS "0xA" 20 5 1 ].

(** A line of a pair with another token, a line with an address that is not
    in checksum form. *)
Definition dai_line : lp_row :=
  mkRow OUSD_ADDRESS "0x6B175474E89094C44Da98b954EedeAC495271d0F" "0xA" 7 7 7.

Definition lower_case_line : lp_row :=
  mkRow OUSD_ADDRESS USDT_ADDRESS "0xabc" 7 7 7.

(** Lines of uniswap_swaps.py: a sale by 0xA that pays 0xB, a purchase by
    0xA. *)
Definition swap_lines : list UniswapSwaps.swap_row :=
  [ UniswapSwaps.mkSwapRow OUSD_ADDRESS USDT_ADDRESS 100 "0xA" "0xB" "sell"
      30 29 OUSD_ADDRESS USDT_ADDRESS "in" "0xT1";
    UniswapSwaps.mkSwapRow OUSD_ADDRESS USDC_ADDRESS 101 "0xA" "0xA" "buy"
      49 50 USDC_ADDRESS OUSD_ADDRESS "through" "0xT2" ].


End LoadExamples.

(** ** A Swap event and its line *)

(** The swap tuple transform.py records for a Swap event: the changes of
    both tokens and the direction, LEFT for a purchase of the first token. *)
Definition swap_of_event (event : UniswapSwaps.SwapEvent) : Transform.swap :=
  let args := UniswapSwaps.event_args event in
  (fst (UniswapSwaps.changes args), snd (UniswapSwaps.changes args),
   if UniswapSwaps.is_left (UniswapSwaps.direction_of args)
   then Transform.LEFT else Transform.RIGHT).

(** ** Worked examples: from the Swap events to the accounts *)

Module SwapLoadExamples.

(** uniswap_swaps.py for the pair of OUSD and USDT, without an override. *)
Definition main : list UniswapSwaps.SwapEvent
                  -> list UniswapSwaps.swap_row * option exn :=
  UniswapSwapsMain.main OUSD_ADDRESS TransformLoad.USDT_ADDRESS "0xPAIR"
    OUSD_ADDRESS TransformLoad.USDT_ADDRESS SwapExamples.tokens0
    SwapExamples.tokens1 SwapExamples.receipts SwapExamples.swaps_of
    (fun _ => 10 ^ 18) None.

Definition events : list UniswapSwaps.SwapEvent :=
  [SwapExamples.hop2; SwapExamples.failed; SwapExamples.sale].

End SwapLoadExamples.

(** * Properties *)

(** ** The decimal operations that are exact *)

Section DecimalFacts.

Lemma ndigits_aux_bound (fuel : nat) : forall n k,
  1 <= k -> n < 10 ^ k -> ndigits_aux fuel n <= k.
Proof.
  induction fuel as [|fuel IH]; intros n k Hk Hn; cbn [ndigits_aux]; [lia|].
  destruct (n <? 10) eqn:E; [lia|].
  apply Z.ltb_ge in E.
  assert (Hk2 : 2 <= k).
  { destruct (Z.eq_dec k 1) as [->|]; [simpl in Hn; lia | lia]. }
  assert (Hp : 10 ^ k = 10 * 10 ^ (k - 1)).
  { rewrite <- Z.pow_succ_r by lia. f_equal; lia. }
  assert (Hd : n / 10 < 10 ^ (k - 1)).
  { apply Z.div_lt_upper_bound; lia. }
  specialize (IH (n / 10) (k - 1)). lia.
Qed.

Lemma dec_fix_small (d : decimal) :
  Z.abs (coef d) < 10 ^ prec -> dec_fix d = d.
Proof.
  intros H. unfold dec_fix.
  assert (Hn : ndigits (Z.abs (coef d)) <= prec).
  { apply ndigits_aux_bound; [unfold prec; lia | assumption]. }
  destruct (ndigits (Z.abs (coef d)) - prec <=? 0) eqn:E; [reflexivity|].
  apply Z.leb_gt in E. lia.
Qed.

Lemma dec_add_int (x y : Z) :
  Z.abs (x + y) < 10 ^ prec ->
  dec_add (dec_of_Z x) (dec_of_Z y) = dec_of_Z (x + y).
Proof.
  intros H. unfold dec_add, dec_of_Z; simpl.
  rewrite !Z.mul_1_r. apply dec_fix_small; assumption.
Qed.

Lemma dec_sub_int (x y : Z) :
  Z.abs (x - y) < 10 ^ prec ->
  dec_sub (dec_of_Z x) (dec_of_Z y) = dec_of_Z (x - y).
Proof.
  intros H. unfold dec_sub, dec_neg, dec_of_Z; simpl.
  change (mkDec (- y) 0) with (dec_of_Z (- y)).
  change (mkDec x 0) with (dec_of_Z x).
  rewrite dec_add_int by (replace (x + - y) with (x - y) by lia; assumption).
  unfold dec_of_Z; f_equal; lia.
Qed.

Lemma dec_mul_exact (a b : decimal) :
  Z.abs (coef a * coef b) < 10 ^ prec ->
  dec_mul a b = mkDec (coef a * coef b) (expo a + expo b).
Proof. intros H. unfold dec_mul. apply dec_fix_small; assumption. Qed.

(** An integer plus a decimal with [k] fractional digits. *)
Lemma dec_add_int_frac (t m k : Z) :
  0 <= k ->
  Z.abs (t * 10 ^ k + m) < 10 ^ prec ->
  dec_add (dec_of_Z t) (mkDec m (- k)) = mkDec (t * 10 ^ k + m) (- k).
Proof.
  intros Hk H. unfold dec_add, dec_of_Z; simpl coef; simpl expo.
  rewrite Z.min_r by lia.
  replace (0 - - k) with k by lia.
  replace (- k - - k) with 0 by lia.
  rewrite Z.pow_0_r, Z.mul_1_r.
  apply dec_fix_small; assumption.
Qed.

Lemma dec_floor_frac (c k : Z) :
  0 <= k -> dec_floor (mkDec c (- k)) = c / 10 ^ k.
Proof.
  intros Hk. unfold dec_floor; simpl.
  destruct (0 <=? - k) eqn:E.
  - apply Z.leb_le in E. assert (k = 0) by lia; subst.
    simpl. rewrite Z.div_1_r. lia.
  - now rewrite Z.opp_involutive.
Qed.

Lemma dec_floor_int (c : Z) : dec_floor (dec_of_Z c) = c.
Proof. unfold dec_floor, dec_of_Z; simpl. lia. Qed.

Lemma dec_compare_int (x y : Z) :
  dec_compare (dec_of_Z x) (dec_of_Z y) = (x ?= y).
Proof. unfold dec_compare, dec_of_Z; simpl. now rewrite !Z.mul_1_r. Qed.

Lemma dec_leb_int (x y : Z) : dec_leb (dec_of_Z x) (dec_of_Z y) = (x <=? y).
Proof. unfold dec_leb, Z.leb. now rewrite dec_compare_int. Qed.

Lemma dec_eqb_int (x y : Z) : dec_eqb (dec_of_Z x) (dec_of_Z y) = (x =? y).
Proof.
  unfold dec_eqb. rewrite dec_compare_int.
  destruct (x ?= y) eqn:E; symmetry.
  - apply Z.eqb_eq. now apply Z.compare_eq.
  - apply Z.eqb_neq. intros ->. rewrite Z.compare_refl in E. discriminate.
  - apply Z.eqb_neq. intros ->. rewrite Z.compare_refl in E. discriminate.
Qed.

Lemma div_res_nonzero (x y : decimal) :
  coef y <> 0 -> exists q, div_res x y = Return q.
Proof.
  intros H. unfold div_res, dec_div.
  apply Z.eqb_neq in H. rewrite H.
  destruct (coef x =? 0); eexists; reflexivity.
Qed.

End DecimalFacts.


Import Transform.

(** ** Sums, divisions that return *)


Lemma fold_left_add_shift (xs : list Z) : forall a,
  fold_left Z.add xs a = a + fold_left Z.add xs 0.
Proof.
  induction xs as [|x xs IH]; intros a; simpl; [lia|].
  rewrite IH, (IH x). lia.
Qed.

Lemma sum_Z_cons (x : Z) (xs : list Z) : sum_Z (x :: xs) = x + sum_Z xs.
Proof. unfold sum_Z; simpl. now rewrite fold_left_add_shift. Qed.

Lemma sum_Z_nonneg (xs : list Z) :
  (forall x, In x xs -> 0 <= x) -> 0 <= sum_Z xs.
Proof.
  induction xs as [|x xs IH]; intros H; [unfold sum_Z; simpl; lia|].
  rewrite sum_Z_cons. pose proof (H x (or_introl eq_refl)).
  assert (0 <= sum_Z xs) by (apply IH; intros; apply H; now right). lia.
Qed.

Lemma sum_Z_zero (xs : list Z) :
  (forall x, In x xs -> 0 <= x) -> sum_Z xs = 0 -> forall x, In x xs -> x = 0.
Proof.
  induction xs as [|y xs IH]; intros H Hs x Hx; [contradiction|].
  rewrite sum_Z_cons in Hs.
  pose proof (H y (or_introl eq_refl)).
  assert (0 <= sum_Z xs) by (apply sum_Z_nonneg; intros; apply H; now right).
  destruct Hx as [->|Hx]; [lia|].
  apply IH; [intros; apply H; now right | lia | assumption].
Qed.

Lemma ousd_value_adjustment_returns (x : num) (from_cpt to_cpt : Z) :
  to_cpt <> 0 -> exists v, ousd_value_adjustment x from_cpt to_cpt = Return v.
Proof.
  intros H. unfold ousd_value_adjustment.
  destruct (div_res_nonzero (dec_mul (to_decimal x) (dec_of_Z from_cpt)) dec_1e18)
    as [q ->]; [discriminate|]. cbn [bind].
  destruct (div_res_nonzero (dec_mul (dec_of_Z (dec_floor q)) dec_1e18)
                            (dec_of_Z to_cpt)) as [r ->]; [exact H|].
  cbn [bind]. eexists; reflexivity.
Qed.

Lemma adjust_balances_returns (a b : string) (cpt : option Z) (cur : Z)
    (x y : num) :
  cpt <> Some 0 -> exists p, adjust_balances a b cpt cur x y = Return p.
Proof.
  intros H. unfold adjust_balances. destruct cpt as [c|]; [|eexists; reflexivity].
  assert (Hc : c <> 0) by (intros ->; now apply H).
  destruct (String.eqb a OUSD_ADDRESS && num_truthy x).
  - destruct (ousd_value_adjustment_returns x cur c Hc) as [v ->].
    eexists; reflexivity.
  - destruct (String.eqb b OUSD_ADDRESS && num_truthy y).
    + destruct (ousd_value_adjustment_returns y cur c Hc) as [v ->].
      eexists; reflexivity.
    + eexists; reflexivity.
Qed.

Lemma reserve_shares_returns (ra rb lp denom : Z) :
  lp = 0 \/ denom <> 0 -> exists ab, reserve_shares ra rb lp denom = Return ab.
Proof.
  intros H. unfold reserve_shares.
  destruct (lp =? 0) eqn:E; [eexists; reflexivity|].
  apply Z.eqb_neq in E. destruct H as [H|H]; [contradiction|].
  destruct (div_res_nonzero (dec_of_Z lp) (dec_of_Z denom)) as [q ->];
    [exact H|]. eexists; reflexivity.
Qed.

Lemma div_res_inv (x y q : decimal) : div_res x y = Return q -> coef y <> 0.
Proof.
  unfold div_res, dec_div. destruct (coef y =? 0) eqn:E; [discriminate|].
  intros _. now apply Z.eqb_neq.
Qed.

Lemma reserve_shares_inv (ra rb lp denom : Z) (ab : num * num) :
  reserve_shares ra rb lp denom = Return ab -> lp = 0 \/ denom <> 0.
Proof.
  unfold reserve_shares. destruct (lp =? 0) eqn:E.
  - apply Z.eqb_eq in E. now left.
  - destruct (div_res _ _) as [q|e] eqn:Hq; cbn [bind]; [|discriminate].
    apply div_res_inv in Hq. now right.
Qed.


(** ** Exact division by Decimal(1e18) *)


(** Division of a short coefficient by Decimal(1e18) is exact. *)
Lemma ndigits_aux_pos (fuel : nat) : forall n, 1 <= ndigits_aux fuel n.
Proof.
  induction fuel as [|fuel IH]; intros n; cbn [ndigits_aux]; [lia|].
  destruct (n <? 10); [lia|]. specialize (IH (n / 10)). lia.
Qed.

Lemma strip_exact_value (fuel : nat) : forall c e ideal,
  exists j, 0 <= j
            /\ c = fst (strip_exact fuel c e ideal) * 10 ^ j
            /\ snd (strip_exact fuel c e ideal) = e + j.
Proof.
  induction fuel as [|fuel IH]; intros c e ideal; cbn [strip_exact].
  - exists 0. cbn [fst snd]. rewrite Z.pow_0_r. lia.
  - destruct ((e <? ideal) && (c mod 10 =? 0)) eqn:E.
    + apply andb_true_iff in E. destruct E as [_ E]. apply Z.eqb_eq in E.
      destruct (IH (c / 10) (e + 1) ideal) as (j & Hj & Hc & He).
      exists (j + 1). rewrite He. split; [lia|]. split; [|lia].
      rewrite Z.pow_add_r, Z.pow_1_r by lia.
      rewrite Z.mul_assoc, <- Hc.
      pose proof (Z.div_mod c 10 ltac:(lia)). lia.
    + exists 0. cbn [fst snd]. rewrite Z.pow_0_r. lia.
Qed.

Lemma strip_exact_short (fuel : nat) : forall c0 j e ideal,
  0 <= c0 -> 0 <= j -> (Z.to_nat j <= fuel)%nat -> e + j <= ideal ->
  fst (strip_exact fuel (c0 * 10 ^ j) e ideal) <= c0.
Proof.
  induction fuel as [|fuel IH]; intros c0 j e ideal Hc Hj Hf He.
  - assert (j = 0) by lia. subst. cbn. lia.
  - cbn [strip_exact].
    destruct (Z.eq_dec j 0) as [->|Hj0].
    + rewrite Z.pow_0_r, Z.mul_1_r.
      destruct (strip_exact_value (S fuel) c0 e ideal) as (i & Hi & Hv & _).
      cbn [strip_exact] in Hv.
      pose proof (Z.pow_pos_nonneg 10 i ltac:(lia) Hi).
      destruct ((e <? ideal) && (c0 mod 10 =? 0)).
      * set (r := fst (strip_exact fuel (c0 / 10) (e + 1) ideal)) in *. nia.
      * cbn [fst]. lia.
    + assert (Hp : c0 * 10 ^ j = (c0 * 10 ^ (j - 1)) * 10).
      { replace j with ((j - 1) + 1) at 1 by lia.
        rewrite Z.pow_add_r, Z.pow_1_r by lia. lia. }
      rewrite Hp. rewrite Z.mod_mul by lia. rewrite Z.div_mul by lia.
      assert (E : (e <? ideal) = true) by (apply Z.ltb_lt; lia).
      rewrite E. cbn [andb Z.eqb]. apply IH; lia.
Qed.

Lemma ten_not_zero : ~ (inject_Z 10 == 0)%Q.
Proof. discriminate. Qed.

Lemma dec_to_Q_scale (c i e : Z) :
  0 <= i ->
  (dec_to_Q (mkDec (c * 10 ^ i) e) == dec_to_Q (mkDec c (e + i)))%Q.
Proof.
  intros Hi. unfold dec_to_Q; cbn [coef expo].
  rewrite inject_Z_mult, Zpower_Qpower by assumption.
  rewrite (Qpower_plus _ e i ten_not_zero). ring.
Qed.

Lemma dec_to_Q_div_1e18 (n e : Z) :
  (dec_to_Q (mkDec n (e - 18)) == dec_to_Q (mkDec n e) / inject_Z (10 ^ 18))%Q.
Proof.
  unfold dec_to_Q; cbn [coef expo]. unfold Z.sub.
  rewrite (Qpower_plus _ e (-18) ten_not_zero).
  unfold Qdiv. rewrite <- Qmult_assoc. reflexivity.
Qed.

Lemma dec_div_1e18_exact (n e : Z) :
  0 <= n < 10 ^ prec ->
  exists d, dec_div (mkDec n e) dec_1e18 = Some d
            /\ (dec_to_Q d == dec_to_Q (mkDec n e) / inject_Z (10 ^ 18))%Q.
Proof.
  intros Hn. unfold dec_div. cbn [coef expo dec_1e18].
  change (10 ^ 18 =? 0) with false. cbv iota.
  destruct (n =? 0) eqn:E0.
  - apply Z.eqb_eq in E0. subst n. eexists. split; [reflexivity|].
    rewrite dec_fix_small by (cbn [coef Z.abs]; unfold prec; lia).
    unfold dec_to_Q; cbn [coef expo]. unfold Qdiv.
    rewrite !Qmult_0_l. reflexivity.
  - apply Z.eqb_neq in E0.
    rewrite (Z.abs_eq n) by lia.
    change (ndigits (Z.abs (10 ^ 18))) with 19.
    change (Z.abs (10 ^ 18)) with (10 ^ 18).
    change (Z.sgn (10 ^ 18)) with 1.
    assert (HL1 : 1 <= ndigits n) by apply ndigits_aux_pos.
    assert (HL2 : ndigits n <= prec)
      by (apply ndigits_aux_bound; [unfold prec|]; lia).
    set (shift := 19 - ndigits n + prec + 1).
    assert (Hs : 20 <= shift <= 48) by (unfold shift, prec in *; lia).
    replace (0 <=? shift) with true by (symmetry; apply Z.leb_le; lia).
    assert (Hpow : 10 ^ shift = 10 ^ (shift - 18) * 10 ^ 18).
    { rewrite <- Z.pow_add_r by lia. f_equal. lia. }
    rewrite Hpow, Z.mul_assoc.
    rewrite Z.mod_mul, Z.div_mul by lia. cbn [Z.eqb].
    replace (e - 0 - (e - 0 - shift)) with shift by lia.
    set (c := n * 10 ^ (shift - 18)).
    set (e0 := e - 0 - shift).
    destruct (strip_exact_value (Z.to_nat shift) c e0 (e - 0))
      as (i & Hi & Hv & He).
    pose proof (strip_exact_short (Z.to_nat shift) n (shift - 18) e0 (e - 0)
                  ltac:(lia) ltac:(lia) ltac:(lia) ltac:(unfold e0; lia))
      as Hshort.
    fold c in Hshort.
    set (r := strip_exact (Z.to_nat shift) c e0 (e - 0)) in *.
    assert (Hc : 0 < c).
    { unfold c. pose proof (Z.pow_pos_nonneg 10 (shift - 18)). nia. }
    assert (Hr : 0 < fst r).
    { pose proof (Z.pow_pos_nonneg 10 i ltac:(lia) Hi). nia. }
    eexists. split; [reflexivity|].
    replace (Z.sgn n) with 1 by (symmetry; apply Z.sgn_pos; lia).
    rewrite dec_fix_small by (cbn [coef]; lia).
    rewrite He. replace (1 * 1 * fst r) with (fst r) by lia.
    rewrite <- dec_to_Q_scale by assumption. rewrite <- Hv.
    unfold c. rewrite dec_to_Q_scale by lia.
    replace (e0 + (shift - 18)) with (e - 18) by (unfold e0; lia).
    apply dec_to_Q_div_1e18.
Qed.


(** ** The split rule without rounding *)


Section SplitRule.

Variable self : Account.
Variables t cr k : Z.
Let E := eligible_balance_usd self.
Hypothesis Hthr : split_threshold (params self) = dec_of_Z t.
Hypothesis Hsplit : ousd_ogn_split (params self) = mkDec cr (- k).
Hypothesis Ht : 0 <= t.
Hypothesis Hk : 0 <= k.
Hypothesis Hcr : 0 <= cr <= 10 ^ k.
Hypothesis Habove : t < E.
Hypothesis Hsize : E * 10 ^ k < 10 ^ prec.

Let P := 10 ^ k.
Let f := (E - t) * cr / P.

Local Lemma P_pos : 1 <= P.
Proof. unfold P. pose proof (Z.pow_pos_nonneg 10 k). lia. Qed.

Local Lemma product_bounds : 0 <= (E - t) * cr <= (E - t) * P.
Proof. fold P in Hcr. split; nia. Qed.

Local Lemma f_bounds : 0 <= f <= E - t.
Proof.
  pose proof P_pos. pose proof product_bounds. unfold f. split.
  - apply Z.div_pos; lia.
  - apply Z.div_le_upper_bound; lia.
Qed.

Local Lemma E_small : E < 10 ^ prec.
Proof. pose proof P_pos. fold P in Hsize. nia. Qed.

Lemma above_split_exact :
  dec_sub (dec_of_Z E) (split_threshold (params self)) = dec_of_Z (E - t).
Proof.
  rewrite Hthr. apply dec_sub_int. pose proof E_small. lia.
Qed.

Lemma split_product_exact :
  dec_mul (dec_of_Z (E - t)) (ousd_ogn_split (params self))
  = mkDec ((E - t) * cr) (- k).
Proof.
  rewrite Hsplit. rewrite dec_mul_exact; simpl coef; simpl expo.
  - reflexivity.
  - pose proof product_bounds. pose proof P_pos. fold P in Hsize. nia.
Qed.

Lemma ousd_compensation_exact :
  adjusted_ousd_compensation self = t + f.
Proof.
  unfold adjusted_ousd_compensation. fold E.
  rewrite Hthr at 1. rewrite dec_leb_int.
  destruct (E <=? t) eqn:Hle; [apply Z.leb_le in Hle; lia|].
  rewrite above_split_exact, split_product_exact, Hthr.
  pose proof product_bounds. pose proof P_pos. fold P in Hsize.
  rewrite dec_add_int_frac; [| assumption | fold P; nia].
  rewrite dec_floor_frac by assumption. fold P.
  rewrite Z.div_add_l by lia. reflexivity.
Qed.

Lemma ogn_usd_value_exact :
  ogn_usd_value self = dec_of_Z (E - t - f).
Proof.
  unfold ogn_usd_value. fold E.
  rewrite above_split_exact, split_product_exact.
  rewrite dec_floor_frac by assumption. fold P. fold f.
  apply dec_sub_int. pose proof f_bounds. pose proof E_small. lia.
Qed.

Lemma sanity_check_holds : sanity_check self = true.
Proof.
  unfold sanity_check. fold E.
  rewrite ogn_usd_value_exact, ousd_compensation_exact.
  pose proof E_small.
  rewrite dec_add_int by (replace (E - t - f + (t + f)) with E by lia; lia).
  rewrite dec_eqb_int. apply Z.eqb_eq. lia.
Qed.

End SplitRule.


(** ** Swap flows and the eligibility gate *)


Lemma swap_in_inflow (swaps : list swap) : swap_in swaps = inflow swaps.
Proof.
  unfold swap_in, inflow.
  induction swaps as [|x xs IH]; [reflexivity|].
  cbn [map filter]. rewrite sum_Z_cons, IH.
  destruct (Direction_eqb (snd x) RIGHT); cbn [map];
    [now rewrite sum_Z_cons | lia].
Qed.

Lemma swap_out_outflow (swaps : list swap) : swap_out swaps = outflow swaps.
Proof.
  unfold swap_out, outflow.
  induction swaps as [|x xs IH]; [reflexivity|].
  cbn [map filter]. rewrite sum_Z_cons, IH.
  destruct (Direction_eqb (snd x) LEFT); cbn [map];
    [now rewrite sum_Z_cons | lia].
Qed.

Lemma net_flow_gate (pre x : Z) :
  (if pre <=? 0 then 0 else x) = (if 0 <? pre then x else 0).
Proof.
  destruct (pre <=? 0) eqn:E1, (0 <? pre) eqn:E2; try reflexivity;
    [apply Z.leb_le in E1; apply Z.ltb_lt in E2; lia
    |apply Z.leb_gt in E1; apply Z.ltb_ge in E2; lia].
Qed.

Lemma dec_not_below_nonneg (diff : Z) (thr : decimal) :
  0 <= coef thr -> dec_ltb (dec_of_Z diff) thr = false -> 0 <= diff.
Proof.
  intros Hc. unfold dec_ltb, dec_compare, dec_of_Z. cbn [coef expo].
  set (e := Z.min 0 (expo thr)).
  assert (He : 0 <= 0 - e) by (unfold e; lia).
  pose proof (Z.pow_pos_nonneg 10 (0 - e) ltac:(lia) He) as Hp.
  assert (Hq : 0 <= 10 ^ (expo thr - e)) by (apply Z.pow_nonneg; lia).
  destruct (diff * 10 ^ (0 - e) ?= coef thr * 10 ^ (expo thr - e)) eqn:E;
    intros H; try discriminate.
  - apply Z.compare_eq in E. nia.
  - apply Z.compare_gt_iff in E. nia.
Qed.


(** ** Participant discovery *)


Section Discovery.

Variable ok : string -> bool.

Lemma mem_In (x : string) (xs : list string) : mem x xs = true <-> In x xs.
Proof.
  unfold mem. rewrite existsb_exists. split.
  - intros (y & Hy & E). apply String.eqb_eq in E. now subst.
  - intros H. exists x. split; [assumption | apply String.eqb_refl].
Qed.

Lemma mem_app (x : string) (xs ys : list string) :
  mem x (xs ++ ys) = mem x xs || mem x ys.
Proof. unfold mem. apply existsb_app. Qed.

Lemma filter_filter (f g : string -> bool) (l : list string) :
  filter f (filter g l) = filter (fun y => g y && f y) l.
Proof.
  induction l as [|y l IH]; [reflexivity|]. cbn [filter].
  destruct (g y); cbn [filter andb]; [destruct (f y)|]; now rewrite IH.
Qed.

Lemma collect_cons (x : string) (xs acc : list string) :
  collect ok (x :: xs) acc = collect ok xs (guarded_append ok x acc).
Proof. reflexivity. Qed.

Lemma collect_first_occurrences (xs : list string) : forall acc,
  collect ok xs acc
  = acc ++ filter (fun y => negb (mem y acc))
                  (first_occurrences (filter ok xs)).
Proof.
  induction xs as [|x xs IH]; intros acc.
  - cbn. now rewrite app_nil_r.
  - rewrite collect_cons. cbn [filter].
    unfold guarded_append. destruct (ok x) eqn:Hok; cbn [andb].
    + cbn [first_occurrences filter].
      destruct (mem x acc) eqn:Hm; cbn [negb].
      * rewrite IH. f_equal. rewrite filter_filter.
        apply filter_ext_in. intros y _.
        destruct (String.eqb y x) eqn:E; [|reflexivity].
        apply String.eqb_eq in E. subst. now rewrite Hm.
      * rewrite IH, <- app_assoc. cbn [app]. do 2 f_equal.
        rewrite filter_filter. apply filter_ext. intros y.
        rewrite mem_app. unfold mem at 2. cbn [existsb].
        rewrite orb_false_r, negb_orb. apply andb_comm.
    + apply IH.
Qed.

Lemma collect_spec (xs : list string) :
  collect ok xs [] = first_occurrences (filter ok xs).
Proof.
  rewrite collect_first_occurrences. cbn [app].
  rewrite <- (filter_ext (fun _ => true)) by reflexivity.
  induction (first_occurrences (filter ok xs)) as [|y l IH]; [reflexivity|].
  cbn [filter]. now rewrite IH.
Qed.

Lemma first_occurrences_In (xs : list string) (y : string) :
  In y (first_occurrences xs) <-> In y xs.
Proof.
  induction xs as [|x xs IH]; [reflexivity|]. cbn [first_occurrences In].
  rewrite filter_In, IH. split.
  - intros [H|[H _]]; auto.
  - intros [H|H]; [now left|].
    destruct (String.eqb y x) eqn:E.
    + apply String.eqb_eq in E. left. now subst.
    + right. now split.
Qed.

Lemma first_occurrences_NoDup (xs : list string) : NoDup (first_occurrences xs).
Proof.
  induction xs as [|x xs IH]; [constructor|]. cbn [first_occurrences].
  constructor.
  - rewrite filter_In. intros [_ H]. now rewrite String.eqb_refl in H.
  - now apply NoDup_filter.
Qed.

(** Later candidates never reorder or remove the participants found so
    far. *)
Lemma first_occurrences_app (xs ys : list string) :
  exists ext, first_occurrences (xs ++ ys) = first_occurrences xs ++ ext.
Proof.
  induction xs as [|x xs (ext & IH)]; [now exists (first_occurrences ys)|].
  cbn [app first_occurrences]. rewrite IH, filter_app.
  eexists. reflexivity.
Qed.

End Discovery.

Lemma mints_loop_spec (getTransaction : string -> Transaction)
    (sigs : list string) (mints : list MintEvent) : forall acc,
  mints_loop getTransaction sigs mints acc
  = if forallb (fun m => known_origin sigs
                           (getTransaction (mint_transactionHash m))) mints
    then Return (collect nonzero
                   (map (fun m => tx_get_from
                                    (getTransaction (mint_transactionHash m))
                                    (mint_sender m)) mints) acc)
    else Raise SysExit.
Proof.
  induction mints as [|m mints IH]; intros acc; [reflexivity|].
  cbn [mints_loop forallb map].
  destruct (known_origin sigs (getTransaction (mint_transactionHash m)));
    cbn [negb andb]; [|reflexivity].
  rewrite IH. reflexivity.
Qed.

Lemma transfers_loop_spec (transfers : list TransferEvent) (acc : list string) :
  transfers_loop transfers acc = collect nonzero (map transfer_to transfers) acc.
Proof.
  unfold transfers_loop, collect, add_address.
  revert acc. induction transfers as [|t ts IH]; intros acc; [reflexivity|].
  cbn [fold_left map]. apply IH.
Qed.

Lemma collect_app (ok : string -> bool) (xs ys acc : list string) :
  collect ok (xs ++ ys) acc = collect ok ys (collect ok xs acc).
Proof. unfold collect. apply fold_left_app. Qed.

Lemma senders_recorded (getTransaction : string -> Transaction)
    (mints : list MintEvent) (senders : list string) :
  map (fun m => tx_from (getTransaction (mint_transactionHash m))) mints
  = map Some senders ->
  map (fun m => tx_get_from (getTransaction (mint_transactionHash m))
                            (mint_sender m)) mints = senders.
Proof.
  revert senders. induction mints as [|m mints IH]; intros [|s senders] H;
    try discriminate; [reflexivity|].
  cbn [map] in *. injection H as Hs H. unfold tx_get_from at 1.
  rewrite Hs. f_equal. now apply IH.
Qed.

Lemma forallb_false_exists {A : Type} (f : A -> bool) (l : list A) :
  (exists x, In x l /\ f x = false) -> forallb f l = false.
Proof.
  intros (x & Hx & Hf). destruct (forallb f l) eqn:E; [|reflexivity].
  rewrite forallb_forall in E. rewrite (E x Hx) in Hf. discriminate.
Qed.

Lemma discover_spec (getTransaction : string -> Transaction)
    (sigs : list string) (mints : list MintEvent)
    (transfers : list TransferEvent) :
  (do aoi <- mints_loop getTransaction sigs mints [];
   Return (transfers_loop transfers aoi))
  = if forallb (fun m => known_origin sigs
                           (getTransaction (mint_transactionHash m))) mints
    then Return (first_occurrences
                   (filter nonzero
                      (map (fun m => tx_get_from
                                      (getTransaction (mint_transactionHash m))
                                      (mint_sender m)) mints
                       ++ map transfer_to transfers)))
    else Raise SysExit.
Proof.
  rewrite mints_loop_spec.
  destruct (forallb _ mints); cbn [bind]; [|reflexivity].
  rewrite transfers_loop_spec, <- collect_app, collect_spec. reflexivity.
Qed.


(** ** The balance loop of uniswap_lps.py *)


Section UniswapFacts.
Import UniswapLps.

Variable balanceOf : string -> N.
Variables total_supply a_supply b_supply : N.
Variables a b : string.
Variable credits_per_token : option Z.
Variable current_cpt : Z.

Let step := holder_step balanceOf total_supply a_supply b_supply a b
                        credits_per_token current_cpt.
Let loop := holders_loop balanceOf total_supply a_supply b_supply a b
                         credits_per_token current_cpt.
Let shares := shares balanceOf total_supply a_supply b_supply.
Let bal := fun x => Z.of_N (balanceOf x).

Lemma uni_step_inv (addr : string) (st st' : totals) (row : lp_row) :
  step addr st = Return (st', row) ->
  exists ab,
    reserve_shares (Z.of_N a_supply) (Z.of_N b_supply) (bal addr)
      (Z.of_N total_supply - MINIMUM_LIQUIDITY) = Return ab
    /\ st' = mkTotals (running_total st + bal addr)
                      (num_add (running_total_a st) (fst ab))
                      (num_add (running_total_b st) (snd ab))
    /\ row_lp_address row = addr
    /\ row_lp_balance row = bal addr
    /\ (credits_per_token = None ->
        row_token0_value row = num_floor (fst ab)
        /\ row_token1_value row = num_floor (snd ab)).
Proof.
  unfold step, holder_step, bal.
  destruct (reserve_shares _ _ _ _) as [ab|e]; cbn [bind]; [|discriminate].
  destruct (adjust_balances _ _ _ _ _ _) as [ab'|e] eqn:Hadj; cbn [bind];
    [|discriminate].
  intros H; injection H as <- <-. exists ab.
  do 4 (split; [reflexivity|]).
  intros ->. cbn in Hadj. injection Hadj as <-. split; reflexivity.
Qed.

Lemma uni_step_returns (addr : string) (st : totals) :
  credits_per_token <> Some 0 ->
  bal addr = 0 \/ Z.of_N total_supply - MINIMUM_LIQUIDITY <> 0 ->
  exists st' row, step addr st = Return (st', row).
Proof.
  intros Hc H. unfold step, holder_step. fold (bal addr).
  destruct (reserve_shares_returns (Z.of_N a_supply) (Z.of_N b_supply)
              (bal addr) (Z.of_N total_supply - MINIMUM_LIQUIDITY) H)
    as [ab ->]. cbn [bind].
  destruct (adjust_balances_returns a b credits_per_token current_cpt
              (fst ab) (snd ab) Hc) as [ab' ->]. cbn [bind].
  eexists _, _; reflexivity.
Qed.

Lemma uni_shares_step (addr : string) (ab : num * num) :
  reserve_shares (Z.of_N a_supply) (Z.of_N b_supply) (bal addr)
    (Z.of_N total_supply - MINIMUM_LIQUIDITY) = Return ab ->
  shares addr = ab.
Proof. unfold shares, UniswapLps.shares, bal. now intros ->. Qed.

Lemma uni_loop_totals (hs : list string) : forall st st' out,
  loop hs st = (st', out, None) ->
  running_total st'
  = fold_left Z.add (map bal hs) (running_total st)
  /\ running_total_a st'
     = fold_left num_add (map (fun x => fst (shares x)) hs) (running_total_a st)
  /\ running_total_b st'
     = fold_left num_add (map (fun x => snd (shares x)) hs) (running_total_b st)
  /\ map row_lp_address out = hs.
Proof.
  induction hs as [|h hs IH]; intros st st' out H.
  - cbn in H. injection H as <- <-. cbn. auto.
  - unfold loop in H. cbn [holders_loop] in H. fold step in H. fold loop in H.
    destruct (step h st) as [[st1 row]|e] eqn:Hs; [|discriminate].
    destruct (loop hs st1) as [[st2 out2] e2] eqn:Hl.
    injection H as <- <- ->.
    apply uni_step_inv in Hs. destruct Hs as (ab & Hab & -> & Hrow & _).
    apply uni_shares_step in Hab.
    destruct (IH _ _ _ Hl) as (H1 & H2 & H3 & H4).
    cbn [map fold_left running_total running_total_a running_total_b] in *.
    rewrite Hab. rewrite Hrow, H4. auto.
Qed.

Lemma uni_loop_returns (hs : list string) : forall st,
  credits_per_token <> Some 0 ->
  (forall x, In x hs ->
     bal x = 0 \/ Z.of_N total_supply - MINIMUM_LIQUIDITY <> 0) ->
  exists st' out, loop hs st = (st', out, None).
Proof.
  induction hs as [|h hs IH]; intros st Hc H.
  - eexists _, _; reflexivity.
  - unfold loop. cbn [holders_loop]. fold step. fold loop.
    destruct (uni_step_returns h st Hc (H h (or_introl eq_refl)))
      as (st1 & row & ->).
    destruct (IH st1 Hc (fun x Hx => H x (or_intror Hx))) as (st2 & out & ->).
    eexists _, _; reflexivity.
Qed.

Lemma uni_verify_iff (st : totals) :
  verify total_supply a_supply b_supply st = None <->
  running_total st = Z.of_N total_supply - MINIMUM_LIQUIDITY
  /\ drift_ok a_supply (running_total_a st)
  /\ drift_ok b_supply (running_total_b st).
Proof.
  unfold verify, drift_ok.
  destruct (running_total st =? Z.of_N total_supply - MINIMUM_LIQUIDITY) eqn:E1;
    cbn [negb].
  - apply Z.eqb_eq in E1.
    destruct (num_gtb (num_sub (PyInt (Z.of_N a_supply)) (running_total_a st)) _);
      [split; [discriminate | intros (_ & ? & _); discriminate]|].
    destruct (num_gtb (num_sub (PyInt (Z.of_N b_supply)) (running_total_b st)) _);
      [split; [discriminate | intros (_ & _ & ?); discriminate]|].
    tauto.
  - apply Z.eqb_neq in E1. split; [discriminate | tauto].
Qed.

Lemma uni_attribute_iff (hs : list string) :
  credits_per_token <> Some 0 ->
  snd (attribute balanceOf total_supply a_supply b_supply a b
                 credits_per_token current_cpt hs) = None
  <-> reconciles balanceOf total_supply a_supply b_supply hs.
Proof.
  intros Hc. unfold attribute, reconciles. fold loop.
  unfold sum_balances, sum_a, sum_b, num_sum, sum_Z. fold bal. fold shares.
  split.
  - destruct (loop hs _) as [[st out] [e|]] eqn:Hl; cbn [snd]; [discriminate|].
    intros Hv. apply uni_verify_iff in Hv.
    apply uni_loop_totals in Hl. cbn in Hl.
    destruct Hl as (H1 & H2 & H3 & _). rewrite <- H1, <- H2, <- H3. exact Hv.
  - intros (H1 & H2 & H3).
    destruct (uni_loop_returns hs (mkTotals 0 (PyInt 0) (PyInt 0)) Hc)
      as (st & out & Hl).
    { intros x Hx.
      destruct (Z.eq_dec (Z.of_N total_supply - MINIMUM_LIQUIDITY) 0) as [Hz|];
        [left | now right].
      rewrite Hz in H1.
      apply (sum_Z_zero (map bal hs)); [| exact H1 | now apply in_map].
      intros y Hy. apply in_map_iff in Hy. destruct Hy as (z & <- & _).
      unfold bal. lia. }
    rewrite Hl. cbn [snd].
    apply uni_loop_totals in Hl. cbn in Hl. destruct Hl as (E1 & E2 & E3 & _).
    apply uni_verify_iff. rewrite E1, E2, E3. auto.
Qed.

End UniswapFacts.

Section UniswapRows.
Import UniswapLps.

Variable balanceOf : string -> N.
Variables total_supply a_supply b_supply : N.
Variables a b : string.
Variable current_cpt : Z.

Let loop := holders_loop balanceOf total_supply a_supply b_supply a b
                         None current_cpt.
Let bal := fun x => Z.of_N (balanceOf x).

Lemma reserve_shares_floor (lp denom : Z) (ab : num * num) :
  reserve_shares (Z.of_N a_supply) (Z.of_N b_supply) lp denom = Return ab ->
  (lp = 0 -> num_floor (fst ab) = 0 /\ num_floor (snd ab) = 0)
  /\ (lp <> 0 ->
      exists ratio,
        dec_div (dec_of_Z lp) (dec_of_Z denom) = Some ratio
        /\ num_floor (fst ab)
           = dec_floor (dec_mul (dec_of_Z (Z.of_N a_supply)) ratio)
        /\ num_floor (snd ab)
           = dec_floor (dec_mul (dec_of_Z (Z.of_N b_supply)) ratio)).
Proof.
  unfold reserve_shares, div_res.
  destruct (lp =? 0) eqn:E.
  - apply Z.eqb_eq in E. intros H; injection H as <-. split; [auto | lia].
  - apply Z.eqb_neq in E.
    destruct (dec_div (dec_of_Z lp) (dec_of_Z denom)) as [q|]; cbn [bind];
      [|discriminate].
    intros H; injection H as <-. split; [lia|]. intros _. exists q. auto.
Qed.

Lemma uni_loop_rows (hs : list string) : forall st st' out e,
  loop hs st = (st', out, e) ->
  Forall (row_attributed balanceOf total_supply a_supply b_supply) out
  /\ (forall row, In row out -> In (row_lp_address row) hs).
Proof.
  induction hs as [|h hs IH]; intros st st' out e H.
  - cbn in H. injection H as <- <- <-. split; [constructor | contradiction].
  - unfold loop in H. cbn [holders_loop] in H. fold loop in H.
    destruct (holder_step _ _ _ _ _ _ _ _ h st) as [[st1 row]|e1] eqn:Hs.
    + destruct (loop hs st1) as [[st2 out2] e2] eqn:Hl.
      injection H as <- <- <-.
      destruct (IH _ _ _ _ Hl) as (F & I).
      apply uni_step_inv in Hs.
      destruct Hs as (ab & Hab & _ & Hr1 & Hr2 & Hv).
      destruct (Hv eq_refl) as (Hv0 & Hv1).
      split.
      * constructor; [|exact F]. unfold row_attributed.
        rewrite Hr1, Hr2, Hv0, Hv1. split; [reflexivity|].
        apply reserve_shares_floor. exact Hab.
      * intros r [<-|Hr]; [left; now rewrite Hr1 | right; now apply I].
    + injection H as <- <- <-. split; [constructor | contradiction].
Qed.

End UniswapRows.


(** ** The balance loop of sushiswap_lps.py *)


Section SushiswapFacts.
Import SushiswapLps.

Variable balanceOf : string -> N.
Variable master_chef_address : string.
Variable userInfo : Z -> string -> N.
Variables total_supply a_supply b_supply : N.
Variables a b : string.
Variable credits_per_token : option Z.
Variable current_cpt : Z.
Variable pid : Z.

Let step := holder_step balanceOf master_chef_address userInfo total_supply
              a_supply b_supply a b credits_per_token current_cpt pid.
Let loop := holders_loop balanceOf master_chef_address userInfo total_supply
              a_supply b_supply a b credits_per_token current_cpt pid.
Let shares := shares balanceOf userInfo total_supply a_supply b_supply pid.
Let combined := combined balanceOf userInfo pid.
Let stakers := stakers master_chef_address.
Let bal := fun x => Z.of_N (balanceOf x).
Let denom := Z.of_N total_supply - MINIMUM_LIQUIDITY.

Lemma combined_nonneg (x : string) : 0 <= combined x.
Proof. unfold combined, SushiswapLps.combined. lia. Qed.

Lemma sushi_step_chef (st st' : totals) (row : option lp_row) :
  step master_chef_address st = Return (st', row) ->
  denom <> 0
  /\ st' = mkTotals (bal master_chef_address) (running_total st)
                    (running_total_no_chef st) (running_total_a st)
                    (running_total_b st)
  /\ row = None.
Proof.
  unfold step, holder_step. rewrite String.eqb_refl.
  destruct (div_res _ _) as [q|e] eqn:Hq; cbn [bind]; [|discriminate].
  intros H; injection H as <- <-. apply div_res_inv in Hq. auto.
Qed.

Lemma sushi_step_staker (addr : string) (st st' : totals)
    (row : option lp_row) :
  addr <> master_chef_address ->
  step addr st = Return (st', row) ->
  exists ab,
    reserve_shares (Z.of_N a_supply) (Z.of_N b_supply) (combined addr) denom
    = Return ab
    /\ st' = mkTotals (master_chef_total st)
                      (running_total st + combined addr)
                      (running_total_no_chef st + bal addr)
                      (num_add (running_total_a st) (fst ab))
                      (num_add (running_total_b st) (snd ab))
    /\ exists r, row = Some r /\ row_lp_address r = addr.
Proof.
  intros Hn. unfold step, holder_step.
  apply String.eqb_neq in Hn. rewrite Hn.
  fold (bal addr). fold denom.
  change (bal addr + Z.of_N (userInfo pid addr)) with (combined addr).
  destruct (reserve_shares _ _ _ _) as [ab|e]; cbn [bind]; [|discriminate].
  destruct (adjust_balances _ _ _ _ _ _) as [ab'|e]; cbn [bind];
    [|discriminate].
  intros H; injection H as <- <-. exists ab.
  do 2 (split; [reflexivity|]). eexists; split; reflexivity.
Qed.

Lemma sushi_step_returns (addr : string) (st : totals) :
  credits_per_token <> Some 0 ->
  (addr = master_chef_address -> denom <> 0) ->
  combined addr = 0 \/ denom <> 0 ->
  exists st' row, step addr st = Return (st', row).
Proof.
  intros Hc Hchef H. unfold step, holder_step.
  destruct (String.eqb addr master_chef_address) eqn:E.
  - apply String.eqb_eq in E.
    destruct (div_res_nonzero (dec_of_Z (Z.of_N (balanceOf addr)))
                (dec_of_Z denom)) as [q Hq]; [exact (Hchef E)|].
    fold denom. rewrite Hq. cbn [bind]. eexists _, _; reflexivity.
  - fold denom.
    change (Z.of_N (balanceOf addr) + Z.of_N (userInfo pid addr))
      with (combined addr).
    destruct (reserve_shares_returns (Z.of_N a_supply) (Z.of_N b_supply)
                (combined addr) denom H) as [ab ->]. cbn [bind].
    destruct (adjust_balances_returns a b credits_per_token current_cpt
                (fst ab) (snd ab) Hc) as [ab' ->]. cbn [bind].
    eexists _, _; reflexivity.
Qed.

Lemma sushi_shares_step (addr : string) (ab : num * num) :
  reserve_shares (Z.of_N a_supply) (Z.of_N b_supply) (combined addr) denom
  = Return ab ->
  shares addr = ab.
Proof.
  unfold shares, SushiswapLps.shares. fold (combined addr). fold denom.
  now intros ->.
Qed.

Lemma sushi_loop_totals (hs : list string) : forall st st' out,
  loop hs st = (st', out, None) ->
  master_chef_total st'
  = (if mem master_chef_address hs then bal master_chef_address
     else master_chef_total st)
  /\ running_total st'
     = fold_left Z.add (map combined (stakers hs)) (running_total st)
  /\ running_total_no_chef st'
     = fold_left Z.add (map bal (stakers hs)) (running_total_no_chef st)
  /\ running_total_a st'
     = fold_left num_add (map (fun x => fst (shares x)) (stakers hs))
                 (running_total_a st)
  /\ running_total_b st'
     = fold_left num_add (map (fun x => snd (shares x)) (stakers hs))
                 (running_total_b st)
  /\ map row_lp_address out = stakers hs
  /\ (mem master_chef_address hs = true -> denom <> 0).
Proof.
  induction hs as [|h hs IH]; intros st st' out H.
  - cbn in H. injection H as <- <-. cbn. repeat split; auto; discriminate.
  - unfold loop in H. cbn [holders_loop] in H. fold step in H. fold loop in H.
    destruct (step h st) as [[st1 row]|e] eqn:Hs; [|discriminate].
    destruct (loop hs st1) as [[st2 out2] e2] eqn:Hl.
    injection H as <- <- ->.
    destruct (IH _ _ _ Hl) as (H0 & H1 & H2 & H3 & H4 & H5 & H6).
    unfold stakers, SushiswapLps.stakers, mem in *.
    cbn [filter existsb].
    destruct (String.eqb h master_chef_address) eqn:E.
    + apply String.eqb_eq in E. subst h.
      apply sushi_step_chef in Hs. destruct Hs as (Hd & -> & ->).
      rewrite String.eqb_refl. cbn [negb orb].
      cbn [master_chef_total running_total running_total_no_chef
           running_total_a running_total_b] in *.
      repeat split; auto.
      destruct (existsb _ hs); auto.
    + rewrite String.eqb_sym, E. cbn [negb orb].
      apply String.eqb_neq in E.
      apply (sushi_step_staker h st st1 row E) in Hs.
      destruct Hs as (ab & Hab & -> & r & -> & Hr).
      apply sushi_shares_step in Hab.
      cbn [map fold_left master_chef_total running_total running_total_no_chef
           running_total_a running_total_b] in *.
      rewrite Hab, Hr, H5. repeat split; auto.
Qed.

Lemma sushi_loop_returns (hs : list string) : forall st,
  credits_per_token <> Some 0 ->
  (mem master_chef_address hs = true -> denom <> 0) ->
  (forall x, In x (stakers hs) -> combined x = 0 \/ denom <> 0) ->
  exists st' out, loop hs st = (st', out, None).
Proof.
  induction hs as [|h hs IH]; intros st Hc Hchef H.
  - eexists _, _; reflexivity.
  - unfold loop. cbn [holders_loop]. fold step. fold loop.
    unfold stakers, SushiswapLps.stakers, mem in *.
    cbn [filter existsb] in *.
    destruct (sushi_step_returns h st Hc) as (st1 & row & ->).
    { intros ->. apply Hchef. now rewrite String.eqb_refl. }
    { destruct (String.eqb h master_chef_address) eqn:E.
      - right. apply Hchef. apply String.eqb_eq in E. subst.
        now rewrite String.eqb_refl.
      - apply H. cbn [negb]. now left. }
    destruct (IH st1 Hc) as (st2 & out & ->).
    { intros Hm. apply Hchef. rewrite Hm. apply orb_true_r. }
    { intros x Hx. apply H.
      destruct (negb (String.eqb h master_chef_address)); [now right | exact Hx]. }
    eexists _, _; reflexivity.
Qed.

Lemma sushi_verify_iff (st : totals) :
  verify total_supply a_supply b_supply st = None <->
  running_total_no_chef st + master_chef_total st = running_total st
  /\ running_total st = denom
  /\ drift_ok a_supply (running_total_a st)
  /\ drift_ok b_supply (running_total_b st).
Proof.
  unfold verify, drift_ok. fold denom.
  destruct (running_total_no_chef st + master_chef_total st =? running_total st)
    eqn:E1; cbn [negb].
  - apply Z.eqb_eq in E1. rewrite E1.
    destruct (running_total st =? denom) eqn:E2; cbn [negb].
    + apply Z.eqb_eq in E2.
      destruct (num_gtb (num_sub (PyInt (Z.of_N a_supply)) (running_total_a st)) _);
        [split; [discriminate | intros (_ & _ & ? & _); discriminate]|].
      destruct (num_gtb (num_sub (PyInt (Z.of_N b_supply)) (running_total_b st)) _);
        [split; [discriminate | intros (_ & _ & _ & ?); discriminate]|].
      tauto.
    + apply Z.eqb_neq in E2. split; [discriminate | tauto].
  - apply Z.eqb_neq in E1. split; [discriminate | tauto].
Qed.

Lemma sushi_attribute_iff (hs : list string) :
  credits_per_token <> Some 0 ->
  snd (attribute balanceOf master_chef_address userInfo total_supply a_supply
                 b_supply a b credits_per_token current_cpt pid hs) = None
  <-> reconciles balanceOf master_chef_address userInfo total_supply a_supply
                 b_supply pid hs.
Proof.
  intros Hc. unfold attribute, reconciles. fold loop.
  unfold chef_ok, sum_direct, sum_combined, chef_total, sum_a, sum_b, num_sum,
    sum_Z.
  fold bal. fold shares. fold combined. fold stakers. fold denom.
  split.
  - destruct (loop hs _) as [[st out] [e|]] eqn:Hl; cbn [snd]; [discriminate|].
    intros Hv. apply sushi_verify_iff in Hv.
    apply sushi_loop_totals in Hl. cbn in Hl.
    destruct Hl as (H0 & H1 & H2 & H3 & H4 & _ & H6).
    rewrite <- H1, <- H2, <- H3, <- H4.
    change (Z.of_N (balanceOf master_chef_address))
      with (bal master_chef_address).
    rewrite <- H0. tauto.
  - intros (H0 & H1 & H2 & H3 & H4).
    destruct (sushi_loop_returns hs (mkTotals 0 0 0 (PyInt 0) (PyInt 0)) Hc H0)
      as (st & out & Hl).
    { intros x Hx.
      destruct (Z.eq_dec denom 0) as [Hz|]; [left | now right].
      rewrite Hz in H2.
      apply (sum_Z_zero (map combined (stakers hs))); [| exact H2 | now apply in_map].
      intros y Hy. apply in_map_iff in Hy. destruct Hy as (z & <- & _).
      apply combined_nonneg. }
    rewrite Hl. cbn [snd].
    apply sushi_loop_totals in Hl. cbn in Hl.
    destruct Hl as (E0 & E1 & E2 & E3 & E4 & _).
    apply sushi_verify_iff. rewrite E0, E1, E2, E3, E4.
    change (Z.of_N (balanceOf master_chef_address))
      with (bal master_chef_address) in H1.
    auto.
Qed.

End SushiswapFacts.


(** ** The balance loop of mooniswap_lps.py *)


Section MooniswapFacts.
Import MooniswapLps.

Variable balanceOf : string -> N.
Variables total_supply a_supply b_supply : N.
Variables a b : string.
Variable credits_per_token : option Z.
Variable current_cpt : Z.

Let step := holder_step balanceOf total_supply a_supply b_supply a b
                        credits_per_token current_cpt.
Let loop := holders_loop balanceOf total_supply a_supply b_supply a b
                         credits_per_token current_cpt.
Let shares := shares balanceOf total_supply a_supply b_supply.
Let bal := fun x => Z.of_N (balanceOf x).

Lemma mooni_step_inv (addr : string) (st st' : totals) (row : lp_row) :
  step addr st = Return (st', row) ->
  exists ab,
    reserve_shares (Z.of_N a_supply) (Z.of_N b_supply) (bal addr)
      (Z.of_N total_supply) = Return ab
    /\ st' = mkTotals (running_total st + bal addr)
                      (num_add (running_total_a st) (fst ab))
                      (num_add (running_total_b st) (snd ab))
    /\ row_lp_address row = addr.
Proof.
  unfold step, holder_step, bal.
  destruct (reserve_shares _ _ _ _) as [ab|e]; cbn [bind]; [|discriminate].
  destruct (adjust_balances _ _ _ _ _ _) as [ab'|e]; cbn [bind];
    [|discriminate].
  intros H; injection H as <- <-. exists ab. repeat split.
Qed.

Lemma mooni_step_returns (addr : string) (st : totals) :
  credits_per_token <> Some 0 ->
  bal addr = 0 \/ Z.of_N total_supply <> 0 ->
  exists st' row, step addr st = Return (st', row).
Proof.
  intros Hc H. unfold step, holder_step. fold (bal addr).
  destruct (reserve_shares_returns (Z.of_N a_supply) (Z.of_N b_supply)
              (bal addr) (Z.of_N total_supply) H) as [ab ->]. cbn [bind].
  destruct (adjust_balances_returns a b credits_per_token current_cpt
              (fst ab) (snd ab) Hc) as [ab' ->]. cbn [bind].
  eexists _, _; reflexivity.
Qed.

Lemma mooni_loop_totals (hs : list string) : forall st st' out,
  loop hs st = (st', out, None) ->
  running_total_a st'
  = fold_left num_add (map (fun x => fst (shares x)) hs) (running_total_a st)
  /\ running_total_b st'
     = fold_left num_add (map (fun x => snd (shares x)) hs) (running_total_b st)
  /\ map row_lp_address out = hs
  /\ (forall x, In x hs -> bal x = 0 \/ Z.of_N total_supply <> 0).
Proof.
  induction hs as [|h hs IH]; intros st st' out H.
  - cbn in H. injection H as <- <-. cbn. repeat split; auto.
  - unfold loop in H. cbn [holders_loop] in H. fold step in H. fold loop in H.
    destruct (step h st) as [[st1 row]|e] eqn:Hs; [|discriminate].
    destruct (loop hs st1) as [[st2 out2] e2] eqn:Hl.
    injection H as <- <- ->.
    apply mooni_step_inv in Hs. destruct Hs as (ab & Hab & -> & Hrow).
    destruct (IH _ _ _ Hl) as (H2 & H3 & H4 & H5).
    pose proof (reserve_shares_inv _ _ _ _ _ Hab) as Hinv.
    assert (Hsh : shares h = ab).
    { unfold shares, MooniswapLps.shares. fold (bal h). now rewrite Hab. }
    cbn [map fold_left running_total_a running_total_b] in *.
    rewrite Hsh, Hrow, H4. repeat split; auto.
    intros x [<-|Hx]; auto.
Qed.

Lemma mooni_loop_returns (hs : list string) : forall st,
  credits_per_token <> Some 0 ->
  (forall x, In x hs -> bal x = 0 \/ Z.of_N total_supply <> 0) ->
  exists st' out, loop hs st = (st', out, None).
Proof.
  induction hs as [|h hs IH]; intros st Hc H.
  - eexists _, _; reflexivity.
  - unfold loop. cbn [holders_loop]. fold step. fold loop.
    destruct (mooni_step_returns h st Hc (H h (or_introl eq_refl)))
      as (st1 & row & ->).
    destruct (IH st1 Hc (fun x Hx => H x (or_intror Hx))) as (st2 & out & ->).
    eexists _, _; reflexivity.
Qed.

Lemma mooni_verify_iff (st : totals) :
  verify a_supply b_supply st = None <->
  drift_ok a_supply (running_total_a st)
  /\ drift_ok b_supply (running_total_b st).
Proof.
  unfold verify, drift_ok.
  destruct (num_gtb (num_abs (num_sub (PyInt (Z.of_N a_supply))
                                      (running_total_a st))) _);
    [split; [discriminate | intros (? & _); discriminate]|].
  destruct (num_gtb (num_abs (num_sub (PyInt (Z.of_N b_supply))
                                      (running_total_b st))) _);
    [split; [discriminate | intros (_ & ?); discriminate]|].
  tauto.
Qed.

Lemma mooni_attribute_iff (hs : list string) :
  credits_per_token <> Some 0 ->
  snd (attribute balanceOf total_supply a_supply b_supply a b
                 credits_per_token current_cpt hs) = None
  <-> reconciles balanceOf total_supply a_supply b_supply hs.
Proof.
  intros Hc. unfold attribute, reconciles, supply_ok. fold loop.
  unfold sum_a, sum_b, num_sum. fold shares.
  split.
  - destruct (loop hs _) as [[st out] [e|]] eqn:Hl; cbn [snd]; [discriminate|].
    intros Hv. apply mooni_verify_iff in Hv.
    apply mooni_loop_totals in Hl. cbn in Hl.
    destruct Hl as (H2 & H3 & _ & H5). rewrite <- H2, <- H3.
    split; [|exact Hv].
    intros Hz x Hx. destruct (H5 x Hx) as [Hb|Hn]; unfold bal in *; lia.
  - intros (H1 & H2 & H3).
    destruct (mooni_loop_returns hs (mkTotals 0 (PyInt 0) (PyInt 0)) Hc)
      as (st & out & Hl).
    { intros x Hx.
      destruct (N.eq_dec total_supply 0) as [Hz|Hz]; [left | right; lia].
      unfold bal. rewrite (H1 Hz x Hx). reflexivity. }
    rewrite Hl. cbn [snd].
    apply mooni_loop_totals in Hl. cbn in Hl. destruct Hl as (E2 & E3 & _).
    apply mooni_verify_iff. rewrite E2, E3. auto.
Qed.

End MooniswapFacts.

(** * The claims *)

(** ** Participant discovery *)

Lemma fold_guarded_append {A : Type} (ok : string -> bool) (f : A -> string)
    (events : list A) : forall acc,
  fold_left (fun acc e => guarded_append ok (f e) acc) events acc
  = collect ok (map f events) acc.
Proof.
  induction events as [|e events IH]; intros acc; [reflexivity|].
  cbn [fold_left map]. rewrite IH. reflexivity.
Qed.

Lemma mooniswap_discover_spec (deposits : list MooniswapLps.DepositedEvent)
    (transfers : list TransferEvent) :
  MooniswapLps.discover deposits transfers
  = first_occurrences
      (filter str_truthy (map MooniswapLps.deposited_account deposits
                          ++ map transfer_to transfers)).
Proof.
  unfold MooniswapLps.discover, add_account.
  rewrite !fold_guarded_append, <- collect_app. apply collect_spec.
Qed.

Lemma snowswap_discover_spec (stakes : list SnowswapStakers.StakedEvent) :
  SnowswapStakers.discover stakes
  = first_occurrences
      (filter str_truthy (map SnowswapStakers.staked_user stakes)).
Proof.
  unfold SnowswapStakers.discover, add_account.
  rewrite fold_guarded_append. apply collect_spec.
Qed.

Lemma filter_nonzero_no_zero (xs : list string) :
  ~ In ZERO_ADDRESS (first_occurrences (filter nonzero xs)).
Proof.
  rewrite first_occurrences_In, filter_In. intros [_ H].
  unfold nonzero in H. now rewrite String.eqb_refl in H.
Qed.

(** The participant sets of the Uniswap and Sushiswap scripts are what the
    specification asks for. *)
Lemma uniswap_participants (getTransaction : string -> Transaction)
    (mints : list MintEvent) (transfers : list TransferEvent)
    (participants : list string) :
  UniswapLps.discover getTransaction mints transfers = Return participants
  \/ SushiswapLps.discover getTransaction mints transfers
     = Return participants ->
  participants
  = first_occurrences
      (filter nonzero
         (map (fun m => tx_get_from (getTransaction (mint_transactionHash m))
                                    (mint_sender m)) mints
          ++ map transfer_to transfers))
  /\ NoDup participants
  /\ ~ In ZERO_ADDRESS participants.
Proof.
  unfold UniswapLps.discover, SushiswapLps.discover.
  rewrite !discover_spec. intros H.
  assert (E : Return (first_occurrences
                        (filter nonzero
                           (map (fun m => tx_get_from
                                            (getTransaction
                                               (mint_transactionHash m))
                                            (mint_sender m)) mints
                            ++ map transfer_to transfers)))
              = Return participants).
  { destruct H as [H|H]; revert H;
      match goal with |- context [forallb ?f ?l] => destruct (forallb f l) end;
      intros H; try discriminate H; exact H. }
  injection E as <-.
  split; [reflexivity|].
  split; [apply first_occurrences_NoDup | apply filter_nonzero_no_zero].
Qed.

(** C8.  A Mint event whose transaction does not start with one of the
    known add-liquidity signatures stops discovery, and with it the whole
    run, with [sys.exit(1)].  When every Mint event is recognized, the
    participants are the senders of the transactions ([tx.from]) and the
    recipients of the transfers at their first occurrence, whatever
    [args.sender] the events log. *)
Theorem mint_origin_validated (getTransaction : string -> Transaction)
    (mints : list MintEvent) (transfers : list TransferEvent)
    (senders : list string) :
  let origin m := getTransaction (mint_transactionHash m) in
  map (fun m => tx_from (origin m)) mints = map Some senders ->
  ((exists m, In m mints
              /\ known_origin UniswapLps.signatures (origin m) = false) ->
   UniswapLps.discover getTransaction mints transfers = Raise SysExit)
  /\ ((forall m, In m mints ->
                 known_origin UniswapLps.signatures (origin m) = true) ->
      UniswapLps.discover getTransaction mints transfers
      = Return (first_occurrences
                  (filter nonzero (senders ++ map transfer_to transfers))))
  /\ ((exists m, In m mints
                 /\ known_origin SushiswapLps.signatures (origin m) = false) ->
      SushiswapLps.discover getTransaction mints transfers = Raise SysExit)
  /\ ((forall m, In m mints ->
                 known_origin SushiswapLps.signatures (origin m) = true) ->
      SushiswapLps.discover getTransaction mints transfers
      = Return (first_occurrences
                  (filter nonzero (senders ++ map transfer_to transfers)))).
Proof.
  intros origin Hfrom. subst origin. cbv beta in *.
  apply senders_recorded in Hfrom.
  unfold UniswapLps.discover, SushiswapLps.discover.
  rewrite !discover_spec, Hfrom.
  repeat split; intros H.
  - rewrite (forallb_false_exists _ _ H). reflexivity.
  - replace (forallb _ mints) with true; [reflexivity|].
    symmetry. apply forallb_forall. exact H.
  - rewrite (forallb_false_exists _ _ H). reflexivity.
  - replace (forallb _ mints) with true; [reflexivity|].
    symmetry. apply forallb_forall. exact H.
Qed.

(** The abort of discovery is the abort of the run: nothing is printed. *)
Lemma unknown_origin_aborts_run (getTransaction : string -> Transaction)
    (balanceOf : string -> N) (total_supply a_supply b_supply : N)
    (a b : string) (credits_per_token : option Z) (current_cpt : Z)
    (pair_address : string) (mints : list MintEvent)
    (transfers : list TransferEvent) :
  UniswapLps.discover getTransaction mints transfers = Raise SysExit ->
  UniswapLps.main getTransaction balanceOf total_supply a_supply b_supply a b
                  credits_per_token current_cpt pair_address mints transfers
  = ([], Some SysExit).
Proof.
  intros H. unfold UniswapLps.main. rewrite H.
  destruct (negb (str_truthy pair_address)); reflexivity.
Qed.

Lemma mint_origin_validated_witness :
  let mints := [mkMint "0xT1" "0xROUTER"; mkMint "0xT2" "0xROUTER"] in
  map (fun m => tx_from (Examples.transactions (mint_transactionHash m))) mints
  = map Some ["0xA"; "0xB"]%string
  /\ UniswapLps.discover Examples.transactions mints
       [mkTransfer "0xB"; mkTransfer ZERO_ADDRESS; mkTransfer "0xD"]
     = Return ["0xA"; "0xB"; "0xD"]%string
  /\ UniswapLps.discover Examples.transactions
       (mints ++ [mkMint "0xT3" "0xROUTER"]) []
     = Raise SysExit.
Proof.
  intros mints.
  assert (H : map (fun m => tx_from (Examples.transactions
                                       (mint_transactionHash m))) mints
              = map Some ["0xA"; "0xB"]%string) by reflexivity.
  split; [exact H|]. split.
  - destruct (mint_origin_validated Examples.transactions mints
                [mkTransfer "0xB"; mkTransfer ZERO_ADDRESS; mkTransfer "0xD"]
                _ H) as (_ & Hok & _).
    rewrite Hok; [reflexivity|].
    intros m [<-|[<-|[]]]; reflexivity.
  - destruct (mint_origin_validated Examples.transactions
                (mints ++ [mkMint "0xT3" "0xROUTER"]) []
                ["0xA"; "0xB"; "0xC"]%string eq_refl) as (Habort & _).
    apply Habort. exists (mkMint "0xT3" "0xROUTER").
    split; [right; right; left; reflexivity | reflexivity].
Defined.

(** C9 fails for the Mooniswap script: a burn, that is a Transfer to the
    zero address, records the zero address as a participant. *)
Theorem mooniswap_records_zero_address :
  MooniswapLps.discover [MooniswapLps.mkDeposited "0xA"]
                        [mkTransfer "0xA"; mkTransfer ZERO_ADDRESS]
  = ["0xA"%string; ZERO_ADDRESS].
Proof. reflexivity. Qed.

(** Whenever a Transfer to the zero address is among the events. *)
Lemma mooniswap_zero_address_participant
    (deposits : list MooniswapLps.DepositedEvent)
    (transfers : list TransferEvent) :
  In ZERO_ADDRESS (map transfer_to transfers) ->
  In ZERO_ADDRESS (MooniswapLps.discover deposits transfers).
Proof.
  intros H. rewrite mooniswap_discover_spec, first_occurrences_In, filter_In.
  split; [apply in_or_app; now right | reflexivity].
Qed.

(** ** The ownership extractor *)

Section Extractor.

Variable balanceOf : string -> N.
Variable master_chef_address : string.
Variable userInfo : Z -> string -> N.
Variables total_supply a_supply b_supply : N.
Variables a b : string.
Variable credits_per_token : option Z.
Variable current_cpt : Z.
Variable pair_pool_id : Z.

Let uniswap :=
  UniswapLps.attribute balanceOf total_supply a_supply b_supply a b
                       credits_per_token current_cpt.
Let sushiswap :=
  SushiswapLps.attribute balanceOf master_chef_address userInfo total_supply
                         a_supply b_supply a b credits_per_token current_cpt
                         pair_pool_id.
Let mooniswap :=
  MooniswapLps.attribute balanceOf total_supply a_supply b_supply a b
                         credits_per_token current_cpt.

Lemma uniswap_complete (holders : list string) :
  snd (uniswap holders) = None ->
  map row_lp_address (fst (uniswap holders)) = holders.
Proof.
  unfold uniswap, UniswapLps.attribute.
  destruct (UniswapLps.holders_loop _ _ _ _ _ _ _ _ holders _)
    as [[st out] [e|]] eqn:Hl; cbn [fst snd]; [discriminate|].
  intros _. now apply uni_loop_totals in Hl.
Qed.

Lemma sushiswap_complete (holders : list string) :
  snd (sushiswap holders) = None ->
  map row_lp_address (fst (sushiswap holders))
  = SushiswapLps.stakers master_chef_address holders.
Proof.
  unfold sushiswap, SushiswapLps.attribute.
  destruct (SushiswapLps.holders_loop _ _ _ _ _ _ _ _ _ _ _ holders _)
    as [[st out] [e|]] eqn:Hl; cbn [fst snd]; [discriminate|].
  intros _. apply sushi_loop_totals in Hl. tauto.
Qed.

Lemma mooniswap_complete (holders : list string) :
  snd (mooniswap holders) = None ->
  map row_lp_address (fst (mooniswap holders)) = holders.
Proof.
  unfold mooniswap, MooniswapLps.attribute.
  destruct (MooniswapLps.holders_loop _ _ _ _ _ _ _ _ holders _)
    as [[st out] [e|]] eqn:Hl; cbn [fst snd]; [discriminate|].
  intros _. apply mooni_loop_totals in Hl. tauto.
Qed.

(** C1 (amended).  A run ends without an exception exactly when its own
    checks pass, and then it has printed one line per holder.
    - Uniswap: the balances add up to [total_supply - MINIMUM_LIQUIDITY] and
      neither reserve exceeds its attributed sum by more than
      MAX_ROUNDING_DRIFT; an attributed sum above the reserve is accepted.
    - Sushiswap: the same on the combined balances of the holders other than
      MasterChef, whose balance must make up for the staked part, and
      MasterChef's own ratio must be computable.
    - Mooniswap: both reserves are within MAX_ROUNDING_DRIFT of their
      attributed sums, in either direction; the supply is not checked. *)
Theorem extractor_success_criterion (holders : list string) :
  credits_per_token <> Some 0 ->
  (snd (uniswap holders) = None
   <-> UniswapLps.reconciles balanceOf total_supply a_supply b_supply holders)
  /\ (snd (uniswap holders) = None ->
      map row_lp_address (fst (uniswap holders)) = holders)
  /\ (snd (sushiswap holders) = None
      <-> SushiswapLps.reconciles balanceOf master_chef_address userInfo
            total_supply a_supply b_supply pair_pool_id holders)
  /\ (snd (sushiswap holders) = None ->
      map row_lp_address (fst (sushiswap holders))
      = SushiswapLps.stakers master_chef_address holders)
  /\ (snd (mooniswap holders) = None
      <-> MooniswapLps.reconciles balanceOf total_supply a_supply b_supply
            holders)
  /\ (snd (mooniswap holders) = None ->
      map row_lp_address (fst (mooniswap holders)) = holders).
Proof.
  intros Hc.
  split; [now apply uni_attribute_iff|].
  split; [apply uniswap_complete|].
  split; [now apply sushi_attribute_iff|].
  split; [apply sushiswap_complete|].
  split; [now apply mooni_attribute_iff|].
  apply mooniswap_complete.
Qed.

(** C4 (amended).  Without [--credits-per-token], every line the Uniswap
    script prints for a holder with a nonzero balance carries the floor of
    [reserve * ratio], where the ratio [balance / (total_supply -
    MINIMUM_LIQUIDITY)] and then the product are each rounded to 28
    significant digits.  In Scenario A (total supply 1,000,000, reserve
    2,000,000, a holder of 500,000) the printed value is 1,001,001. *)
Theorem attributed_reserve_rounded (holders : list string) :
  let out :=
    fst (UniswapLps.attribute balanceOf total_supply a_supply b_supply a b
                              None current_cpt holders) in
  Forall (UniswapLps.row_attributed balanceOf total_supply a_supply b_supply)
         out
  /\ (forall row, In row out -> In (row_lp_address row) holders)
  /\ map row_token0_value (fst Examples.scenario_a) = [1001001; 998998].
Proof.
  unfold UniswapLps.attribute.
  destruct (UniswapLps.holders_loop _ _ _ _ _ _ _ _ holders _)
    as [[st out] e] eqn:Hl.
  apply uni_loop_rows in Hl. destruct Hl as (F & I).
  destruct e; cbn [fst]; (split; [exact F|]; split; [exact I|]);
    vm_compute; reflexivity.
Qed.

End Extractor.

Lemma extractor_success_criterion_witness :
  (@None Z) <> Some 0
  /\ snd Examples.scenario_a = None
  /\ UniswapLps.reconciles (Examples.holders3 500000 499000 0)
                           1000000 2000000 300 ["0xA"; "0xB"]%string.
Proof.
  assert (Hc : (@None Z) <> Some 0) by discriminate.
  assert (Hrun : snd Examples.scenario_a = None) by (vm_compute; reflexivity).
  split; [exact Hc|]. split; [exact Hrun|].
  apply (extractor_success_criterion
           (Examples.holders3 500000 499000 0) "0xCHEF" Examples.no_stake
           1000000 2000000 300 "0xOUSD" "0xUSDT" None 0 0
           ["0xA"; "0xB"]%string Hc).
  exact Hrun.
Defined.

(** C1, as stated, fails: the Mooniswap run of a pool of 2000 shares of
    which only a holder of 500 is known ends normally, although the shares
    do not add up to the attributable supply. *)
Lemma extractor_success_not_conservation :
  ~ (snd Examples.mooniswap_run = None
     <-> Spec.conservation 2000 8 4
           (MooniswapLps.sum_balances (Examples.holders3 500 0 0)
                                      ["0xA"%string])
           (MooniswapLps.sum_a (Examples.holders3 500 0 0) 2000 8 4
                               ["0xA"%string])
           (MooniswapLps.sum_b (Examples.holders3 500 0 0) 2000 8 4
                               ["0xA"%string])).
Proof.
  intros [H _].
  assert (Hrun : snd Examples.mooniswap_run = None)
    by (vm_compute; reflexivity).
  destruct (H Hrun) as (Hsum & _). vm_compute in Hsum. discriminate Hsum.
Qed.

(** The Uniswap run accepts an attributed sum that exceeds the reserve by
    more than the drift bound. *)
Lemma uniswap_accepts_excess :
  snd Examples.large_reserve_run = None
  /\ UniswapLps.sum_a (Examples.holders3 4 1 1) 1006 Examples.large_reserve
                      300 ["0xA"; "0xB"; "0xC"]%string
     = PyDec (mkDec (10 ^ 27) 6)
  /\ ~ Spec.within_drift Examples.large_reserve
         (UniswapLps.sum_a (Examples.holders3 4 1 1) 1006
                           Examples.large_reserve 300
                           ["0xA"; "0xB"; "0xC"]%string).
Proof.
  split; [vm_compute; reflexivity|]. split; [vm_compute; reflexivity|].
  intros H. vm_compute in H. discriminate H.
Qed.

Lemma attributed_reserve_rounded_witness :
  Forall (UniswapLps.row_attributed (Examples.holders3 500000 499000 0)
                                    1000000 2000000 300)
         (fst Examples.scenario_a).
Proof.
  exact (proj1 (attributed_reserve_rounded
                  (Examples.holders3 500000 499000 0) 1000000 2000000 300
                  "0xOUSD" "0xUSDT" 0 ["0xA"; "0xB"]%string)).
Defined.

(** C4, as stated, fails: in a run over two holders that passes every
    check, the value printed for the first holder is one above the floor of
    the exact quotient. *)
Lemma attributed_reserve_not_exact :
  snd Examples.two_holders_run = None
  /\ map row_token0_value (fst Examples.two_holders_run)
     = [1675345620880711298238003; 7958858538343944095749463]
  /\ Spec.attributed_reserve 9634204159224655393987466
                             431095318149642000987
                             (2479046863748766334391 - MINIMUM_LIQUIDITY)
     = 1675345620880711298238002.
Proof. vm_compute. repeat split; reflexivity. Qed.

(** ** Eligibility and swap flows (transform.py) *)

(** The literals of main(). *)
Lemma float_literals :
  PyFloat.float_div (PyFloat.nearest_float 57824) (PyFloat.nearest_float 100)
  = PyFloat.float_578_24
  /\ PyFloat.float_of_int (10 ^ 16) = Return PyFloat.float_1e16.
Proof. split; vm_compute; reflexivity. Qed.

Lemma dec_ltb_negative (a b : decimal) :
  coef a < 0 -> 0 <= coef b -> dec_ltb a b = true.
Proof.
  intros Ha Hb. unfold dec_ltb, dec_compare.
  set (e := Z.min (expo a) (expo b)).
  assert (Hpa : 0 < 10 ^ (expo a - e))
    by (apply Z.pow_pos_nonneg; unfold e; lia).
  assert (Hpb : 0 <= 10 ^ (expo b - e))
    by (apply Z.pow_nonneg; lia).
  assert (H : coef a * 10 ^ (expo a - e) < coef b * 10 ^ (expo b - e)) by nia.
  apply Z.compare_lt_iff in H. now rewrite H.
Qed.

(** A comparison of an int never raises. *)
Lemma below_int (n : Z) (t : Eligibility.threshold) :
  exists small, Eligibility.below (Eligibility.Int n) t = Return small.
Proof. destruct t as [w|d]; cbn; eauto. Qed.

Lemma mantissa_sign (s : bool) (m : positive) :
  if s then PyFloat.mantissa s m < 0 else 0 < PyFloat.mantissa s m.
Proof. destruct s; cbn; lia. Qed.

(** A float is negative by its sign. *)
Lemma negative_float (x : PyFloat.float) :
  Eligibility.negative (Eligibility.Float x)
  = match x with
    | SpecFloat.S754_finite s _ _ | SpecFloat.S754_infinity s => s
    | _ => false
    end.
Proof.
  unfold Eligibility.negative. cbn [Eligibility.number_ltb].
  destruct x as [s|s| |s m e]; cbn [PyFloat.compare_int_float];
    try reflexivity.
  - now destruct s.
  - pose proof (mantissa_sign s m) as Hm.
    destruct (0 <=? e) eqn:E.
    + apply Z.leb_le in E.
      assert (He : 0 < 2 ^ e) by (apply Z.pow_pos_nonneg; lia).
      destruct s.
      * assert (H : 0 > PyFloat.mantissa true m * 2 ^ e) by nia.
        unfold Z.gt in H. now rewrite H.
      * assert (H : 0 < PyFloat.mantissa false m * 2 ^ e) by nia.
        apply Z.compare_lt_iff in H. now rewrite H.
    + cbn [Z.mul]. destruct s; reflexivity.
Qed.

(** What is not below a non-negative threshold is not negative. *)
Lemma not_below_nonnegative (v : Eligibility.number)
    (t : Eligibility.threshold) :
  Eligibility.nonnegative t = true ->
  Eligibility.below v t = Return false ->
  Eligibility.negative v = false.
Proof.
  intros Ht Hb.
  destruct t as [[n|y]|d]; cbn [Eligibility.nonnegative] in Ht.
  - (* an int *)
    apply Z.leb_le in Ht.
    cbn [Eligibility.below] in Hb. injection Hb as Hb.
    destruct v as [m|x].
    + cbn [Eligibility.negative Eligibility.number_ltb] in *.
      apply Z.ltb_ge in Hb. apply Z.ltb_ge. lia.
    + rewrite negative_float. cbn [Eligibility.number_ltb] in Hb.
      destruct x as [s|s| |s m e]; cbn [PyFloat.compare_int_float] in Hb;
        try reflexivity.
      * destruct s; [discriminate | reflexivity].
      * destruct s; [exfalso | reflexivity].
        destruct (0 <=? e) eqn:E.
        -- apply Z.leb_le in E.
           assert (He : 0 < 2 ^ e) by (apply Z.pow_pos_nonneg; lia).
           assert (H : n > PyFloat.mantissa true m * 2 ^ e)
             by (cbn [PyFloat.mantissa]; nia).
           unfold Z.gt in H. rewrite H in Hb. discriminate.
        -- apply Z.leb_gt in E.
           assert (He : 0 < 2 ^ (- e)) by (apply Z.pow_pos_nonneg; lia).
           assert (H : n * 2 ^ (- e) > PyFloat.mantissa true m)
             by (cbn [PyFloat.mantissa]; nia).
           unfold Z.gt in H. rewrite H in Hb. discriminate.
  - (* a float *)
    cbn [Eligibility.below] in Hb. injection Hb as Hb.
    destruct v as [m|x].
    + cbn [Eligibility.negative Eligibility.number_ltb] in *.
      apply Z.ltb_ge.
      destruct y as [s|s| |s p e]; try destruct s;
        cbn [PyFloat.compare_int_float] in Hb; cbn in Ht; try discriminate.
      * destruct (Z.compare_spec m 0); try discriminate; lia.
      * destruct (Z.compare_spec m 0); try discriminate; lia.
      * destruct (0 <=? e) eqn:E.
        -- apply Z.leb_le in E.
           assert (He : 0 < 2 ^ e) by (apply Z.pow_pos_nonneg; lia).
           destruct (Z.compare_spec m (PyFloat.mantissa false p * 2 ^ e));
             try discriminate; cbn [PyFloat.mantissa] in *; nia.
        -- apply Z.leb_gt in E.
           assert (He : 0 < 2 ^ (- e)) by (apply Z.pow_pos_nonneg; lia).
           destruct (Z.compare_spec (m * 2 ^ (- e)) (PyFloat.mantissa false p));
             try discriminate; cbn [PyFloat.mantissa] in *; nia.
    + rewrite negative_float. cbn [Eligibility.number_ltb] in Hb.
      unfold PyFloat.float_ltb, SpecFloat.SFltb in Hb.
      unfold PyFloat.float_zero, SpecFloat.SFleb in Ht.
      destruct x as [[|]|[|]| |[|] m e], y as [[|]|[|]| |[|] m' e'];
        cbn in Ht, Hb |- *; first [reflexivity | discriminate].
  - (* a Decimal *)
    apply Z.leb_le in Ht.
    destruct v as [n|x]; cbn [Eligibility.below] in Hb.
    + injection Hb as Hb.
      cbn [Eligibility.negative Eligibility.number_ltb].
      apply Z.ltb_ge. exact (dec_not_below_nonneg n d Ht Hb).
    + rewrite negative_float.
      destruct x as [s|s| |s m e];
        cbn [PyFloat.dec_of_float] in Hb; try reflexivity.
      * destruct s; [discriminate | reflexivity].
      * injection Hb as Hb. destruct s; [exfalso | reflexivity].
        rewrite dec_ltb_negative in Hb; [discriminate| |exact Ht].
        destruct (0 <=? e) eqn:E; cbn [coef PyFloat.mantissa].
        -- apply Z.leb_le in E.
           assert (0 < 2 ^ e) by (apply Z.pow_pos_nonneg; lia). nia.
        -- apply Z.leb_gt in E.
           assert (0 < 5 ^ (- e)) by (apply Z.pow_pos_nonneg; lia). nia.
Qed.

(** With an integer ETH rate the trading gain is the integer sum. *)
Lemma trading_gain_integer (self : Account) (rate : Z) :
  Eligibility.trading_gain_total_usd (Eligibility.Int rate) self
  = Return (Eligibility.Int (Eligibility.integer_gain self rate)).
Proof. reflexivity. Qed.

Lemma number_max_integer (g : Z) :
  Eligibility.number_max (Eligibility.Int g) (Eligibility.Int 0)
  = Eligibility.Int (Z.max g 0).
Proof.
  unfold Eligibility.number_max. cbn [Eligibility.number_ltb].
  destruct (g <? 0) eqn:E.
  - apply Z.ltb_lt in E. f_equal. lia.
  - apply Z.ltb_ge in E. f_equal. lia.
Qed.

Lemma eligible_integer (self : Account) (rate : Z)
    (minimum_threshold : Eligibility.threshold) :
  let diff := _ousd_balance_start self + _ousd_lp_start self
              - Z.max (Eligibility.integer_gain self rate) 0 in
  exists small,
    Eligibility.below (Eligibility.Int diff) minimum_threshold = Return small
    /\ Eligibility.eligible_balance_usd (Eligibility.Int rate)
         minimum_threshold self
       = Return (Eligibility.Int (if small then 0 else diff)).
Proof.
  intros diff.
  destruct (below_int diff minimum_threshold) as (small & Hs).
  exists small. split; [exact Hs|].
  unfold Eligibility.eligible_balance_usd.
  rewrite trading_gain_integer. cbn [bind].
  rewrite number_max_integer. cbn [Eligibility.number_sub bind].
  fold diff. rewrite Hs. cbn [bind]. now destruct small.
Qed.

(** [Transform.eligible_balance_usd] is the case of an integer ETH rate and
    a Decimal minimum threshold. *)
Lemma eligible_default_types (self : Account) :
  Eligibility.eligible_balance_usd
    (Eligibility.Int (eth_value_usd (params self)))
    (Eligibility.Dec (minimum_threshold (params self))) self
  = Return (Eligibility.Int (eligible_balance_usd self)).
Proof.
  destruct (eligible_integer self (eth_value_usd (params self))
              (Eligibility.Dec (minimum_threshold (params self))))
    as (small & Hs & He).
  rewrite He. cbn [Eligibility.below] in Hs. injection Hs as <-.
  reflexivity.
Qed.





(** C6.  For each of USDT, USDC and WETH the net swap flow of an account is
    the counter-asset received by its sells minus the counter-asset paid by
    its buys when its pre-incident position, base plus pooled, is positive,
    and 0 otherwise. *)
Theorem net_swap_flow (self : Account) :
  let pre_incident := _ousd_balance_start self + _ousd_lp_start self in
  trading_gain_usdt self
  = (if 0 <? pre_incident
     then inflow (_usdt_swaps self) - outflow (_usdt_swaps self) else 0)
  /\ trading_gain_usdc self
     = (if 0 <? pre_incident
        then inflow (_usdc_swaps self) - outflow (_usdc_swaps self) else 0)
  /\ trading_gain_weth self
     = (if 0 <? pre_incident
        then inflow (_weth_swaps self) - outflow (_weth_swaps self) else 0).
Proof.
  intros pre_incident.
  unfold trading_gain_usdt, trading_gain_usdc, trading_gain_weth,
    usdt_swap_in, usdt_swap_out, usdc_swap_in, usdc_swap_out,
    weth_swap_in, weth_swap_out.
  fold pre_incident.
  rewrite !swap_in_inflow, !swap_out_outflow, !net_flow_gate.
  repeat split.
Qed.

(** ** Swap classification (uniswap_swaps.py) *)

Section SwapChanges.
Import UniswapSwaps.

(** C7 (amended).  Only the side the trader receives is netted: a buy
    ([amount0Out > amount1Out]) records the tracked-asset change
    [amount0Out - amount0In] and the counter-asset change [amount1In]; a sell
    records [amount0In] and [amount1Out - amount1In].  Without
    [--credits-per-token] these are the amounts of the printed line. *)
Theorem swap_changes_by_direction
    (a b pair_address token0 token1 : string)
    (pair_token0 pair_token1 : string -> string)
    (getTransactionReceipt : string -> Receipt)
    (processReceipt : string -> list SwapEvent)
    (rebasingCreditsPerToken : Z -> Z)
    (event : SwapEvent) (row : swap_row) :
  classify a b pair_address token0 token1 pair_token0 pair_token1
           getTransactionReceipt processReceipt rebasingCreditsPerToken None
           event = Return (Some row) ->
  let args := event_args event in
  if (amount1Out args <? amount0Out args)%N
  then swap_direction row = "buy"%string
       /\ swap_token0_amount row
          = Z.of_N (amount0Out args) - Z.of_N (amount0In args)
       /\ swap_token1_amount row = Z.of_N (amount1In args)
  else swap_direction row = "sell"%string
       /\ swap_token0_amount row = Z.of_N (amount0In args)
       /\ swap_token1_amount row
          = Z.of_N (amount1Out args) - Z.of_N (amount1In args).
Proof.
  intros H args. subst args. revert H.
  unfold classify, changes, direction_of.
  destruct (negb (receipt_status _)); [discriminate|].
  destruct (amount1Out (event_args event) <? amount0Out (event_args event))%N;
    cbn [is_left]; intros H.
  all: destruct (processReceipt _) as [|first rest]; cbn [bind] in H;
    repeat match type of H with
           | context [if ?c then _ else _] => destruct c
           end;
    cbn [bind] in H; injection H as <-; repeat split.
Qed.

End SwapChanges.

Lemma swap_changes_by_direction_witness :
  exists row,
    UniswapSwaps.classify "0xOUSD" "0xUSDT" "0xPAIR" "0xOUSD" "0xUSDT"
      (fun _ => "0xOUSD"%string) (fun _ => "0xUSDT"%string)
      Examples.one_receipt (fun _ => []) (fun _ => 0) None
      Examples.sell_event = Return (Some row)
    /\ UniswapSwaps.swap_direction row = "sell"%string
    /\ UniswapSwaps.swap_token0_amount row = 100
    /\ UniswapSwaps.swap_token1_amount row = 50.
Proof.
  eexists. split; [vm_compute; reflexivity|].
  exact (swap_changes_by_direction "0xOUSD" "0xUSDT" "0xPAIR" "0xOUSD"
           "0xUSDT" (fun _ => "0xOUSD"%string) (fun _ => "0xUSDT"%string)
           Examples.one_receipt (fun _ => []) (fun _ => 0)
           Examples.sell_event _ eq_refl).
Defined.

(** C7, as stated, fails: for a sell of 100 OUSD for 50 USDT the line
    carries 100 as the tracked-asset change, not amount-out minus amount-in,
    which is -100. *)
Lemma swap_changes_not_netted :
  exists row,
    UniswapSwaps.classify "0xOUSD" "0xUSDT" "0xPAIR" "0xOUSD" "0xUSDT"
      (fun _ => "0xOUSD"%string) (fun _ => "0xUSDT"%string)
      Examples.one_receipt (fun _ => []) (fun _ => 0) None
      Examples.sell_event = Return (Some row)
    /\ (UniswapSwaps.swap_token0_amount row,
        UniswapSwaps.swap_token1_amount row) = (100, 50)
    /\ Spec.changes (UniswapSwaps.event_args Examples.sell_event)
       = (-100, 50).
Proof. eexists. repeat split; vm_compute; reflexivity. Qed.

(** ** The split rule (transform.py) *)

(** X26.  For an account whose eligible balance exceeds the split
    threshold, the sanity check of [adjusted_ogn_compensation] passes and the
    computation does not stop on it, provided none of its Decimal operations
    rounds: the threshold is a non-negative integer [t], the split ratio is
    a decimal [cr / 10^k] of [0, 1] and the eligible balance times [10^k] has
    at most 28 digits.  Then the secondary USD remainder plus the primary
    compensation is the eligible balance exactly. *)
Theorem ogn_sanity_check_passes (self : Account) (t cr k : Z) :
  split_threshold (params self) = dec_of_Z t ->
  ousd_ogn_split (params self) = mkDec cr (- k) ->
  0 <= t -> 0 <= k -> 0 <= cr <= 10 ^ k ->
  t < eligible_balance_usd self ->
  eligible_balance_usd self * 10 ^ k < 10 ^ prec ->
  let above_split := eligible_balance_usd self - t in
  (above_split - above_split * cr / 10 ^ k) + adjusted_ousd_compensation self
  = eligible_balance_usd self
  /\ sanity_check self = true
  /\ adjusted_ogn_compensation self <> Raise AssertionError.
Proof.
  intros Hthr Hsplit Ht Hk Hcr Habove Hsize above_split.
  pose proof (ousd_compensation_exact self t cr k Hthr Hsplit Ht Hk Hcr
                Habove Hsize) as Hprimary.
  pose proof (sanity_check_holds self t cr k Hthr Hsplit Ht Hk Hcr
                Habove Hsize) as Hcheck.
  split; [|split].
  - rewrite Hprimary. unfold above_split. lia.
  - exact Hcheck.
  - unfold adjusted_ogn_compensation. rewrite Hthr, dec_leb_int.
    destruct (eligible_balance_usd self <=? t) eqn:Hle;
      [intros H; discriminate H|].
    rewrite Hcheck. cbn [negb]. cbv iota.
    unfold div_res. destruct (dec_div _ _); cbn [bind]; intros H; discriminate H.
Qed.

Lemma ogn_sanity_check_passes_witness :
  let self := Examples.holder Examples.main_params (5 * 10 ^ 21 + 1) in
  (10 ^ 21 < eligible_balance_usd self
   /\ eligible_balance_usd self * 10 ^ 2 < 10 ^ prec)
  /\ sanity_check self = true.
Proof.
  intros self. split; [split; vm_compute; reflexivity|].
  apply (ogn_sanity_check_passes self (10 ^ 21) 25 2);
    try reflexivity; vm_compute; try split; discriminate.
Defined.

(** C2.  The code breaks the assertion it makes.  With a split of
    Decimal(0.3) and an eligible balance of 1000 USD and 10 wei, above the
    split threshold, the secondary USD remainder plus the primary
    compensation is not the eligible balance: the sanity check of
    [adjusted_ogn_compensation] fails and the computation stops with an
    AssertionError. *)
Lemma ogn_sanity_check_fails :
  let self := Examples.holder Examples.split_0_3_params (10 ^ 21 + 10) in
  dec_ltb (split_threshold (params self)) (dec_of_Z (eligible_balance_usd self))
  = true
  /\ eligible_balance_usd self = 10 ^ 21 + 10
  /\ adjusted_ousd_compensation self = 10 ^ 21 + 3
  /\ ogn_usd_value self = dec_of_Z 8
  /\ sanity_check self = false
  /\ adjusted_ogn_compensation self = Raise AssertionError.
Proof. vm_compute. repeat split; reflexivity. Qed.

(** The same through main(), whose split is Decimal(0.25), for an eligible
    balance of 29 digits.  The balance reaches the split as an int when the
    account has a net purchase: its gain is negative then and counts as the
    int 0. *)
Lemma ogn_sanity_check_fails_main :
  let self :=
    add_usdt_swap (Examples.holder Examples.main_params (10 ^ 28 + 1))
                  (1, 1, LEFT) in
  Eligibility.eligible_balance_usd Eligibility.main_eth_value_usd
    Eligibility.main_minimum_threshold self
  = Return (Eligibility.Int (10 ^ 28 + 1))
  /\ eligible_balance_usd self = 10 ^ 28 + 1
  /\ sanity_check self = false
  /\ adjusted_ogn_compensation self = Raise AssertionError.
Proof. vm_compute. repeat split; reflexivity. Qed.

(** C3 (amended).  An eligible balance up to the split threshold is
    compensated in OUSD alone.  Above it, when the threshold is a
    non-negative integer [t], the split ratio a decimal [cr / 10^k] of
    [0, 1] and the eligible balance times [10^k] has at most 28 digits, the
    OUSD compensation is [t + floor(above_split * cr / 10^k)] and the OGN
    compensation is [floor(q * 10^18)], where [q] is the Decimal quotient
    of the secondary USD value by [ogn_price_usd], rounded to 28
    significant digits. *)
Theorem split_rule (self : Account) (t cr k : Z) :
  split_threshold (params self) = dec_of_Z t ->
  ousd_ogn_split (params self) = mkDec cr (- k) ->
  0 <= t -> 0 <= k -> 0 <= cr <= 10 ^ k ->
  eligible_balance_usd self * 10 ^ k < 10 ^ prec ->
  let eligible := eligible_balance_usd self in
  let above_split := eligible - t in
  let secondary_usd := above_split - above_split * cr / 10 ^ k in
  (eligible <= t ->
   adjusted_ousd_compensation self = eligible
   /\ adjusted_ogn_compensation self = Return 0)
  /\ (t < eligible ->
      adjusted_ousd_compensation self = t + above_split * cr / 10 ^ k
      /\ adjusted_ogn_compensation self
         = (do q <- div_res (dec_of_Z secondary_usd)
                      (ogn_price_usd (params self));
            Return (dec_floor (dec_mul q dec_1e18)))).
Proof.
  intros Hthr Hsplit Ht Hk Hcr Hsize eligible above_split secondary_usd.
  split.
  - intros Hle. apply Z.leb_le in Hle.
    unfold adjusted_ousd_compensation, adjusted_ogn_compensation.
    fold eligible. rewrite Hthr, dec_leb_int, Hle. split; reflexivity.
  - intros Habove. split.
    + apply (ousd_compensation_exact self t cr k); assumption.
    + unfold adjusted_ogn_compensation. fold eligible.
      rewrite Hthr at 1. rewrite dec_leb_int.
      replace (eligible <=? t) with false by (symmetry; apply Z.leb_gt; lia).
      rewrite (sanity_check_holds self t cr k) by assumption.
      rewrite (ogn_usd_value_exact self t cr k) by assumption.
      reflexivity.
Qed.

Lemma split_rule_witness :
  let self := Examples.holder Examples.scenario_c_params 5000 in
  eligible_balance_usd self * 10 ^ 2 < 10 ^ prec
  /\ adjusted_ousd_compensation self = 2000
  /\ adjusted_ogn_compensation self = Return 20107.
Proof.
  intros self.
  assert (Hsize : eligible_balance_usd self * 10 ^ 2 < 10 ^ prec)
    by (vm_compute; reflexivity).
  split; [exact Hsize|].
  destruct (split_rule self 1000 25 2) as (_ & Habove);
    try reflexivity; try exact Hsize;
    try (vm_compute; try split; discriminate).
  destruct Habove as (Hp & Hs); [vm_compute; reflexivity|].
  split; [rewrite Hp | rewrite Hs]; vm_compute; reflexivity.
Defined.

(** Scenario B of the specification. *)
Lemma split_rule_scenario_b :
  let self := Examples.holder Examples.scenario_c_params 500 in
  adjusted_ousd_compensation self = 500
  /\ adjusted_ogn_compensation self = Return 0.
Proof. vm_compute. split; reflexivity. Qed.

(** C3, as stated, fails: with the parameters of [main] and an eligible
    balance of about 2.1 million USD the OGN compensation is one unit above
    the floor of the exact quotient, whether the price is read in USD or in
    units of 10^-18 USD. *)
Lemma split_rule_not_exact :
  let self := Examples.holder Examples.main_params 2105238529845171346380379 in
  let threshold := dec_to_Q (split_threshold (params self)) in
  let ratio := dec_to_Q (ousd_ogn_split (params self)) in
  let price := dec_to_Q (ogn_price_usd (params self)) in
  adjusted_ogn_compensation self = Return 10577606550830284918131937
  /\ Spec.secondary_comp (eligible_balance_usd self) threshold ratio
       (price / inject_Z (10 ^ 18))
     = 10577606550830284918131936
  /\ Spec.secondary_comp (eligible_balance_usd self) threshold ratio price
     = 10577606.
Proof. vm_compute. repeat split; reflexivity. Qed.

(** ** The output row (transform.py) *)

Lemma div_res_1e18 (n e : Z) :
  0 <= n < 10 ^ prec ->
  exists d, div_res (mkDec n e) dec_1e18 = Return d
            /\ (dec_to_Q d == dec_to_Q (mkDec n e) / inject_Z (10 ^ 18))%Q.
Proof.
  intros Hn. destruct (dec_div_1e18_exact n e Hn) as (d & Hd & Hv).
  exists d. unfold div_res. rewrite Hd. auto.
Qed.

(** C10.  In a row [to_list] builds, the fourth cell formats the OGN
    compensation times Decimal(1.25) over Decimal(1e18), the fifth the OGN
    compensation over Decimal(1e18) and the last holds the OGN compensation
    itself; the other cells do not depend on it.  For a compensation below
    8 * 10^25 the two quotients are exact: 1.25 * ogn / 10^18 and
    ogn / 10^18. *)
Theorem to_list_bonus_column (self : Account)
    (locale_currency : decimal -> string) (row : list cell) :
  to_list self locale_currency = Return row ->
  exists ogn eligible_h ousd_h with_interest plain,
    adjusted_ogn_compensation self = Return ogn
    /\ div_res (dec_mul (dec_of_Z ogn) dec_1_25) dec_1e18 = Return with_interest
    /\ div_res (dec_of_Z ogn) dec_1e18 = Return plain
    /\ row = [ CStr (address self);
               CStr (locale_currency eligible_h);
               CStr (locale_currency ousd_h);
               CStr (locale_currency with_interest);
               CStr (locale_currency plain);
               CDec (dec_of_Z (eligible_balance_usd self));
               CDec (dec_of_Z (adjusted_ousd_compensation self));
               CDec (dec_of_Z ogn) ]
    /\ div_res (dec_of_Z (eligible_balance_usd self)) dec_1e18
       = Return eligible_h
    /\ div_res (dec_of_Z (adjusted_ousd_compensation self)) dec_1e18
       = Return ousd_h
    /\ (0 <= ogn -> 125 * ogn < 10 ^ prec ->
        (dec_to_Q with_interest
         == (5 # 4) * inject_Z ogn / inject_Z (10 ^ 18))%Q
        /\ (dec_to_Q plain == inject_Z ogn / inject_Z (10 ^ 18))%Q).
Proof.
  unfold to_list.
  destruct (adjusted_ogn_compensation self) as [ogn|e] eqn:Hogn; cbn [bind];
    [|discriminate].
  destruct (div_res (dec_of_Z (eligible_balance_usd self)) dec_1e18)
    as [eligible_h|e] eqn:He; cbn [bind]; [|discriminate].
  destruct (div_res (dec_of_Z (adjusted_ousd_compensation self)) dec_1e18)
    as [ousd_h|e] eqn:Ho; cbn [bind]; [|discriminate].
  destruct (div_res (dec_mul (dec_of_Z ogn) dec_1_25) dec_1e18)
    as [with_interest|e] eqn:Hw; cbn [bind]; [|discriminate].
  destruct (div_res (dec_of_Z ogn) dec_1e18) as [plain|e] eqn:Hp; cbn [bind];
    [|discriminate].
  intros H; injection H as <-.
  exists ogn, eligible_h, ousd_h, with_interest, plain.
  do 6 (split; [reflexivity || assumption|]).
  intros H0 Hsize. split.
  - rewrite dec_mul_exact in Hw
      by (cbn [coef dec_of_Z dec_1_25]; rewrite Z.abs_eq; lia).
    cbn [coef expo dec_of_Z dec_1_25] in Hw.
    destruct (div_res_1e18 (ogn * 125) (0 + -2)) as (d & Hd & Hv); [lia|].
    rewrite Hd in Hw. injection Hw as <-. rewrite Hv.
    unfold dec_to_Q; cbn [coef expo]. rewrite inject_Z_mult.
    change (inject_Z 10 ^ (0 + -2))%Q with (1 # 100)%Q.
    change (inject_Z 125) with (125 # 1)%Q.
    field. discriminate.
  - destruct (div_res_1e18 ogn 0) as (d & Hd & Hv);
      [unfold prec in *; lia|].
    change (mkDec ogn 0) with (dec_of_Z ogn) in Hd. rewrite Hd in Hp.
    injection Hp as <-. rewrite Hv.
    unfold dec_to_Q; cbn [coef expo].
    change (inject_Z 10 ^ 0)%Q with 1%Q. rewrite Qmult_1_r. reflexivity.
Qed.

Lemma to_list_bonus_column_witness :
  let self := Examples.holder Examples.main_params (5 * 10 ^ 21 + 1) in
  to_list self (fun _ => ""%string)
  = Return [ CStr "0xA"; CStr ""; CStr ""; CStr ""; CStr "";
             CDec (dec_of_Z 5000000000000000000001);
             CDec (dec_of_Z 2000000000000000000000);
             CDec (dec_of_Z 20107238605898123324403) ]
  /\ exists with_interest,
       div_res (dec_mul (dec_of_Z 20107238605898123324403) dec_1_25) dec_1e18
       = Return with_interest
       /\ (dec_to_Q with_interest
           == (5 # 4) * inject_Z 20107238605898123324403
              / inject_Z (10 ^ 18))%Q.
Proof.
  intros self.
  assert (H : to_list self (fun _ => ""%string)
              = Return [ CStr "0xA"; CStr ""; CStr ""; CStr ""; CStr "";
                         CDec (dec_of_Z 5000000000000000000001);
                         CDec (dec_of_Z 2000000000000000000000);
                         CDec (dec_of_Z 20107238605898123324403) ])
    by (vm_compute; reflexivity).
  split; [exact H|].
  destruct (to_list_bonus_column self _ _ H)
    as (ogn & eh & oh & w & p & Hogn & Hw & _ & _ & _ & _ & Hval).
  assert (Ho : adjusted_ogn_compensation self
               = Return 20107238605898123324403) by (vm_compute; reflexivity).
  rewrite Ho in Hogn. injection Hogn as <-.
  exists w. split; [exact Hw|].
  apply Hval; vm_compute; [discriminate | reflexivity].
Defined.

(** * Further properties *)

(** ** The accuracy of the decimal operations *)

(** ** The accuracy of the Decimal operations *)

Lemma ndigits_aux_spec (fuel : nat) : forall n,
  1 <= n -> Z.log2 n <= Z.of_nat fuel ->
  10 ^ (ndigits_aux fuel n - 1) <= n < 10 ^ ndigits_aux fuel n.
Proof.
  induction fuel as [|fuel IH]; intros n Hn Hlog; cbn [ndigits_aux].
  - assert (n < 2).
    { destruct (Z.log2_spec n ltac:(lia)) as [_ H].
      replace (Z.log2 n) with 0 in H by (pose proof (Z.log2_nonneg n); lia).
      exact H. }
    change (10 ^ (1 - 1)) with 1. change (10 ^ 1) with 10. lia.
  - destruct (n <? 10) eqn:E.
    + apply Z.ltb_lt in E. change (10 ^ (1 - 1)) with 1.
      change (10 ^ 1) with 10. lia.
    + apply Z.ltb_ge in E.
      assert (H1 : 1 <= n / 10) by (apply Z.div_le_lower_bound; lia).
      assert (H2 : Z.log2 (n / 10) <= Z.of_nat fuel).
      { pose proof (Z.log2_double (n / 10) ltac:(lia)) as Hd.
        pose proof (Z.div_mod n 10 ltac:(lia)).
        pose proof (Z.mod_pos_bound n 10 ltac:(lia)).
        pose proof (Z.log2_le_mono (2 * (n / 10)) n ltac:(lia)). lia. }
      destruct (IH (n / 10) H1 H2) as [L U].
      set (d := ndigits_aux fuel (n / 10)) in *.
      assert (Hd : 1 <= d) by apply ndigits_aux_pos.
      replace (1 + d - 1) with (Z.succ (d - 1)) by lia.
      replace (1 + d) with (Z.succ d) by lia.
      rewrite !Z.pow_succ_r by lia.
      pose proof (Z.div_mod n 10 ltac:(lia)).
      pose proof (Z.mod_pos_bound n 10 ltac:(lia)). lia.
Qed.

Lemma ndigits_spec (n : Z) :
  1 <= n -> 10 ^ (ndigits n - 1) <= n < 10 ^ ndigits n.
Proof.
  intros Hn. apply ndigits_aux_spec; [assumption|].
  pose proof (Z.log2_nonneg n). lia.
Qed.

Lemma ndigits_ge (n k : Z) : 1 <= k -> 10 ^ (k - 1) <= n -> k <= ndigits n.
Proof.
  intros Hk H.
  assert (Hn : 1 <= n) by (pose proof (Z.pow_pos_nonneg 10 (k - 1)); lia).
  destruct (ndigits_spec n Hn) as [_ U].
  destruct (Z.le_gt_cases k (ndigits n)) as [|Hlt]; [assumption|].
  assert (10 ^ ndigits n <= 10 ^ (k - 1)) by (apply Z.pow_le_mono_r; lia).
  lia.
Qed.

Lemma round_half_even_bounds (n k : Z) :
  n / 10 ^ k <= round_half_even n k <= n / 10 ^ k + 1.
Proof.
  unfold round_half_even.
  destruct ((10 ^ k <? 2 * (n mod 10 ^ k))
            || (10 ^ k =? 2 * (n mod 10 ^ k)) && Z.odd (n / 10 ^ k)); lia.
Qed.

(** [dec_fix] keeps the exponent scale and moves the coefficient by at most
    one part in 10^27. *)
Lemma dec_fix_coefficient (d : decimal) :
  exists c',
    (dec_to_Q (dec_fix d) == dec_to_Q (mkDec c' (expo d)))%Q
    /\ Z.abs (c' - coef d) * 10 ^ 27 <= Z.abs (coef d).
Proof.
  unfold dec_fix.
  set (n := Z.abs (coef d)).
  set (k := ndigits n - prec).
  destruct (k <=? 0) eqn:Ek.
  - exists (coef d). split; [destruct d; reflexivity|].
    replace (coef d - coef d) with 0 by lia. cbn [Z.abs Z.mul]. lia.
  - apply Z.leb_gt in Ek.
    assert (Hn : 1 <= n).
    { destruct (Z.eq_dec n 0) as [E0|]; [|unfold n in *; lia].
      unfold k in Ek. rewrite E0 in Ek. vm_compute in Ek. discriminate. }
    destruct (ndigits_spec n Hn) as [L U].
    replace (ndigits n - 1) with (k + 27) in L by (unfold k, prec; lia).
    replace (ndigits n) with (k + 28) in U by (unfold k, prec; lia).
    rewrite Z.pow_add_r in L, U by lia.
    set (P := 10 ^ k) in *.
    assert (HP : 0 < P) by (apply Z.pow_pos_nonneg; lia).
    pose proof (round_half_even_bounds n k) as Hq. fold P in Hq.
    set (q := round_half_even n k) in *.
    pose proof (Z.div_mod n P ltac:(lia)) as Hdm.
    pose proof (Z.mod_pos_bound n P HP) as Hmod.
    assert (Hq0 : 10 ^ 27 <= n / P < 10 ^ 28).
    { split; [apply Z.div_le_lower_bound | apply Z.div_lt_upper_bound]; lia. }
    assert (Hsg : coef d = Z.sgn (coef d) * n).
    { unfold n. destruct (coef d); reflexivity. }
    assert (Hs1 : Z.abs (Z.sgn (coef d)) = 1).
    { unfold n in Hn. destruct (coef d); [cbn [Z.abs] in Hn; lia | |];
        reflexivity. }
    assert (Hval : (dec_to_Q (mkDec (Z.sgn (coef d) * q) (expo d + k))
                    == dec_to_Q (mkDec (Z.sgn (coef d) * q * P) (expo d)))%Q).
    { unfold P. rewrite dec_to_Q_scale by lia. reflexivity. }
    assert (Hbound : Z.abs (Z.sgn (coef d) * q * P - coef d) * 10 ^ 27
                     <= Z.abs (coef d)).
    { rewrite Hsg at 2.
      replace (Z.sgn (coef d) * q * P - Z.sgn (coef d) * n)
        with (Z.sgn (coef d) * (q * P - n)) by ring.
      rewrite Z.abs_mul, Hs1. fold n. nia. }
    exists (Z.sgn (coef d) * q * P). split; [|exact Hbound].
    destruct (prec <? ndigits q) eqn:Ec.
    + apply Z.ltb_lt in Ec.
      assert (Hq28 : q = 10 ^ 28).
      { destruct (Z.lt_ge_cases q (10 ^ 28)) as [Hlt|]; [|lia].
        pose proof (ndigits_aux_bound (Z.to_nat (Z.log2 q)) q 28
                      ltac:(lia) Hlt) as Hb.
        unfold ndigits, prec in Ec. lia. }
      rewrite <- Hval. rewrite Hq28.
      change (10 ^ 28 / 10) with (10 ^ 27).
      replace (Z.sgn (coef d) * 10 ^ 28)
        with (Z.sgn (coef d) * 10 ^ 27 * 10 ^ 1) by ring.
      rewrite (dec_to_Q_scale _ 1) by lia.
      replace (expo d + k + 1) with (expo d + k + 1) by lia.
      reflexivity.
    + exact Hval.
Qed.

Lemma pow10_pos (e : Z) : (0 < inject_Z 10 ^ e)%Q.
Proof. apply Qpower_0_lt. reflexivity. Qed.

Lemma scale_le (x y p : Q) : (0 < p -> x <= y -> x * p <= y * p)%Q.
Proof. intros Hp H. apply Qmult_le_compat_r; [assumption|]. lra. Qed.

(** One rounding moves a non-negative value by at most one part in
    10^27. *)
Lemma dec_fix_error (d : decimal) :
  0 <= coef d ->
  (dec_to_Q d * (1 - (1 # 1000000000000000000000000000))
   <= dec_to_Q (dec_fix d)
   <= dec_to_Q d * (1 + (1 # 1000000000000000000000000000)))%Q.
Proof.
  intros Hc. destruct (dec_fix_coefficient d) as (c' & Hv & Hb).
  rewrite Hv. unfold dec_to_Q; cbn [coef expo].
  pose proof (pow10_pos (expo d)) as Hp.
  set (p := (inject_Z 10 ^ expo d)%Q) in *.
  rewrite (Z.abs_eq (coef d)) in Hb by assumption.
  assert (H1 : c' * 10 ^ 27 <= coef d * 10 ^ 27 + coef d) by lia.
  assert (H2 : coef d * 10 ^ 27 <= c' * 10 ^ 27 + coef d) by lia.
  rewrite Zle_Qle in H1, H2, Hc.
  rewrite inject_Z_plus, !inject_Z_mult in H1, H2.
  change (inject_Z (10 ^ 27)) with (1000000000000000000000000000 # 1)%Q
    in H1, H2.
  change (inject_Z 0) with 0%Q in Hc.
  set (C := inject_Z (coef d)) in *. set (C' := inject_Z c') in *.
  split.
  - setoid_replace (C * p * (1 - (1 # 1000000000000000000000000000)))%Q
      with (C * (1 - (1 # 1000000000000000000000000000)) * p)%Q by ring.
    apply scale_le; [assumption | lra].
  - setoid_replace (C * p * (1 + (1 # 1000000000000000000000000000)))%Q
      with (C * (1 + (1 # 1000000000000000000000000000)) * p)%Q by ring.
    apply scale_le; [assumption | lra].
Qed.

(** The scaled quotient of [dec_div] has at least 29 digits. *)
Lemma div_scaled_quotient (a b : Z) :
  0 < a -> 0 < b ->
  let shift := ndigits b - ndigits a + prec + 1 in
  let num := if 0 <=? shift then a * 10 ^ shift else a in
  let den := if 0 <=? shift then b else b * 10 ^ (- shift) in
  0 < den /\ 10 ^ 28 <= num / den.
Proof.
  intros Ha Hb shift num den.
  destruct (ndigits_spec a ltac:(lia)) as [La Ua].
  destruct (ndigits_spec b ltac:(lia)) as [Lb Ub].
  pose proof (ndigits_aux_pos (Z.to_nat (Z.log2 a)) a) as Da.
  pose proof (ndigits_aux_pos (Z.to_nat (Z.log2 b)) b) as Db.
  fold (ndigits a) in Da. fold (ndigits b) in Db.
  set (la := ndigits a) in *. set (lb := ndigits b) in *.
  unfold num, den. destruct (0 <=? shift) eqn:Es.
  - apply Z.leb_le in Es. split; [assumption|].
    apply Z.div_le_lower_bound; [assumption|].
    assert (H : 10 ^ (la - 1) * 10 ^ shift = 10 ^ lb * 10 ^ 28).
    { rewrite <- !Z.pow_add_r by lia. f_equal. unfold shift, prec. lia. }
    assert (0 < 10 ^ shift) by (apply Z.pow_pos_nonneg; lia).
    nia.
  - apply Z.leb_gt in Es.
    assert (Hp : 0 < 10 ^ (- shift)) by (apply Z.pow_pos_nonneg; lia).
    split; [nia|].
    apply Z.div_le_lower_bound; [nia|].
    assert (H : 10 ^ (la - 1) = 10 ^ lb * 10 ^ (- shift) * 10 ^ 28).
    { rewrite <- !Z.pow_add_r by lia. f_equal. unfold shift, prec. lia. }
    nia.
Qed.

Lemma dec_fix_nonneg (d : decimal) : 0 <= coef d -> 0 <= coef (dec_fix d).
Proof.
  intros Hc. unfold dec_fix.
  set (n := Z.abs (coef d)). set (k := ndigits n - prec).
  destruct (k <=? 0) eqn:Ek; [assumption|]. apply Z.leb_gt in Ek.
  pose proof (round_half_even_bounds n k) as [L _].
  assert (H0 : 0 <= n / 10 ^ k).
  { apply Z.div_pos; [unfold n; lia | apply Z.pow_pos_nonneg; lia]. }
  assert (Hs : 0 <= Z.sgn (coef d)) by lia.
  destruct (prec <? ndigits (round_half_even n k)); cbn [coef].
  - apply Z.mul_nonneg_nonneg; [assumption|]. apply Z.div_pos; lia.
  - apply Z.mul_nonneg_nonneg; lia.
Qed.

Lemma pow10_inject (k : Z) :
  0 <= k -> (inject_Z (10 ^ k) == inject_Z 10 ^ k)%Q.
Proof. intros Hk. now apply Zpower_Qpower. Qed.

Lemma pow10_cancel (s : Z) : (inject_Z 10 ^ s * inject_Z 10 ^ (- s) == 1)%Q.
Proof.
  rewrite <- Qpower_plus by discriminate.
  replace (s + - s) with 0 by lia. reflexivity.
Qed.

(** The quotient before its final rounding: exact, or within one unit of a
    coefficient of at least 29 digits. *)
Lemma dec_div_error (a b : Z) :
  0 < a -> 0 < b ->
  exists q,
    dec_div (dec_of_Z a) (dec_of_Z b) = Some q
    /\ 0 <= coef q
    /\ (inject_Z a / inject_Z b * (1 - (2 # 1000000000000000000000000000))
        <= dec_to_Q q
        <= inject_Z a / inject_Z b
           * (1 + (2 # 1000000000000000000000000000)))%Q.
Proof.
  intros Ha Hb. unfold dec_div. cbn [coef expo dec_of_Z].
  replace (b =? 0) with false by (symmetry; apply Z.eqb_neq; lia).
  replace (a =? 0) with false by (symmetry; apply Z.eqb_neq; lia).
  rewrite (Z.abs_eq a), (Z.abs_eq b) by lia.
  rewrite (Z.sgn_pos a), (Z.sgn_pos b) by lia.
  destruct (div_scaled_quotient a b Ha Hb) as [Hden Hcoeff].
  set (shift := ndigits b - ndigits a + prec + 1) in *.
  set (num := if 0 <=? shift then a * 10 ^ shift else a) in *.
  set (den := if 0 <=? shift then b else b * 10 ^ (- shift)) in *.
  set (coeff := num / den) in *.
  set (remainder := num mod den).
  replace (0 - 0 - (0 - 0 - shift)) with shift by lia.
  replace (0 - 0 - shift) with (- shift) by lia.
  replace (0 - 0) with 0 by lia.
  set (ce := if remainder =? 0
             then strip_exact (Z.to_nat shift) coeff (- shift) 0
             else (if coeff mod 5 =? 0 then coeff + 1 else coeff, - shift)).
  replace (1 * 1 * fst ce) with (fst ce) by lia.
  set (d1 := mkDec (fst ce) (snd ce)).
  (* the rationals *)
  set (A := inject_Z a). set (B := inject_Z b).
  assert (HA : (0 < A)%Q) by (unfold A; rewrite <- (Zlt_Qlt 0); lia).
  assert (HB : (0 < B)%Q) by (unfold B; rewrite <- (Zlt_Qlt 0); lia).
  set (x := (A / B)%Q).
  assert (Hx : (x * B == A)%Q) by (unfold x; field; lra).
  assert (Hx0 : (0 < x)%Q).
  { apply (Qmult_lt_r _ _ B HB). rewrite Hx. lra. }
  set (p := (inject_Z 10 ^ (- shift))%Q).
  assert (Hp : (0 < p)%Q) by apply pow10_pos.
  set (DEN := inject_Z den). set (NUM := inject_Z num).
  assert (HDEN : (0 < DEN)%Q) by (unfold DEN; rewrite <- (Zlt_Qlt 0); lia).
  assert (Hinv : (x * DEN == NUM * p)%Q).
  { unfold DEN, NUM, den, num, p. destruct (0 <=? shift) eqn:Es.
    - apply Z.leb_le in Es.
      rewrite inject_Z_mult, pow10_inject by assumption.
      fold A. fold B. rewrite Hx, <- Qmult_assoc, pow10_cancel. ring.
    - apply Z.leb_gt in Es.
      rewrite inject_Z_mult, pow10_inject by lia.
      fold A. fold B. rewrite Qmult_assoc, Hx. reflexivity. }
  set (COEFF := inject_Z coeff). set (REM := inject_Z remainder).
  assert (Hdm : (NUM == COEFF * DEN + REM)%Q).
  { unfold NUM, COEFF, DEN, REM. rewrite <- inject_Z_mult, <- inject_Z_plus.
    rewrite inject_Z_injective. unfold coeff, remainder.
    rewrite Z.mul_comm. apply Z.div_mod. lia. }
  pose proof (Z.mod_pos_bound num den Hden) as Hrem. fold remainder in Hrem.
  assert (HREM : (0 <= REM /\ REM <= DEN)%Q).
  { unfold REM, DEN. rewrite <- (Zle_Qle 0), <- Zle_Qle. lia. }
  assert (HK : (1000000000000000000000000000 * 10 * p <= COEFF * p)%Q).
  { apply scale_le; [assumption|]. unfold COEFF.
    change (1000000000000000000000000000 * 10)%Q
      with (inject_Z (10 ^ 28)). rewrite <- Zle_Qle. exact Hcoeff. }
  assert (Hlow : (COEFF * p <= x)%Q).
  { apply (Qmult_le_r _ _ DEN HDEN). rewrite Hinv, Hdm.
    setoid_replace ((COEFF * DEN + REM) * p)%Q
      with (COEFF * p * DEN + REM * p)%Q by ring.
    assert (0 <= REM * p)%Q by (apply Qmult_le_0_compat; lra). lra. }
  assert (Hup : (x <= (COEFF + 1) * p)%Q).
  { apply (Qmult_le_r _ _ DEN HDEN). rewrite Hinv, Hdm.
    setoid_replace ((COEFF + 1) * p * DEN)%Q
      with ((COEFF * DEN + DEN) * p)%Q by ring.
    apply scale_le; [assumption | lra]. }
  assert (Hd1 : 0 <= coef d1
                /\ (x * (1 - (1 # 10000000000000000000000000000))
                    <= dec_to_Q d1
                    <= x * (1 + (1 # 10000000000000000000000000000)))%Q).
  { unfold d1, ce. destruct (remainder =? 0) eqn:Er.
    - apply Z.eqb_eq in Er.
      destruct (strip_exact_value (Z.to_nat shift) coeff (- shift) 0)
        as (j & Hj & Hc & He).
      set (r := strip_exact (Z.to_nat shift) coeff (- shift) 0) in *.
      cbn [coef].
      assert (Hpj : 0 < 10 ^ j) by (apply Z.pow_pos_nonneg; lia).
      split; [nia|].
      assert (Hval : (dec_to_Q (mkDec (fst r) (snd r)) == x)%Q).
      { rewrite He, <- dec_to_Q_scale, <- Hc by assumption.
        unfold dec_to_Q; cbn [coef expo]. fold COEFF. fold p.
        apply (Qmult_inj_r _ _ DEN); [lra|].
        rewrite Hinv, Hdm. unfold REM. rewrite Er.
        change (inject_Z 0) with 0%Q. ring. }
      rewrite Hval. split; nra.
    - cbn [coef fst snd]. split.
      + destruct (coeff mod 5 =? 0); lia.
      + unfold dec_to_Q; cbn [coef expo]. fold p.
        assert (Hc1 : (COEFF * p
                       <= inject_Z (if coeff mod 5 =? 0 then coeff + 1
                                    else coeff) * p
                       <= (COEFF + 1) * p)%Q).
        { destruct (coeff mod 5 =? 0).
          - rewrite inject_Z_plus. fold COEFF.
            change (inject_Z 1) with 1%Q. split; [|lra].
            apply scale_le; [assumption | lra].
          - fold COEFF. split; [lra|]. apply scale_le; [assumption | lra]. }
        set (D := (inject_Z (if coeff mod 5 =? 0 then coeff + 1 else coeff)
                   * p)%Q) in *.
        set (K := (COEFF * p)%Q) in *.
        setoid_replace ((COEFF + 1) * p)%Q with (K + p)%Q in Hup
          by (unfold K; ring).
        setoid_replace ((COEFF + 1) * p)%Q with (K + p)%Q in Hc1
          by (unfold K; ring).
        split; lra. }
  destruct Hd1 as (Hc1 & Hv1).
  exists (dec_fix d1). split; [reflexivity|].
  split; [now apply dec_fix_nonneg|].
  pose proof (dec_fix_error d1 Hc1) as Hf.
  set (D := dec_to_Q d1) in *. set (F := dec_to_Q (dec_fix d1)) in *.
  split; lra.
Qed.

Lemma dec_floor_Qfloor (d : decimal) : dec_floor d = Qfloor (dec_to_Q d).
Proof.
  unfold dec_floor, dec_to_Q. destruct (0 <=? expo d) eqn:E.
  - apply Z.leb_le in E.
    rewrite <- pow10_inject, <- inject_Z_mult by assumption.
    now rewrite Qfloor_Z.
  - apply Z.leb_gt in E. rewrite Zdiv_Qdiv. apply Qfloor_comp.
    rewrite pow10_inject by lia. unfold Qdiv.
    rewrite <- Qpower_opp, Z.opp_involutive. reflexivity.
Qed.

Lemma dec_mul_value (x y : decimal) :
  (dec_to_Q (mkDec (coef x * coef y) (expo x + expo y))
   == dec_to_Q x * dec_to_Q y)%Q.
Proof.
  unfold dec_to_Q; cbn [coef expo].
  rewrite inject_Z_mult, Qpower_plus by discriminate. ring.
Qed.

Lemma floors_within_one (f x : Q) :
  (x - 1 < f)%Q -> (f < x + 1)%Q -> Z.abs (Qfloor f - Qfloor x) <= 1.
Proof.
  intros L U.
  pose proof (Qfloor_le f) as F1. pose proof (Qlt_floor f) as F2.
  pose proof (Qfloor_le x) as X1. pose proof (Qlt_floor x) as X2.
  rewrite inject_Z_plus in F2, X2.
  change (inject_Z 1) with 1%Q in F2, X2.
  assert (H1 : (inject_Z (Qfloor f) < inject_Z (Qfloor x + 2))%Q).
  { rewrite inject_Z_plus. change (inject_Z 2) with 2%Q. lra. }
  assert (H2 : (inject_Z (Qfloor x) < inject_Z (Qfloor f + 2))%Q).
  { rewrite inject_Z_plus. change (inject_Z 2) with 2%Q. lra. }
  rewrite <- Zlt_Qlt in H1, H2. lia.
Qed.

(** The floor of [m * (a / b)], computed with a Decimal quotient and a
    Decimal product, is within one unit of the floor of the exact value
    [m * a / b] when that value is below 10^26. *)
Lemma scaled_quotient_floor (m a b : Z) (q : decimal) :
  0 <= m -> 0 < a -> 0 < b ->
  m * a < b * 10 ^ 26 ->
  dec_div (dec_of_Z a) (dec_of_Z b) = Some q ->
  Z.abs (dec_floor (dec_mul (dec_of_Z m) q) - m * a / b) <= 1.
Proof.
  intros Hm Ha Hb Hsize Hq.
  destruct (dec_div_error a b Ha Hb) as (q' & Hq' & Hc & Hv).
  rewrite Hq in Hq'. injection Hq' as <-.
  unfold dec_mul. cbn [coef expo dec_of_Z].
  set (P0 := mkDec (m * coef q) (0 + expo q)).
  assert (HP0 : 0 <= coef P0) by (cbn [coef P0]; nia).
  pose proof (dec_fix_error P0 HP0) as Hf.
  assert (HV : (dec_to_Q P0 == inject_Z m * dec_to_Q q)%Q).
  { unfold P0. change (mkDec (m * coef q) (0 + expo q))
      with (mkDec (coef (dec_of_Z m) * coef q) (expo (dec_of_Z m) + expo q)).
    rewrite dec_mul_value. unfold dec_to_Q at 1; cbn [coef expo dec_of_Z].
    change (inject_Z 10 ^ 0)%Q with 1%Q. ring. }
  rewrite HV in Hf.
  rewrite dec_floor_Qfloor, Zdiv_Qdiv.
  set (M := inject_Z m) in *. set (A := inject_Z a) in *.
  set (B := inject_Z b) in *.
  assert (HM : (0 <= M)%Q) by (unfold M; rewrite <- (Zle_Qle 0); lia).
  assert (HB : (0 < B)%Q) by (unfold B; rewrite <- (Zlt_Qlt 0); lia).
  assert (HA : (0 < A)%Q) by (unfold A; rewrite <- (Zlt_Qlt 0); lia).
  set (X := (M * (A / B))%Q).
  assert (HX : (inject_Z (m * a) / B == X)%Q).
  { unfold X. rewrite inject_Z_mult. fold M. fold A. field. lra. }
  rewrite (Qfloor_comp _ _ HX).
  assert (HX0 : (0 <= X)%Q).
  { unfold X. apply Qmult_le_0_compat; [assumption|].
    apply Qlt_le_weak. apply Qlt_shift_div_l; lra. }
  assert (HX26 : (X < 100000000000000000000000000)%Q).
  { rewrite <- HX. apply Qlt_shift_div_r; [assumption|].
    change (100000000000000000000000000)%Q with (inject_Z (10 ^ 26)).
    unfold B. rewrite <- inject_Z_mult, <- Zlt_Qlt. lia. }
  set (V := (M * dec_to_Q q)%Q) in *.
  assert (HVX : (X * (1 - (2 # 1000000000000000000000000000)) <= V
                 <= X * (1 + (2 # 1000000000000000000000000000)))%Q).
  { unfold V, X. destruct Hv as [L U]. split.
    - setoid_replace (M * (A / B) * (1 - (2 # 1000000000000000000000000000)))%Q
        with (M * (A / B * (1 - (2 # 1000000000000000000000000000))))%Q
        by ring.
      rewrite !(Qmult_comm M). apply Qmult_le_compat_r; assumption.
    - setoid_replace (M * (A / B) * (1 + (2 # 1000000000000000000000000000)))%Q
        with (M * (A / B * (1 + (2 # 1000000000000000000000000000))))%Q
        by ring.
      rewrite !(Qmult_comm M). apply Qmult_le_compat_r; assumption. }
  set (F := dec_to_Q (dec_fix P0)) in *.
  apply floors_within_one; lra.
Qed.

Lemma dec_mul_comm (x y : decimal) : dec_mul x y = dec_mul y x.
Proof. unfold dec_mul. now rewrite Z.mul_comm, Z.add_comm. Qed.

Lemma spec_attributed_reserve_div (reserve lp attributable : Z) :
  Spec.attributed_reserve reserve lp attributable
  = reserve * lp / attributable.
Proof.
  unfold Spec.attributed_reserve.
  rewrite Zdiv_Qdiv, inject_Z_mult. reflexivity.
Qed.

(** A printed value of the Uniswap script against the exact share. *)
Lemma row_attributed_accuracy (balanceOf : string -> N)
    (total_supply a_supply b_supply : N) (row : lp_row) :
  UniswapLps.row_attributed balanceOf total_supply a_supply b_supply row ->
  let attributable := Z.of_N total_supply - MINIMUM_LIQUIDITY in
  0 < attributable ->
  (Z.of_N a_supply * row_lp_balance row < attributable * 10 ^ 26 ->
   Z.abs (row_token0_value row
          - Spec.attributed_reserve (Z.of_N a_supply) (row_lp_balance row)
                                    attributable) <= 1)
  /\ (Z.of_N b_supply * row_lp_balance row < attributable * 10 ^ 26 ->
      Z.abs (row_token1_value row
             - Spec.attributed_reserve (Z.of_N b_supply) (row_lp_balance row)
                                       attributable) <= 1).
Proof.
  intros (Hbal & Hzero & Hnz) attributable Hpos.
  rewrite !spec_attributed_reserve_div.
  destruct (Z.eq_dec (row_lp_balance row) 0) as [E|E].
  - destruct (Hzero E) as (-> & ->). rewrite E, !Z.mul_0_r.
    rewrite Z.div_0_l by lia. split; intros _; lia.
  - destruct (Hnz E) as (ratio & Hr & -> & ->).
    assert (0 < row_lp_balance row) by (rewrite Hbal in *; lia).
    split; intros Hsize; apply scaled_quotient_floor; try assumption; lia.
Qed.

(** ** Division of a decimal by an integer *)

Lemma strip_exact_shift (fuel : nat) : forall c e0 ideal e,
  strip_exact fuel c (e0 + e) (ideal + e)
  = (fst (strip_exact fuel c e0 ideal), snd (strip_exact fuel c e0 ideal) + e).
Proof.
  induction fuel as [|fuel IH]; intros c e0 ideal e; [reflexivity|].
  cbn [strip_exact].
  replace (e0 + e <? ideal + e) with (e0 <? ideal)
    by (destruct (Z.ltb_spec e0 ideal), (Z.ltb_spec (e0 + e) (ideal + e));
        (reflexivity || lia)).
  destruct ((e0 <? ideal) && (c mod 10 =? 0)); [|reflexivity].
  replace (e0 + e + 1) with (e0 + 1 + e) by lia. apply IH.
Qed.

Lemma dec_fix_shift (c x e : Z) :
  dec_fix (mkDec c (x + e))
  = mkDec (coef (dec_fix (mkDec c x))) (expo (dec_fix (mkDec c x)) + e).
Proof.
  unfold dec_fix. cbn [coef expo].
  destruct (ndigits (Z.abs c) - prec <=? 0); [reflexivity|].
  destruct (prec <? ndigits (round_half_even (Z.abs c)
                                             (ndigits (Z.abs c) - prec)));
    cbn [coef expo]; f_equal; lia.
Qed.

Lemma dec_div_shift (a e b : Z) :
  0 < a -> 0 < b ->
  dec_div (mkDec a e) (dec_of_Z b)
  = match dec_div (dec_of_Z a) (dec_of_Z b) with
    | Some q => Some (mkDec (coef q) (expo q + e))
    | None => None
    end.
Proof.
  intros Ha Hb. unfold dec_div. cbn [coef expo dec_of_Z].
  replace (b =? 0) with false by (symmetry; apply Z.eqb_neq; lia).
  replace (a =? 0) with false by (symmetry; apply Z.eqb_neq; lia).
  set (shift := ndigits (Z.abs b) - ndigits (Z.abs a) + prec + 1).
  set (num := if 0 <=? shift then Z.abs a * 10 ^ shift else Z.abs a).
  set (den := if 0 <=? shift then Z.abs b else Z.abs b * 10 ^ (- shift)).
  replace (e - 0 - (e - 0 - shift)) with shift by lia.
  replace (0 - 0 - (0 - 0 - shift)) with shift by lia.
  replace (e - 0 - shift) with (- shift + e) by lia.
  replace (0 - 0 - shift) with (- shift) by lia.
  replace (e - 0) with (0 + e) by lia.
  replace (0 - 0) with 0 by lia.
  destruct (num mod den =? 0).
  - rewrite strip_exact_shift. cbn [fst snd].
    f_equal. apply dec_fix_shift.
  - cbn [fst snd]. f_equal. apply dec_fix_shift.
Qed.

Lemma dec_to_Q_shift (c x e : Z) :
  (dec_to_Q (mkDec c (x + e)) == dec_to_Q (mkDec c x) * inject_Z 10 ^ e)%Q.
Proof.
  unfold dec_to_Q; cbn [coef expo].
  rewrite Qpower_plus by discriminate. ring.
Qed.

Lemma dec_to_Q_pos (d : decimal) : (0 < dec_to_Q d)%Q -> 0 < coef d.
Proof.
  unfold dec_to_Q. intros H.
  destruct (Z.lt_ge_cases 0 (coef d)) as [|Hle]; [assumption|].
  exfalso.
  assert (Hc : (inject_Z (coef d) <= 0)%Q) by (rewrite <- (Zle_Qle _ 0); lia).
  pose proof (pow10_pos (expo d)) as Hp.
  assert (inject_Z (coef d) * inject_Z 10 ^ expo d <= 0)%Q; [|lra].
  setoid_replace 0%Q with (0 * inject_Z 10 ^ expo d)%Q by ring.
  apply Qmult_le_compat_r; lra.
Qed.

Lemma dec_to_Q_nonneg (d : decimal) : 0 <= coef d -> (0 <= dec_to_Q d)%Q.
Proof.
  intros H. unfold dec_to_Q. apply Qmult_le_0_compat.
  - rewrite <- (Zle_Qle 0). assumption.
  - apply Qlt_le_weak, pow10_pos.
Qed.

(** The quotient of a positive decimal by a positive integer is within two
    parts in 10^27 of the exact quotient. *)
Lemma dec_div_decimal_error (n : decimal) (b : Z) :
  0 < coef n -> 0 < b ->
  exists q,
    dec_div n (dec_of_Z b) = Some q
    /\ 0 <= coef q
    /\ (dec_to_Q n / inject_Z b * (1 - (2 # 1000000000000000000000000000))
        <= dec_to_Q q
        <= dec_to_Q n / inject_Z b
           * (1 + (2 # 1000000000000000000000000000)))%Q.
Proof.
  intros Hn Hb. destruct n as [a e]. cbn [coef] in Hn.
  rewrite (dec_div_shift a e b Hn Hb).
  destruct (dec_div_error a b Hn Hb) as (q & -> & Hq & L & U).
  exists (mkDec (coef q) (expo q + e)). split; [reflexivity|].
  split; [exact Hq|].
  rewrite dec_to_Q_shift.
  assert (Hv : (dec_to_Q (mkDec a e) == inject_Z a * inject_Z 10 ^ e)%Q)
    by reflexivity.
  rewrite Hv.
  assert (Hq' : (dec_to_Q (mkDec (coef q) (expo q)) == dec_to_Q q)%Q)
    by (destruct q; reflexivity).
  rewrite Hq'.
  pose proof (pow10_pos e) as Hp.
  set (P := (inject_Z 10 ^ e)%Q) in *.
  set (A := inject_Z a) in *. set (B := inject_Z b) in *.
  assert (HB : (0 < B)%Q) by (unfold B; rewrite <- (Zlt_Qlt 0); lia).
  set (V := dec_to_Q q) in *.
  setoid_replace (A * P / B * (1 - (2 # 1000000000000000000000000000)))%Q
    with (A / B * (1 - (2 # 1000000000000000000000000000)) * P)%Q
    by (field; lra).
  setoid_replace (A * P / B * (1 + (2 # 1000000000000000000000000000)))%Q
    with (A / B * (1 + (2 # 1000000000000000000000000000)) * P)%Q
    by (field; lra).
  split; apply scale_le; assumption.
Qed.

(** A rounded coefficient has at most 28 digits. *)
Lemma dec_fix_digits (d : decimal) :
  0 <= coef d -> coef (dec_fix d) < 10 ^ prec.
Proof.
  intros Hc. unfold dec_fix. rewrite (Z.abs_eq (coef d)) by assumption.
  set (n := coef d) in *. set (k := ndigits n - prec).
  destruct (k <=? 0) eqn:Ek.
  - apply Z.leb_le in Ek. fold n.
    destruct (Z.eq_dec n 0) as [->|Hnz]; [reflexivity|].
    destruct (ndigits_spec n ltac:(lia)) as [_ U].
    assert (10 ^ ndigits n <= 10 ^ prec)
      by (apply Z.pow_le_mono_r; unfold k in Ek; lia).
    lia.
  - apply Z.leb_gt in Ek.
    assert (Hn : 1 <= n).
    { destruct (Z.eq_dec n 0) as [E|]; [|lia].
      exfalso. unfold k in Ek. rewrite E in Ek. vm_compute in Ek.
      discriminate Ek. }
    destruct (ndigits_spec n Hn) as [L U].
    pose proof (round_half_even_bounds n k) as [Lq Uq].
    set (q := round_half_even n k) in *.
    assert (Hpk : 0 < 10 ^ k) by (apply Z.pow_pos_nonneg; lia).
    assert (Hdiv : n / 10 ^ k < 10 ^ prec).
    { apply Z.div_lt_upper_bound; [assumption|].
      rewrite <- Z.pow_add_r by (unfold prec; lia).
      replace (k + prec) with (ndigits n) by (unfold k; lia). exact U. }
    assert (Hlow : 10 ^ (prec - 1) <= n / 10 ^ k).
    { apply Z.div_le_lower_bound; [assumption|].
      rewrite <- Z.pow_add_r by (unfold prec; lia).
      replace (k + (prec - 1)) with (ndigits n - 1) by (unfold k; lia).
      exact L. }
    assert (Hs : Z.sgn n = 1) by (apply Z.sgn_pos; lia).
    rewrite Hs, !Z.mul_1_l.
    destruct (prec <? ndigits q) eqn:Ec; cbn [coef].
    + apply Z.div_lt_upper_bound; [lia|].
      assert (10 ^ prec < 10 * 10 ^ prec) by (unfold prec; lia).
      lia.
    + apply Z.ltb_ge in Ec.
      assert (Hq1 : 1 <= q).
      { assert (0 < 10 ^ (prec - 1))
          by (apply Z.pow_pos_nonneg; unfold prec; lia). lia. }
      destruct (ndigits_spec q Hq1) as [_ Uqq].
      assert (10 ^ ndigits q <= 10 ^ prec)
        by (apply Z.pow_le_mono_r; lia).
      lia.
Qed.

(** ** dict_get *)

Section DictGetFacts.
Import DictGet.

Variable sep : ascii.

Lemma split_not_nil (s : string) : split sep s <> [].
Proof.
  destruct s as [|c s]; cbn [split]; [discriminate|].
  destruct (Ascii.eqb c sep); [discriminate|].
  destruct (split sep s); discriminate.
Qed.

Lemma split_length (s : string) :
  (List.length (split sep s) <= S (String.length s))%nat.
Proof.
  induction s as [|c s IH]; cbn [split String.length List.length]; [lia|].
  destruct (Ascii.eqb c sep); cbn [List.length]; [lia|].
  destruct (split sep s); cbn [List.length] in *; lia.
Qed.

(** Joining the parts gives the string back. *)
Lemma join_split (s : string) :
  join (String sep EmptyString) (split sep s) = s.
Proof.
  induction s as [|c s IH]; [reflexivity|].
  cbn [split]. destruct (Ascii.eqb c sep) eqn:E.
  - apply Ascii.eqb_eq in E. subst c.
    pose proof (split_not_nil s) as Hn.
    destruct (split sep s) as [|p ps] eqn:Es; [contradiction|].
    cbn [join String.append] in *. now rewrite IH.
  - destruct (split sep s) as [|p ps] eqn:Es; [now destruct (split_not_nil s)|].
    destruct ps as [|p' ps]; cbn [join String.append] in *; now rewrite <- IH.
Qed.

(** No part has the separator. *)
Lemma split_parts_plain (s : string) :
  Forall (fun p => split sep p = [p]) (split sep s).
Proof.
  induction s as [|c s IH]; cbn [split].
  - constructor; [reflexivity | constructor].
  - destruct (Ascii.eqb c sep) eqn:E.
    + constructor; [reflexivity | exact IH].
    + pose proof (split_not_nil s) as Hn.
      destruct (split sep s) as [|p ps]; [contradiction|].
      inversion IH as [|? ? Hp Hps]; subst.
      constructor; [|exact Hps].
      cbn [split]. now rewrite E, Hp.
Qed.

Lemma split_append_plain (p s : string) :
  split sep p = [p] ->
  split sep (p ++ String sep s) = p :: split sep s.
Proof.
  revert s. induction p as [|c p IH]; intros s Hp.
  - cbn [String.append split]. now rewrite Ascii.eqb_refl.
  - cbn [String.append split] in *.
    destruct (Ascii.eqb c sep); [discriminate|].
    destruct (split sep p) as [|q qs] eqn:Ep; [now destruct (split_not_nil p)|].
    injection Hp as -> ->.
    now rewrite (IH s eq_refl).
Qed.

(** Splitting joined parts gives the parts back. *)
Lemma split_join (ps : list string) :
  ps <> [] ->
  Forall (fun p => split sep p = [p]) ps ->
  split sep (join (String sep EmptyString) ps) = ps.
Proof.
  induction ps as [|p ps IH]; intros Hn Hp; [contradiction|].
  inversion Hp as [|? ? Hp1 Hps]; subst.
  destruct ps as [|p' ps]; [exact Hp1|].
  cbn [join String.append].
  rewrite (split_append_plain p _ Hp1).
  f_equal. apply IH; [discriminate | exact Hps].
Qed.

End DictGetFacts.

Section DictGetWalk.
Import DictGet.

Lemma dict_get_fuel_walk (fuel : nat) : forall d path,
  (List.length (split "." path) <= fuel)%nat ->
  dict_get_fuel fuel d path = walk d (split "." path).
Proof.
  induction fuel as [|fuel IH]; intros d path Hlen.
  - destruct (split "." path) eqn:E; [now destruct (split_not_nil "." path)|].
    cbn [List.length] in Hlen. lia.
  - cbn [dict_get_fuel].
    pose proof (join_split "." path) as Hjoin.
    pose proof (split_parts_plain "." path) as Hplain.
    destruct (split "." path) as [|p ps] eqn:E;
      [now destruct (split_not_nil "." path)|].
    destruct ps as [|p' ps].
    + cbn [List.length Nat.ltb Nat.leb walk].
      cbn [join] in Hjoin. now subst p.
    + cbn [List.length Nat.ltb Nat.leb hd tl walk].
      destruct (get d p) as [v|]; [|reflexivity].
      inversion Hplain as [|? ? _ Hps]; subst.
      assert (Es : split "." (join "." (p' :: ps)) = p' :: ps)
        by (apply split_join; [discriminate | exact Hps]).
      rewrite IH; rewrite Es; [reflexivity|].
      cbn [List.length] in *. lia.
Qed.

Lemma dict_get_walk (d : value) (path : string) :
  dict_get d path = walk d (split "." path).
Proof. unfold dict_get. apply dict_get_fuel_walk. apply split_length. Qed.

End DictGetWalk.

(** X1.  dict_get follows the path key by key: [dict_get(d, 'k1.k2...kn')] is
    [d.get(k1).get(k2)...get(kn)], an AttributeError when one of the values
    on the way is not a dict. *)
Theorem dict_get_walks_path (d : DictGet.value) (path : string) :
  DictGet.dict_get d path = DictGet.walk d (DictGet.split "." path).
Proof. apply dict_get_walk. Qed.

(** X2.  For two keys without a dot, [dict_get(d, 'k1.k2')] is the value at [k2]
    of the dict at [k1]; it is [None] when [k2] is missing there, and an
    AttributeError when [k1] is missing in [d], since [d.get(k1)] is then
    [None]. *)
Theorem dict_get_two_keys (items : list (string * DictGet.value))
    (k1 k2 : string) :
  DictGet.plain k1 -> DictGet.plain k2 ->
  let path := (k1 ++ "." ++ k2)%string in
  (forall inner,
     DictGet.lookup k1 items = DictGet.VDict inner ->
     DictGet.dict_get (DictGet.VDict items) path
     = Some (DictGet.lookup k2 inner))
  /\ (DictGet.lookup k1 items = DictGet.VNone ->
      DictGet.dict_get (DictGet.VDict items) path = None).
Proof.
  intros H1 H2 path. unfold DictGet.plain in *.
  assert (E : DictGet.split "." path = [k1; k2]).
  { unfold path. cbn [String.append].
    rewrite (split_append_plain "." k1 k2 H1). now rewrite H2. }
  split; [intros inner Hl | intros Hl];
    rewrite dict_get_walk, E; cbn [DictGet.walk DictGet.get];
    rewrite Hl; reflexivity.
Qed.

Lemma dict_get_two_keys_witness :
  let transfer :=
    [("event", DictGet.VStr "Transfer");
     ("args", DictGet.VDict [("from", DictGet.VStr "0xA");
                             ("to", DictGet.VStr "0xB")])]%string in
  DictGet.dict_get (DictGet.VDict transfer) "args.to"
  = Some (DictGet.VStr "0xB")
  /\ DictGet.dict_get (DictGet.VDict transfer) "args.account"
     = Some DictGet.VNone
  /\ DictGet.dict_get (DictGet.VDict transfer) "returnValues.to" = None.
Proof.
  intros transfer.
  split; [|split].
  - apply (proj1 (dict_get_two_keys transfer "args" "to" eq_refl eq_refl)
             [("from", DictGet.VStr "0xA"); ("to", DictGet.VStr "0xB")]%string).
    reflexivity.
  - apply (proj1 (dict_get_two_keys transfer "args" "account" eq_refl eq_refl)
             [("from", DictGet.VStr "0xA"); ("to", DictGet.VStr "0xB")]%string).
    reflexivity.
  - apply (proj2 (dict_get_two_keys transfer "returnValues" "to"
                    eq_refl eq_refl)).
    reflexivity.
Defined.

(** ** load_address_list *)

Section AddressListFacts.

Variable toChecksumAddress : string -> option string.

(** The loop appends the checksum addresses of the lines it keeps, when
    every one of them is an address. *)
Lemma lines_loop_addresses (lines : list string) : forall found addresses,
  Forall2 (fun x address => toChecksumAddress x = Some address)
          (filter AddressList.is_address_line lines) found ->
  AddressList.lines_loop toChecksumAddress lines addresses
  = Return (addresses ++ found).
Proof.
  induction lines as [|x lines IH]; intros found addresses Hf.
  - cbn in Hf. inversion Hf. cbn. now rewrite app_nil_r.
  - cbn [filter] in Hf. cbn [AddressList.lines_loop].
    unfold AddressList.is_address_line in Hf.
    destruct (str_truthy x && negb (startswith x "#")).
    + inversion Hf as [|? a ? rest Hx Hrest]; subst.
      rewrite Hx. rewrite (IH rest); [|exact Hrest].
      now rewrite <- app_assoc.
    + now apply IH.
Qed.

(** The loop stops at the first line it keeps that is not an address. *)
Lemma lines_loop_invalid (lines : list string) : forall addresses,
  Exists (fun x => toChecksumAddress x = None)
         (filter AddressList.is_address_line lines) ->
  AddressList.lines_loop toChecksumAddress lines addresses = Raise ValueError.
Proof.
  induction lines as [|x lines IH]; intros addresses He.
  - cbn in He. inversion He.
  - cbn [filter] in He. cbn [AddressList.lines_loop].
    unfold AddressList.is_address_line in He.
    destruct (str_truthy x && negb (startswith x "#")).
    + destruct (toChecksumAddress x) as [a|] eqn:Hx; [|reflexivity].
      apply IH. inversion He as [? ? Hn|? ? Hr]; subst; [congruence | exact Hr].
    + now apply IH.
Qed.

End AddressListFacts.

(** X3.  load_address_list reads one address per line.  For a file made of
    lines joined by newlines, with or without a newline at the end, it
    returns the checksum addresses of the lines that are neither empty nor
    start with [#], in their order, when each of these lines is an address;
    it raises the ValueError of Web3.toChecksumAddress when one of them is
    not an address.  When the path is not a file it returns the empty list,
    and when the name is None it raises the TypeError of Path. *)
Theorem load_address_list_lines (toChecksumAddress : string -> option string)
    (file_at : string -> option string) (fname : string)
    (lines : list string) :
  lines <> [] ->
  Forall (fun x => DictGet.split "010" x = [x]) lines ->
  let load := AddressList.load_address_list toChecksumAddress file_at in
  let text := DictGet.join (String "010" EmptyString) lines in
  let text_newline :=
    DictGet.join (String "010" EmptyString) (lines ++ [EmptyString]) in
  let kept := filter AddressList.is_address_line lines in
  (forall addresses,
     Forall2 (fun x address => toChecksumAddress x = Some address)
             kept addresses ->
     file_at fname = Some text \/ file_at fname = Some text_newline ->
     load (Some fname) = Return addresses)
  /\ (Exists (fun x => toChecksumAddress x = None) kept ->
      file_at fname = Some text ->
      load (Some fname) = Raise ValueError)
  /\ (file_at fname = None -> load (Some fname) = Return [])
  /\ load None = Raise TypeError.
Proof.
  intros Hne Hlines load text text_newline kept.
  unfold load, AddressList.load_address_list.
  assert (E1 : DictGet.split "010" text = lines)
    by (apply split_join; assumption).
  assert (E2 : DictGet.split "010" text_newline = lines ++ [EmptyString]).
  { apply split_join; [now destruct lines|].
    apply Forall_app. split; [exact Hlines|].
    constructor; [reflexivity | constructor]. }
  split; [|split; [|split; [|reflexivity]]].
  - intros addresses Hf [Hfile|Hfile]; rewrite Hfile.
    + rewrite E1.
      now apply (lines_loop_addresses toChecksumAddress lines addresses []).
    + rewrite E2.
      apply (lines_loop_addresses toChecksumAddress _ addresses []).
      rewrite filter_app. cbn [filter].
      unfold AddressList.is_address_line at 2. cbn. now rewrite app_nil_r.
  - intros He Hfile. rewrite Hfile, E1. now apply lines_loop_invalid.
  - intros Hfile. now rewrite Hfile.
Qed.

Lemma load_address_list_lines_witness :
  let load :=
    AddressList.load_address_list LoadExamples.to_checksum
                                  LoadExamples.files in
  load (Some "blacklist.txt"%string)
  = Return [TransformLoad.USDT_ADDRESS; TransformLoad.WETH_ADDRESS]
  /\ load (Some "invalid.txt"%string) = Raise ValueError
  /\ load (Some "missing.txt"%string) = Return [].
Proof.
  intros load. split; [|split].
  - apply (proj1 (load_address_list_lines LoadExamples.to_checksum
                    LoadExamples.files "blacklist.txt"
                    ["# blacklist";
                     "0xdac17f958d2ee523a2206206994597c13d831ec7";
                     ""; "0xC02aaA39b223FE8D0A0e5C4F27eAD9083C756Cc2"]%string
                    ltac:(discriminate)
                    ltac:(repeat constructor))).
    + repeat constructor.
    + right. reflexivity.
  - apply (proj1 (proj2 (load_address_list_lines LoadExamples.to_checksum
                           LoadExamples.files "invalid.txt"
                           ["# blacklist"; "0xabc"]%string
                           ltac:(discriminate)
                           ltac:(repeat constructor)))).
    + apply Exists_cons_hd. reflexivity.
    + reflexivity.
  - apply (proj1 (proj2 (proj2 (load_address_list_lines
                                  LoadExamples.to_checksum
                                  LoadExamples.files "missing.txt"
                                  [""]%string
                                  ltac:(discriminate)
                                  ltac:(repeat constructor))))).
    reflexivity.
Defined.

(** ** ousd_value_adjustment *)

Lemma dec_div_zero (x : decimal) : dec_div x (dec_of_Z 0) = None.
Proof. reflexivity. Qed.

(** X4.  ousd_value_adjustment fails exactly when the target credits per token
    are 0, with the DivisionByZero (or InvalidOperation) of its last
    division; the division by 1e18 before it never fails. *)
Theorem ousd_value_adjustment_fails_on_zero_only (token_balance : num)
    (from_cpt to_cpt : Z) :
  (to_cpt = 0 ->
   ousd_value_adjustment token_balance from_cpt to_cpt
   = Raise DecimalException)
  /\ (to_cpt <> 0 ->
      exists v, ousd_value_adjustment token_balance from_cpt to_cpt
                = Return v).
Proof.
  split.
  - intros ->. unfold ousd_value_adjustment.
    destruct (div_res_nonzero
                (dec_mul (to_decimal token_balance) (dec_of_Z from_cpt))
                dec_1e18) as (q & ->); [discriminate|].
    cbn [bind]. unfold div_res. now rewrite dec_div_zero.
  - apply ousd_value_adjustment_returns.
Qed.

Lemma ousd_value_adjustment_fails_on_zero_only_witness :
  ousd_value_adjustment (PyInt (5 * 10 ^ 18)) (10 ^ 18) 0
  = Raise DecimalException
  /\ ousd_value_adjustment (PyInt (5 * 10 ^ 18)) (10 ^ 18) (8 * 10 ^ 17)
     = Return (625 * 10 ^ 16).
Proof.
  split.
  - exact (proj1 (ousd_value_adjustment_fails_on_zero_only
                    (PyInt (5 * 10 ^ 18)) (10 ^ 18) 0) eq_refl).
  - destruct (proj2 (ousd_value_adjustment_fails_on_zero_only
                       (PyInt (5 * 10 ^ 18)) (10 ^ 18) (8 * 10 ^ 17)))
      as (v & Hv); [discriminate|].
    rewrite Hv. vm_compute in Hv. injection Hv as <-. reflexivity.
Defined.

(** ** The participants *)

(** X5.  The participants of the Uniswap and Sushiswap scripts are the senders
    of the Mint transactions and the recipients of the Transfer events
    other than the zero address, each once. *)
Theorem uniswap_participants_exact (getTransaction : string -> Transaction)
    (mints : list MintEvent) (transfers : list TransferEvent)
    (participants : list string) :
  UniswapLps.discover getTransaction mints transfers = Return participants
  \/ SushiswapLps.discover getTransaction mints transfers
     = Return participants ->
  NoDup participants
  /\ forall x,
       In x participants
       <-> x <> ZERO_ADDRESS
           /\ (In x (map (fun m => tx_get_from
                                     (getTransaction (mint_transactionHash m))
                                     (mint_sender m)) mints)
               \/ In x (map transfer_to transfers)).
Proof.
  unfold UniswapLps.discover, SushiswapLps.discover.
  rewrite !discover_spec. intros H.
  assert (E : participants
              = first_occurrences
                  (filter nonzero
                     (map (fun m => tx_get_from
                                      (getTransaction (mint_transactionHash m))
                                      (mint_sender m)) mints
                      ++ map transfer_to transfers))).
  { destruct H as [H|H]; revert H;
      match goal with |- context [forallb ?f ?l] => destruct (forallb f l) end;
      intros H; try discriminate H; now injection H as <-. }
  subst participants. split; [apply first_occurrences_NoDup|].
  intros x. rewrite first_occurrences_In, filter_In, in_app_iff.
  unfold nonzero. rewrite negb_true_iff, String.eqb_neq. tauto.
Qed.

Lemma uniswap_participants_exact_witness :
  NoDup ["0xA"; "0xB"; "0xD"]%string
  /\ ~ In ZERO_ADDRESS ["0xA"; "0xB"; "0xD"]%string.
Proof.
  destruct (uniswap_participants_exact Examples.transactions
              [mkMint "0xT1" "0xROUTER"; mkMint "0xT2" "0xROUTER"]
              [mkTransfer "0xB"; mkTransfer ZERO_ADDRESS; mkTransfer "0xD"]
              ["0xA"; "0xB"; "0xD"]%string (or_introl eq_refl)) as (Hn & Hin).
  split; [exact Hn|].
  intros H. apply Hin in H. now destruct H as (H & _).
Defined.

(** X6.  The participants of the Mooniswap script are the accounts of the
    Deposited events and the recipients of the Transfer events, those of the
    SnowSwap script the users of the Staked events, the empty string left
    out and each once; events that come later only add participants at the
    end of the list. *)
Theorem mooniswap_participants_exact
    (deposits : list MooniswapLps.DepositedEvent)
    (transfers : list TransferEvent)
    (stakes : list SnowswapStakers.StakedEvent) :
  let mooniswap := MooniswapLps.discover deposits transfers in
  let snowswap := SnowswapStakers.discover stakes in
  (NoDup mooniswap
   /\ (forall x,
         In x mooniswap
         <-> x <> EmptyString
             /\ (In x (map MooniswapLps.deposited_account deposits)
                 \/ In x (map transfer_to transfers)))
   /\ (forall more,
         exists ext,
           MooniswapLps.discover deposits (transfers ++ more)
           = mooniswap ++ ext))
  /\ (NoDup snowswap
      /\ (forall x,
            In x snowswap
            <-> x <> EmptyString
                /\ In x (map SnowswapStakers.staked_user stakes))
      /\ (forall more,
            exists ext,
              SnowswapStakers.discover (stakes ++ more) = snowswap ++ ext)).
Proof.
  intros mooniswap snowswap. subst mooniswap snowswap.
  rewrite mooniswap_discover_spec, snowswap_discover_spec.
  split; (split; [apply first_occurrences_NoDup|]); split.
  - intros x. rewrite first_occurrences_In, filter_In, in_app_iff.
    unfold str_truthy. rewrite negb_true_iff, String.eqb_neq. tauto.
  - intros more.
    rewrite mooniswap_discover_spec, map_app, app_assoc, filter_app.
    apply first_occurrences_app.
  - intros x. rewrite first_occurrences_In, filter_In.
    unfold str_truthy. rewrite negb_true_iff, String.eqb_neq. tauto.
  - intros more. rewrite snowswap_discover_spec, map_app, filter_app.
    apply first_occurrences_app.
Qed.

(** ** The accuracy of ousd_value_adjustment *)

Lemma Qfloor_nonneg (x : Q) : (0 <= x)%Q -> 0 <= Qfloor x.
Proof.
  intros H. change 0 with (Qfloor 0). now apply Qfloor_resp_le.
Qed.

(** The credits: the floor of the rounded product over 10^18. *)
Lemma credits_accuracy (d : decimal) (from_cpt : Z) :
  0 <= coef d -> 0 <= from_cpt ->
  let exact := (dec_to_Q d * inject_Z from_cpt / inject_Z (10 ^ 18))%Q in
  (exact < 100000000000000000000000000)%Q ->
  exists q,
    dec_div (dec_mul d (dec_of_Z from_cpt)) dec_1e18 = Some q
    /\ 0 <= dec_floor q
    /\ Z.abs (dec_floor q - Qfloor exact) <= 1.
Proof.
  intros Hd Hf exact Hsize.
  unfold dec_mul. cbn [coef expo dec_of_Z].
  set (d0 := mkDec (coef d * from_cpt) (expo d + 0)).
  assert (Hd0 : 0 <= coef d0) by (cbn [coef d0]; nia).
  pose proof (dec_fix_error d0 Hd0) as Herr.
  pose proof (dec_fix_nonneg d0 Hd0) as Hnn.
  pose proof (dec_fix_digits d0 Hd0) as Hdig.
  assert (HX : (dec_to_Q d0 == dec_to_Q d * inject_Z from_cpt)%Q).
  { unfold d0.
    change (mkDec (coef d * from_cpt) (expo d + 0))
      with (mkDec (coef d * coef (dec_of_Z from_cpt))
                  (expo d + expo (dec_of_Z from_cpt))).
    rewrite dec_mul_value. unfold dec_to_Q at 2; cbn [coef expo dec_of_Z].
    change (inject_Z 10 ^ 0)%Q with 1%Q. ring. }
  destruct (dec_fix d0) as [n e] eqn:Em. cbn [coef] in Hnn, Hdig.
  destruct (dec_div_1e18_exact n e (conj Hnn Hdig)) as (q & Hq & Hv).
  exists q. split; [exact Hq|].
  rewrite dec_floor_Qfloor.
  pose proof (dec_to_Q_nonneg d Hd) as HD.
  assert (HF : (0 <= inject_Z from_cpt)%Q) by (rewrite <- (Zle_Qle 0); lia).
  assert (HXn : (0 <= dec_to_Q d * inject_Z from_cpt)%Q)
    by (apply Qmult_le_0_compat; assumption).
  set (X := (dec_to_Q d * inject_Z from_cpt)%Q) in *.
  rewrite HX in Herr.
  set (M := dec_to_Q (mkDec n e)) in *.
  assert (HE : (exact == X / inject_Z (10 ^ 18))%Q) by reflexivity.
  change (inject_Z (10 ^ 18)) with 1000000000000000000%Q in *.
  assert (Hq0 : (0 <= dec_to_Q q)%Q).
  { rewrite Hv. apply Qle_shift_div_l; lra. }
  split; [now apply Qfloor_nonneg|].
  assert (Hex : (exact * 1000000000000000000 == X)%Q)
    by (rewrite HE; field).
  assert (Hqv : (dec_to_Q q * 1000000000000000000 == M)%Q)
    by (rewrite Hv; field).
  apply floors_within_one.
  - apply (Qmult_lt_r _ _ 1000000000000000000); [reflexivity|].
    rewrite Hqv.
    setoid_replace ((exact - 1) * 1000000000000000000)%Q
      with (X - 1000000000000000000)%Q by (rewrite <- Hex; ring).
    lra.
  - apply (Qmult_lt_r _ _ 1000000000000000000); [reflexivity|].
    rewrite Hqv.
    setoid_replace ((exact + 1) * 1000000000000000000)%Q
      with (X + 1000000000000000000)%Q by (rewrite <- Hex; ring).
    lra.
Qed.

(** The conversion back: the floor of the rounded quotient of the rounded
    product. *)
Lemma tokens_accuracy (credits to_cpt : Z) :
  0 <= credits -> 0 < to_cpt ->
  credits * 10 ^ 18 < to_cpt * 10 ^ 26 ->
  exists r,
    dec_div (dec_mul (dec_of_Z credits) dec_1e18) (dec_of_Z to_cpt) = Some r
    /\ Z.abs (dec_floor r - credits * 10 ^ 18 / to_cpt) <= 1.
Proof.
  intros Hc Ht Hsize.
  destruct (Z.eq_dec credits 0) as [->|Hnz].
  - exists (mkDec 0 0). split.
    + unfold dec_div. cbn [coef expo dec_of_Z].
      replace (to_cpt =? 0) with false by (symmetry; apply Z.eqb_neq; lia).
      reflexivity.
    + rewrite Z.mul_0_l, Z.div_0_l by lia. vm_compute. discriminate.
  - unfold dec_mul. cbn [coef expo dec_of_Z dec_1e18].
    set (d0 := mkDec (credits * 10 ^ 18) (0 + 0)).
    assert (Hd0 : 0 <= coef d0) by (cbn [coef d0]; lia).
    pose proof (dec_fix_error d0 Hd0) as Herr.
    assert (HV0 : (dec_to_Q d0 == inject_Z (credits * 10 ^ 18))%Q).
    { unfold d0, dec_to_Q; cbn [coef expo].
      change (inject_Z 10 ^ (0 + 0))%Q with 1%Q. ring. }
    rewrite HV0 in Herr.
    set (Y := inject_Z (credits * 10 ^ 18)) in *.
    assert (HY : (0 < Y)%Q) by (unfold Y; rewrite <- (Zlt_Qlt 0); lia).
    assert (Hpos : 0 < coef (dec_fix d0)).
    { apply dec_to_Q_pos. lra. }
    destruct (dec_div_decimal_error (dec_fix d0) to_cpt Hpos Ht)
      as (r & Hr & _ & L & U).
    exists r. split; [exact Hr|].
    rewrite dec_floor_Qfloor, Zdiv_Qdiv. fold Y.
    set (T := inject_Z to_cpt) in *.
    assert (HT : (0 < T)%Q) by (unfold T; rewrite <- (Zlt_Qlt 0); lia).
    set (C := dec_to_Q (dec_fix d0)) in *.
    set (R := dec_to_Q r) in *.
    set (E := (Y / T)%Q).
    assert (HE : (E * T == Y)%Q) by (unfold E; field; lra).
    assert (HE0 : (0 < E)%Q).
    { apply (Qmult_lt_r _ _ T HT). rewrite HE. lra. }
    assert (HE26 : (E < 100000000000000000000000000)%Q).
    { apply (Qmult_lt_r _ _ T HT). rewrite HE.
      change (100000000000000000000000000)%Q with (inject_Z (10 ^ 26)).
      unfold Y, T. rewrite <- inject_Z_mult, <- Zlt_Qlt. lia. }
    assert (HC : (C / T == C * (1 / T))%Q) by (field; lra).
    assert (HEi : (E == Y * (1 / T))%Q) by (unfold E; field; lra).
    assert (Hi : (0 < 1 / T)%Q) by (apply Qlt_shift_div_l; lra).
    set (I := (1 / T)%Q) in *.
    rewrite HC in L, U.
    assert (HCI : (E * (1 - (1 # 1000000000000000000000000000)) <= C * I
                   <= E * (1 + (1 # 1000000000000000000000000000)))%Q).
    { rewrite HEi. destruct Herr as [L1 U1]. split.
      - setoid_replace (Y * I * (1 - (1 # 1000000000000000000000000000)))%Q
          with (Y * (1 - (1 # 1000000000000000000000000000)) * I)%Q by ring.
        apply scale_le; assumption.
      - setoid_replace (Y * I * (1 + (1 # 1000000000000000000000000000)))%Q
          with (Y * (1 + (1 # 1000000000000000000000000000)) * I)%Q by ring.
        apply scale_le; assumption. }
    set (W := (C * I)%Q) in *.
    apply floors_within_one; nra.
Qed.

(** X7.  ousd_value_adjustment follows integer arithmetic to within one unit at
    each of its two floors.  For a non-negative balance, non-negative
    current credits per token and positive target credits per token, the
    credits it computes are within one of the floor of
    [balance * from_cpt / 10^18], and its result is within one of the floor
    of [credits * 10^18 / to_cpt], when the exact credits are below 10^26
    and the exact credits plus one, times 10^18, are below
    [to_cpt * 10^26]. *)
Theorem ousd_value_adjustment_within_one (token_balance : num)
    (from_cpt to_cpt : Z) :
  0 <= coef (to_decimal token_balance) -> 0 <= from_cpt -> 0 < to_cpt ->
  let exact_credits :=
    Qfloor (dec_to_Q (to_decimal token_balance) * inject_Z from_cpt
            / inject_Z (10 ^ 18)) in
  exact_credits < 10 ^ 26 ->
  (exact_credits + 1) * 10 ^ 18 < to_cpt * 10 ^ 26 ->
  exists credits v,
    ousd_value_adjustment token_balance from_cpt to_cpt = Return v
    /\ Z.abs (credits - exact_credits) <= 1
    /\ Z.abs (v - credits * 10 ^ 18 / to_cpt) <= 1.
Proof.
  intros Hd Hf Ht exact_credits Hsize Hback.
  set (exact := (dec_to_Q (to_decimal token_balance) * inject_Z from_cpt
                 / inject_Z (10 ^ 18))%Q) in *.
  assert (Hex : (exact < 100000000000000000000000000)%Q).
  { pose proof (Qlt_floor exact) as Hfl. fold exact_credits in Hfl.
    apply Qlt_le_trans with (1 := Hfl).
    change (100000000000000000000000000)%Q with (inject_Z (10 ^ 26)).
    rewrite <- Zle_Qle. lia. }
  destruct (credits_accuracy (to_decimal token_balance) from_cpt Hd Hf Hex)
    as (q & Hq & Hq0 & Hqa).
  fold exact in Hqa. fold exact_credits in Hqa.
  destruct (tokens_accuracy (dec_floor q) to_cpt Hq0 Ht) as (r & Hr & Hra);
    [nia|].
  exists (dec_floor q), (dec_floor r).
  split; [|split; assumption].
  unfold ousd_value_adjustment, div_res. rewrite Hq. cbn [bind].
  rewrite Hr. reflexivity.
Qed.

Lemma ousd_value_adjustment_within_one_witness :
  let exact_credits :=
    Qfloor (dec_to_Q (to_decimal (PyInt 1234567890123456789012345))
            * inject_Z 987654321098765432 / inject_Z (10 ^ 18)) in
  exact_credits < 10 ^ 26
  /\ exists credits v,
       ousd_value_adjustment (PyInt 1234567890123456789012345)
                             987654321098765432 876543210987654321
       = Return v
       /\ Z.abs (credits - exact_credits) <= 1
       /\ Z.abs (v - credits * 10 ^ 18 / 876543210987654321) <= 1.
Proof.
  intros exact_credits.
  assert (Hsize : exact_credits < 10 ^ 26) by (vm_compute; reflexivity).
  assert (Hback : (exact_credits + 1) * 10 ^ 18
                  < 876543210987654321 * 10 ^ 26)
    by (vm_compute; reflexivity).
  split; [exact Hsize|].
  apply (ousd_value_adjustment_within_one
           (PyInt 1234567890123456789012345) 987654321098765432
           876543210987654321);
    [vm_compute; discriminate | vm_compute; discriminate
    | vm_compute; reflexivity | exact Hsize | exact Hback].
Defined.

(** ** The printed amounts against the exact shares *)

Lemma reserve_shares_accuracy (ra rb lp denom : Z) (ab : num * num) :
  reserve_shares ra rb lp denom = Return ab ->
  0 <= ra -> 0 <= rb -> 0 <= lp -> 0 < denom ->
  (ra * lp < denom * 10 ^ 26 ->
   Z.abs (num_floor (fst ab) - ra * lp / denom) <= 1)
  /\ (rb * lp < denom * 10 ^ 26 ->
      Z.abs (num_floor (snd ab) - rb * lp / denom) <= 1).
Proof.
  unfold reserve_shares, div_res. intros H Ha Hb Hlp Hd.
  destruct (lp =? 0) eqn:E.
  - apply Z.eqb_eq in E. subst lp. injection H as <-. cbn [fst snd num_floor].
    rewrite !Z.mul_0_r, Z.div_0_l by lia. split; intros _; lia.
  - apply Z.eqb_neq in E.
    destruct (dec_div (dec_of_Z lp) (dec_of_Z denom)) as [q|] eqn:Hq;
      cbn [bind] in H; [|discriminate].
    injection H as <-. cbn [fst snd num_floor].
    split; intros Hsize; apply scaled_quotient_floor; try assumption; lia.
Qed.

Section UniswapAccuracy.
Import UniswapLps.

Variable balanceOf : string -> N.
Variables total_supply a_supply b_supply : N.
Variables a b : string.
Variable current_cpt : Z.
Hypothesis supply_positive : 0 < Z.of_N total_supply - MINIMUM_LIQUIDITY.

Lemma uni_rows_accuracy (hs : list string) : forall st st' out e,
  holders_loop balanceOf total_supply a_supply b_supply a b None current_cpt
               hs st = (st', out, e) ->
  Forall (within_one_of_share (Z.of_N a_supply) (Z.of_N b_supply)
            (Z.of_N total_supply - MINIMUM_LIQUIDITY)) out.
Proof.
  induction hs as [|h hs IH]; intros st st' out e H.
  - cbn in H. injection H as <- <- <-. constructor.
  - cbn [holders_loop] in H.
    destruct (holder_step _ _ _ _ _ _ _ _ h st) as [[st1 row]|e1] eqn:Hs.
    + destruct (holders_loop _ _ _ _ _ _ _ _ hs st1) as [[st2 out2] e2] eqn:Hl.
      injection H as <- <- <-.
      constructor; [|exact (IH _ _ _ _ Hl)].
      apply uni_step_inv in Hs.
      destruct Hs as (ab & Hab & _ & _ & Hr2 & Hv).
      destruct (Hv eq_refl) as (Hv0 & Hv1).
      unfold within_one_of_share. rewrite Hr2, Hv0, Hv1.
      apply (reserve_shares_accuracy _ _ _ _ _ Hab); lia.
    + injection H as <- <- <-. constructor.
Qed.

End UniswapAccuracy.

Section SushiswapAccuracy.
Import SushiswapLps.

Variable balanceOf : string -> N.
Variable master_chef_address : string.
Variable userInfo : Z -> string -> N.
Variables total_supply a_supply b_supply : N.
Variables a b : string.
Variable current_cpt : Z.
Variable pair_pool_id : Z.
Hypothesis supply_positive : 0 < Z.of_N total_supply - MINIMUM_LIQUIDITY.

Lemma sushi_step_row (addr : string) (st st' : totals) (row : lp_row) :
  holder_step balanceOf master_chef_address userInfo total_supply a_supply
              b_supply a b None current_cpt pair_pool_id addr st
  = Return (st', Some row) ->
  exists ab,
    reserve_shares (Z.of_N a_supply) (Z.of_N b_supply) (row_lp_balance row)
                   (Z.of_N total_supply - MINIMUM_LIQUIDITY) = Return ab
    /\ 0 <= row_lp_balance row
    /\ row_token0_value row = num_floor (fst ab)
    /\ row_token1_value row = num_floor (snd ab).
Proof.
  unfold holder_step.
  destruct (String.eqb addr master_chef_address).
  - destruct (div_res _ _); cbn [bind]; discriminate.
  - destruct (reserve_shares _ _ _ _) as [ab|e] eqn:Hab; cbn [bind];
      [|discriminate].
    cbn [adjust_balances bind]. intros H. injection H as <- <-.
    exists ab. cbn [row_lp_balance row_token0_value row_token1_value].
    split; [exact Hab|]. split; [lia|]. split; reflexivity.
Qed.

Lemma sushi_rows_accuracy (hs : list string) : forall st st' out e,
  holders_loop balanceOf master_chef_address userInfo total_supply a_supply
               b_supply a b None current_cpt pair_pool_id hs st
  = (st', out, e) ->
  Forall (within_one_of_share (Z.of_N a_supply) (Z.of_N b_supply)
            (Z.of_N total_supply - MINIMUM_LIQUIDITY)) out.
Proof.
  induction hs as [|h hs IH]; intros st st' out e H.
  - cbn in H. injection H as <- <- <-. constructor.
  - cbn [holders_loop] in H.
    destruct (holder_step _ _ _ _ _ _ _ _ _ _ _ h st) as [[st1 row]|e1] eqn:Hs.
    + destruct (holders_loop _ _ _ _ _ _ _ _ _ _ _ hs st1)
        as [[st2 out2] e2] eqn:Hl.
      injection H as <- <- <-.
      pose proof (IH _ _ _ _ Hl) as F.
      destruct row as [row|]; [|exact F].
      constructor; [|exact F].
      apply sushi_step_row in Hs.
      destruct Hs as (ab & Hab & Hpos & Hv0 & Hv1).
      unfold within_one_of_share. rewrite Hv0, Hv1.
      apply (reserve_shares_accuracy _ _ _ _ _ Hab); lia.
    + injection H as <- <- <-. constructor.
Qed.

End SushiswapAccuracy.

Section MooniswapAccuracy.
Import MooniswapLps.

Variable balanceOf : string -> N.
Variables total_supply a_supply b_supply : N.
Variables a b : string.
Variable current_cpt : Z.
Hypothesis supply_positive : 0 < Z.of_N total_supply.

Lemma mooni_step_row (addr : string) (st st' : totals) (row : lp_row) :
  holder_step balanceOf total_supply a_supply b_supply a b None current_cpt
              addr st = Return (st', row) ->
  exists ab,
    reserve_shares (Z.of_N a_supply) (Z.of_N b_supply) (row_lp_balance row)
                   (Z.of_N total_supply) = Return ab
    /\ 0 <= row_lp_balance row
    /\ row_token0_value row = num_floor (fst ab)
    /\ row_token1_value row = num_floor (snd ab).
Proof.
  unfold holder_step.
  destruct (reserve_shares _ _ _ _) as [ab|e] eqn:Hab; cbn [bind];
    [|discriminate].
  cbn [adjust_balances bind]. intros H. injection H as <- <-.
  exists ab. cbn [row_lp_balance row_token0_value row_token1_value].
  split; [exact Hab|]. split; [lia|]. split; reflexivity.
Qed.

Lemma mooni_rows_accuracy (hs : list string) : forall st st' out e,
  holders_loop balanceOf total_supply a_supply b_supply a b None current_cpt
               hs st = (st', out, e) ->
  Forall (within_one_of_share (Z.of_N a_supply) (Z.of_N b_supply)
            (Z.of_N total_supply)) out.
Proof.
  induction hs as [|h hs IH]; intros st st' out e H.
  - cbn in H. injection H as <- <- <-. constructor.
  - cbn [holders_loop] in H.
    destruct (holder_step _ _ _ _ _ _ _ _ h st) as [[st1 row]|e1] eqn:Hs.
    + destruct (holders_loop _ _ _ _ _ _ _ _ hs st1) as [[st2 out2] e2] eqn:Hl.
      injection H as <- <- <-.
      constructor; [|exact (IH _ _ _ _ Hl)].
      apply mooni_step_row in Hs.
      destruct Hs as (ab & Hab & Hpos & Hv0 & Hv1).
      unfold within_one_of_share. rewrite Hv0, Hv1.
      apply (reserve_shares_accuracy _ _ _ _ _ Hab); lia.
    + injection H as <- <- <-. constructor.
Qed.

End MooniswapAccuracy.

(** X8.  Without [--credits-per-token], every amount an LP script prints is
    within one unit of the floor of the exact share
    [reserve * lp_balance / denom] whenever that share is below 10^26; the
    denominator is [total_supply - MINIMUM_LIQUIDITY] for Uniswap and
    Sushiswap, where the balance is the combined one, and [total_supply]
    for Mooniswap. *)
Theorem lp_amounts_within_one (balanceOf : string -> N)
    (master_chef_address : string) (userInfo : Z -> string -> N)
    (total_supply a_supply b_supply : N) (a b : string)
    (current_cpt pair_pool_id : Z) (holders : list string) :
  MINIMUM_LIQUIDITY < Z.of_N total_supply ->
  let attributable := Z.of_N total_supply - MINIMUM_LIQUIDITY in
  Forall (within_one_of_share (Z.of_N a_supply) (Z.of_N b_supply) attributable)
    (fst (UniswapLps.attribute balanceOf total_supply a_supply b_supply a b
            None current_cpt holders))
  /\ Forall (within_one_of_share (Z.of_N a_supply) (Z.of_N b_supply)
               attributable)
       (fst (SushiswapLps.attribute balanceOf master_chef_address userInfo
               total_supply a_supply b_supply a b None current_cpt
               pair_pool_id holders))
  /\ Forall (within_one_of_share (Z.of_N a_supply) (Z.of_N b_supply)
               (Z.of_N total_supply))
       (fst (MooniswapLps.attribute balanceOf total_supply a_supply b_supply
               a b None current_cpt holders)).
Proof.
  intros Hsupply attributable. subst attributable.
  assert (H1 : 0 < Z.of_N total_supply - MINIMUM_LIQUIDITY) by lia.
  assert (H2 : 0 < Z.of_N total_supply)
    by (unfold MINIMUM_LIQUIDITY in Hsupply; lia).
  split; [|split].
  - unfold UniswapLps.attribute.
    destruct (UniswapLps.holders_loop _ _ _ _ _ _ _ _ holders _)
      as [[st out] e] eqn:Hl.
    apply (uni_rows_accuracy _ _ _ _ _ _ _ H1) in Hl.
    destruct e; exact Hl.
  - unfold SushiswapLps.attribute.
    destruct (SushiswapLps.holders_loop _ _ _ _ _ _ _ _ _ _ _ holders _)
      as [[st out] e] eqn:Hl.
    apply (sushi_rows_accuracy _ _ _ _ _ _ _ _ _ _ H1) in Hl.
    destruct e; exact Hl.
  - unfold MooniswapLps.attribute.
    destruct (MooniswapLps.holders_loop _ _ _ _ _ _ _ _ holders _)
      as [[st out] e] eqn:Hl.
    apply (mooni_rows_accuracy _ _ _ _ _ _ _ H2) in Hl.
    destruct e; exact Hl.
Qed.

Lemma lp_amounts_within_one_witness :
  MINIMUM_LIQUIDITY < Z.of_N 2479046863748766334391
  /\ Forall (within_one_of_share (Z.of_N 9634204159224655393987466)
               (Z.of_N 5000000000000)
               (Z.of_N 2479046863748766334391 - MINIMUM_LIQUIDITY))
       (fst (UniswapLps.attribute Examples.two_holders
               2479046863748766334391 9634204159224655393987466
               5000000000000 "0xOUSD" "0xUSDT" None 0 ["0xA"; "0xB"]%string)).
Proof.
  assert (H : MINIMUM_LIQUIDITY < Z.of_N 2479046863748766334391)
    by (vm_compute; reflexivity).
  split; [exact H|].
  pose proof (lp_amounts_within_one Examples.two_holders "0xCHEF"
                Examples.no_stake 2479046863748766334391
                9634204159224655393987466 5000000000000 "0xOUSD" "0xUSDT"
                0 0 ["0xA"; "0xB"]%string H) as Hall.
  cbv zeta in Hall. exact (proj1 Hall).
Defined.

(** ** The OGN amount against the exact quotient *)

Lemma ogn_amount_accuracy (usd p : Z) :
  0 <= usd -> 0 < p ->
  exists q,
    dec_div (dec_of_Z usd) (dec_of_Z p) = Some q
    /\ (usd * 10 ^ 18 < p * 10 ^ 26 ->
        Z.abs (dec_floor (dec_mul q dec_1e18) - usd * 10 ^ 18 / p) <= 1).
Proof.
  intros Husd Hp.
  destruct (Z.eq_dec usd 0) as [->|Hnz].
  - exists (mkDec 0 0). split.
    + unfold dec_div. cbn [coef expo dec_of_Z].
      replace (p =? 0) with false by (symmetry; apply Z.eqb_neq; lia).
      reflexivity.
    + intros _. rewrite Z.mul_0_l, Z.div_0_l by lia.
      vm_compute. discriminate.
  - destruct (dec_div_error usd p ltac:(lia) Hp) as (q & Hq & _).
    exists q. split; [exact Hq|]. intros Hsize.
    rewrite dec_mul_comm, (Z.mul_comm usd).
    change dec_1e18 with (dec_of_Z (10 ^ 18)).
    apply scaled_quotient_floor; try assumption; lia.
Qed.

(** X9.  Above the split threshold, when the threshold is a non-negative integer
    [t], the split ratio a decimal [cr / 10^k] of [0, 1], the eligible
    balance times [10^k] has at most 28 digits and the OGN price is a
    positive integer [p] of units of 10^-18 USD, the OGN compensation is
    computed without an exception and is within one unit of the floor of the
    exact [secondary_usd * 10^18 / p] when that is below 10^26. *)
Theorem ogn_compensation_within_one (self : Account) (t cr k p : Z) :
  split_threshold (params self) = dec_of_Z t ->
  ousd_ogn_split (params self) = mkDec cr (- k) ->
  ogn_price_usd (params self) = dec_of_Z p ->
  0 <= t -> 0 <= k -> 0 <= cr <= 10 ^ k -> 0 < p ->
  eligible_balance_usd self * 10 ^ k < 10 ^ prec ->
  t < eligible_balance_usd self ->
  let above_split := eligible_balance_usd self - t in
  let secondary_usd := above_split - above_split * cr / 10 ^ k in
  exists ogn,
    adjusted_ogn_compensation self = Return ogn
    /\ (secondary_usd * 10 ^ 18 < p * 10 ^ 26 ->
        Z.abs (ogn - secondary_usd * 10 ^ 18 / p) <= 1).
Proof.
  intros Hthr Hsplit Hprice Ht Hk Hcr Hp Hsize Habove above_split
         secondary_usd.
  assert (Hf : 0 <= above_split * cr / 10 ^ k <= above_split).
  { assert (HP : 0 < 10 ^ k) by (apply Z.pow_pos_nonneg; lia).
    assert (0 <= above_split) by (unfold above_split; lia).
    split; [apply Z.div_pos | apply Z.div_le_upper_bound]; nia. }
  destruct (ogn_amount_accuracy secondary_usd p) as (q & Hq & Hacc);
    [unfold secondary_usd; lia | assumption |].
  exists (dec_floor (dec_mul q dec_1e18)). split; [|exact Hacc].
  unfold adjusted_ogn_compensation.
  rewrite Hthr at 1. rewrite dec_leb_int.
  replace (eligible_balance_usd self <=? t) with false
    by (symmetry; apply Z.leb_gt; lia).
  rewrite (sanity_check_holds self t cr k) by assumption.
  rewrite (ogn_usd_value_exact self t cr k) by assumption.
  rewrite Hprice. cbn [negb]. unfold div_res.
  fold above_split. fold secondary_usd.
  rewrite Hq. reflexivity.
Qed.

Lemma ogn_compensation_within_one_witness :
  let self :=
    Examples.holder Examples.main_params 2105238529845171346380379 in
  10 ^ 21 < eligible_balance_usd self
  /\ exists ogn,
      adjusted_ogn_compensation self = Return ogn
      /\ Z.abs (ogn
                - (eligible_balance_usd self - 10 ^ 21
                   - (eligible_balance_usd self - 10 ^ 21) * 25 / 10 ^ 2)
                  * 10 ^ 18 / (1492 * 10 ^ 14)) <= 1.
Proof.
  intros self.
  assert (Habove : 10 ^ 21 < eligible_balance_usd self)
    by (vm_compute; reflexivity).
  assert (Hsize : eligible_balance_usd self * 10 ^ 2 < 10 ^ prec)
    by (vm_compute; reflexivity).
  assert (Ht : 0 <= 10 ^ 21) by (vm_compute; discriminate).
  assert (Hk : 0 <= 2) by (vm_compute; discriminate).
  assert (Hcr : 0 <= 25 <= 10 ^ 2) by (vm_compute; split; discriminate).
  assert (Hp : 0 < 1492 * 10 ^ 14) by (vm_compute; reflexivity).
  split; [exact Habove|].
  pose proof (ogn_compensation_within_one self (10 ^ 21) 25 2
                (1492 * 10 ^ 14) eq_refl eq_refl eq_refl Ht Hk Hcr Hp Hsize
                Habove) as H.
  cbv zeta in H. destruct H as (ogn & Hret & Hacc).
  exists ogn. split; [exact Hret|].
  apply Hacc. vm_compute. reflexivity.
Defined.

(** ** The --credits-per-token override of the LP scripts *)

Lemma adjust_balances_override (a b : string) (c cur : Z) (x y : num) :
  c <> 0 ->
  exists x' y',
    adjust_balances a b (Some c) cur x y = Return (x', y')
    /\ (a <> OUSD_ADDRESS -> x' = x)
    /\ (b <> OUSD_ADDRESS -> y' = y).
Proof.
  intros Hc. unfold adjust_balances.
  destruct (String.eqb a OUSD_ADDRESS) eqn:Ea;
    [apply String.eqb_eq in Ea | apply String.eqb_neq in Ea];
    (destruct (String.eqb b OUSD_ADDRESS) eqn:Eb;
     [apply String.eqb_eq in Eb | apply String.eqb_neq in Eb]);
    cbn [andb];
    destruct (num_truthy x); destruct (num_truthy y);
    try (destruct (ousd_value_adjustment_returns x cur c Hc) as (v & Hv));
    try (destruct (ousd_value_adjustment_returns y cur c Hc) as (w & Hw));
    try rewrite Hv; try rewrite Hw; cbn [bind];
    eexists; eexists;
    (split; [reflexivity|]);
    (split; intros H; first [reflexivity | contradiction]).
Qed.

Section UniswapOverride.
Import UniswapLps.

Variable balanceOf : string -> N.
Variables total_supply a_supply b_supply : N.
Variables a b : string.
Variable current_cpt : Z.
Variable c : Z.
Hypothesis c_nonzero : c <> 0.

Let step0 :=
  holder_step balanceOf total_supply a_supply b_supply a b None current_cpt.
Let step1 :=
  holder_step balanceOf total_supply a_supply b_supply a b (Some c) current_cpt.
Let loop0 :=
  holders_loop balanceOf total_supply a_supply b_supply a b None current_cpt.
Let loop1 :=
  holders_loop balanceOf total_supply a_supply b_supply a b (Some c)
               current_cpt.

Lemma uni_step_override (addr : string) (st : totals) :
  match step0 addr st, step1 addr st with
  | Return (s0, r0), Return (s1, r1) => s1 = s0 /\ same_but_ousd a b r0 r1
  | Raise e0, Raise e1 => e1 = e0
  | _, _ => False
  end.
Proof.
  unfold step0, step1, holder_step.
  destruct (reserve_shares _ _ _ _) as [[x y]|e]; cbn [bind fst snd];
    [|reflexivity].
  destruct (adjust_balances_override a b c current_cpt x y c_nonzero)
    as (x' & y' & -> & Hx & Hy).
  cbn [adjust_balances bind fst snd].
  split; [reflexivity|].
  unfold same_but_ousd. cbn [row_lp_address row_lp_balance row_token0_value
                             row_token1_value].
  repeat split; intros H; [now rewrite (Hx H) | now rewrite (Hy H)].
Qed.

Lemma uni_loop_override (hs : list string) : forall st,
  match loop0 hs st, loop1 hs st with
  | (s0, out0, e0), (s1, out1, e1) =>
      s1 = s0 /\ e1 = e0 /\ Forall2 (same_but_ousd a b) out0 out1
  end.
Proof.
  induction hs as [|h hs IH]; intros st.
  - cbn. repeat split. constructor.
  - unfold loop0, loop1. cbn [holders_loop].
    pose proof (uni_step_override h st) as Hs. unfold step0, step1 in Hs.
    destruct (holder_step _ _ _ _ _ _ None _ h st) as [[s0 r0]|e0];
      destruct (holder_step _ _ _ _ _ _ (Some c) _ h st) as [[s1 r1]|e1];
      try contradiction.
    + destruct Hs as (-> & Hr).
      specialize (IH s0). unfold loop0, loop1 in IH.
      destruct (holders_loop _ _ _ _ _ _ None _ hs s0) as [[t0 o0] x0].
      destruct (holders_loop _ _ _ _ _ _ (Some c) _ hs s0) as [[t1 o1] x1].
      destruct IH as (-> & -> & HF).
      repeat split. now constructor.
    + subst e1. repeat split. constructor.
Qed.

End UniswapOverride.

Section SushiswapOverride.
Import SushiswapLps.

Variable balanceOf : string -> N.
Variable master_chef_address : string.
Variable userInfo : Z -> string -> N.
Variables total_supply a_supply b_supply : N.
Variables a b : string.
Variable current_cpt : Z.
Variable pair_pool_id : Z.
Variable c : Z.
Hypothesis c_nonzero : c <> 0.

Let step0 :=
  holder_step balanceOf master_chef_address userInfo total_supply a_supply
              b_supply a b None current_cpt pair_pool_id.
Let step1 :=
  holder_step balanceOf master_chef_address userInfo total_supply a_supply
              b_supply a b (Some c) current_cpt pair_pool_id.
Let loop0 :=
  holders_loop balanceOf master_chef_address userInfo total_supply a_supply
               b_supply a b None current_cpt pair_pool_id.
Let loop1 :=
  holders_loop balanceOf master_chef_address userInfo total_supply a_supply
               b_supply a b (Some c) current_cpt pair_pool_id.

Lemma sushi_step_override (addr : string) (st : totals) :
  match step0 addr st, step1 addr st with
  | Return (s0, Some r0), Return (s1, Some r1) =>
      s1 = s0 /\ same_but_ousd a b r0 r1
  | Return (s0, None), Return (s1, None) => s1 = s0
  | Raise e0, Raise e1 => e1 = e0
  | _, _ => False
  end.
Proof.
  unfold step0, step1, holder_step.
  destruct (String.eqb addr master_chef_address).
  - destruct (div_res _ _); cbn [bind]; reflexivity.
  - destruct (reserve_shares _ _ _ _) as [[x y]|e]; cbn [bind fst snd];
      [|reflexivity].
    destruct (adjust_balances_override a b c current_cpt x y c_nonzero)
      as (x' & y' & -> & Hx & Hy).
    cbn [adjust_balances bind fst snd].
    split; [reflexivity|].
    unfold same_but_ousd. cbn [row_lp_address row_lp_balance row_token0_value
                               row_token1_value].
    repeat split; intros H; [now rewrite (Hx H) | now rewrite (Hy H)].
Qed.

Lemma sushi_loop_override (hs : list string) : forall st,
  match loop0 hs st, loop1 hs st with
  | (s0, out0, e0), (s1, out1, e1) =>
      s1 = s0 /\ e1 = e0 /\ Forall2 (same_but_ousd a b) out0 out1
  end.
Proof.
  induction hs as [|h hs IH]; intros st.
  - cbn. repeat split. constructor.
  - unfold loop0, loop1. cbn [holders_loop].
    pose proof (sushi_step_override h st) as Hs. unfold step0, step1 in Hs.
    destruct (holder_step _ _ _ _ _ _ _ _ None _ _ h st) as [[s0 [r0|]]|e0];
      destruct (holder_step _ _ _ _ _ _ _ _ (Some c) _ _ h st)
        as [[s1 [r1|]]|e1];
      try contradiction.
    + destruct Hs as (-> & Hr).
      specialize (IH s0). unfold loop0, loop1 in IH.
      destruct (holders_loop _ _ _ _ _ _ _ _ None _ _ hs s0) as [[t0 o0] x0].
      destruct (holders_loop _ _ _ _ _ _ _ _ (Some c) _ _ hs s0)
        as [[t1 o1] x1].
      destruct IH as (-> & -> & HF).
      repeat split. now constructor.
    + subst s1.
      specialize (IH s0). unfold loop0, loop1 in IH.
      destruct (holders_loop _ _ _ _ _ _ _ _ None _ _ hs s0) as [[t0 o0] x0].
      destruct (holders_loop _ _ _ _ _ _ _ _ (Some c) _ _ hs s0)
        as [[t1 o1] x1].
      exact IH.
    + subst e1. repeat split. constructor.
Qed.

End SushiswapOverride.

Section MooniswapOverride.
Import MooniswapLps.

Variable balanceOf : string -> N.
Variables total_supply a_supply b_supply : N.
Variables a b : string.
Variable current_cpt : Z.
Variable c : Z.
Hypothesis c_nonzero : c <> 0.

Let step0 :=
  holder_step balanceOf total_supply a_supply b_supply a b None current_cpt.
Let step1 :=
  holder_step balanceOf total_supply a_supply b_supply a b (Some c) current_cpt.
Let loop0 :=
  holders_loop balanceOf total_supply a_supply b_supply a b None current_cpt.
Let loop1 :=
  holders_loop balanceOf total_supply a_supply b_supply a b (Some c)
               current_cpt.

Lemma mooni_step_override (addr : string) (st : totals) :
  match step0 addr st, step1 addr st with
  | Return (s0, r0), Return (s1, r1) => s1 = s0 /\ same_but_ousd a b r0 r1
  | Raise e0, Raise e1 => e1 = e0
  | _, _ => False
  end.
Proof.
  unfold step0, step1, holder_step.
  destruct (reserve_shares _ _ _ _) as [[x y]|e]; cbn [bind fst snd];
    [|reflexivity].
  destruct (adjust_balances_override a b c current_cpt x y c_nonzero)
    as (x' & y' & -> & Hx & Hy).
  cbn [adjust_balances bind fst snd].
  split; [reflexivity|].
  unfold same_but_ousd. cbn [row_lp_address row_lp_balance row_token0_value
                             row_token1_value].
  repeat split; intros H; [now rewrite (Hx H) | now rewrite (Hy H)].
Qed.

Lemma mooni_loop_override (hs : list string) : forall st,
  match loop0 hs st, loop1 hs st with
  | (s0, out0, e0), (s1, out1, e1) =>
      s1 = s0 /\ e1 = e0 /\ Forall2 (same_but_ousd a b) out0 out1
  end.
Proof.
  induction hs as [|h hs IH]; intros st.
  - cbn. repeat split. constructor.
  - unfold loop0, loop1. cbn [holders_loop].
    pose proof (mooni_step_override h st) as Hs. unfold step0, step1 in Hs.
    destruct (holder_step _ _ _ _ _ _ None _ h st) as [[s0 r0]|e0];
      destruct (holder_step _ _ _ _ _ _ (Some c) _ h st) as [[s1 r1]|e1];
      try contradiction.
    + destruct Hs as (-> & Hr).
      specialize (IH s0). unfold loop0, loop1 in IH.
      destruct (holders_loop _ _ _ _ _ _ None _ hs s0) as [[t0 o0] x0].
      destruct (holders_loop _ _ _ _ _ _ (Some c) _ hs s0) as [[t1 o1] x1].
      destruct IH as (-> & -> & HF).
      repeat split. now constructor.
    + subst e1. repeat split. constructor.
Qed.

End MooniswapOverride.

(** X10.  A [--credits-per-token] override other than 0 changes nothing but the
    printed amounts of OUSD in a run of the Uniswap, the Sushiswap or the
    Mooniswap script: the run ends the same way, since the checks are made
    on the amounts before the adjustment, and it prints the same holders
    with the same share balances and the same amounts of the other token. *)
Theorem override_changes_ousd_only (balanceOf : string -> N)
    (master_chef_address : string) (userInfo : Z -> string -> N)
    (total_supply a_supply b_supply : N) (a b : string)
    (current_cpt pair_pool_id c : Z) (holders : list string) :
  c <> 0 ->
  same_run_but_ousd a b
    (UniswapLps.attribute balanceOf total_supply a_supply b_supply a b None
                          current_cpt holders)
    (UniswapLps.attribute balanceOf total_supply a_supply b_supply a b
                          (Some c) current_cpt holders)
  /\ same_run_but_ousd a b
       (SushiswapLps.attribute balanceOf master_chef_address userInfo
          total_supply a_supply b_supply a b None current_cpt pair_pool_id
          holders)
       (SushiswapLps.attribute balanceOf master_chef_address userInfo
          total_supply a_supply b_supply a b (Some c) current_cpt pair_pool_id
          holders)
  /\ same_run_but_ousd a b
       (MooniswapLps.attribute balanceOf total_supply a_supply b_supply a b
                               None current_cpt holders)
       (MooniswapLps.attribute balanceOf total_supply a_supply b_supply a b
                               (Some c) current_cpt holders).
Proof.
  intros Hc. unfold same_run_but_ousd. split; [|split].
  - unfold UniswapLps.attribute.
    pose proof (uni_loop_override balanceOf total_supply a_supply b_supply a b
                  current_cpt c Hc holders
                  (UniswapLps.mkTotals 0 (PyInt 0) (PyInt 0))) as H.
    cbv zeta in H.
    destruct (UniswapLps.holders_loop _ _ _ _ _ _ None _ holders _)
      as [[s0 o0] e0].
    destruct (UniswapLps.holders_loop _ _ _ _ _ _ (Some c) _ holders _)
      as [[s1 o1] e1].
    destruct H as (-> & -> & HF).
    destruct e0; cbn [fst snd]; (split; [reflexivity | exact HF]).
  - unfold SushiswapLps.attribute.
    pose proof (sushi_loop_override balanceOf master_chef_address userInfo
                  total_supply a_supply b_supply a b current_cpt pair_pool_id
                  c Hc holders
                  (SushiswapLps.mkTotals 0 0 0 (PyInt 0) (PyInt 0))) as H.
    cbv zeta in H.
    destruct (SushiswapLps.holders_loop _ _ _ _ _ _ _ _ None _ _ holders _)
      as [[s0 o0] e0].
    destruct (SushiswapLps.holders_loop _ _ _ _ _ _ _ _ (Some c) _ _ holders _)
      as [[s1 o1] e1].
    destruct H as (-> & -> & HF).
    destruct e0; cbn [fst snd]; (split; [reflexivity | exact HF]).
  - unfold MooniswapLps.attribute.
    pose proof (mooni_loop_override balanceOf total_supply a_supply b_supply
                  a b current_cpt c Hc holders
                  (MooniswapLps.mkTotals 0 (PyInt 0) (PyInt 0))) as H.
    cbv zeta in H.
    destruct (MooniswapLps.holders_loop _ _ _ _ _ _ None _ holders _)
      as [[s0 o0] e0].
    destruct (MooniswapLps.holders_loop _ _ _ _ _ _ (Some c) _ holders _)
      as [[s1 o1] e1].
    destruct H as (-> & -> & HF).
    destruct e0; cbn [fst snd]; (split; [reflexivity | exact HF]).
Qed.

Lemma override_changes_ousd_only_witness :
  let adjusted :=
    UniswapLps.attribute (Examples.holders3 500000 499000 0) 1000000 2000000
      300 OUSD_ADDRESS "0xUSDT" (Some (9 * 10 ^ 17)) (10 ^ 18)
      ["0xA"; "0xB"]%string in
  9 * 10 ^ 17 <> 0
  /\ snd adjusted = None
  /\ map row_token0_value (fst adjusted) = [1112223; 1109997]
  /\ map row_token1_value (fst adjusted)
     = map row_token1_value (fst Examples.scenario_a).
Proof.
  intros adjusted. subst adjusted.
  assert (Hc : 9 * 10 ^ 17 <> 0) by discriminate.
  split; [exact Hc|].
  destruct (override_changes_ousd_only
              (Examples.holders3 500000 499000 0) "0xCHEF" Examples.no_stake
              1000000 2000000 300 OUSD_ADDRESS "0xUSDT" (10 ^ 18) 0
              (9 * 10 ^ 17) ["0xA"; "0xB"]%string Hc)
    as ((He & HF) & _).
  split; [rewrite He; vm_compute; reflexivity|].
  split; [vm_compute; reflexivity|].
  vm_compute. reflexivity.
Defined.

(** ** The search for the pool of sushiswap_lps.py *)

Lemma find_pool_spec (poolInfo : Z -> string) (pair_address : string)
    (n : nat) :
  match SushiswapLps.find_pool poolInfo pair_address n with
  | Some pid =>
      0 <= pid < Z.of_nat n
      /\ poolInfo pid = pair_address
      /\ forall j, pid < j < Z.of_nat n -> poolInfo j <> pair_address
  | None => forall j, 0 <= j < Z.of_nat n -> poolInfo j <> pair_address
  end.
Proof.
  induction n as [|m IH]; cbn [SushiswapLps.find_pool]; [intros j Hj; lia|].
  destruct (String.eqb (poolInfo (Z.of_nat m)) pair_address) eqn:E.
  - apply String.eqb_eq in E. split; [lia|]. split; [exact E|].
    intros j Hj. lia.
  - apply String.eqb_neq in E.
    destruct (SushiswapLps.find_pool poolInfo pair_address m) as [pid|].
    + destruct IH as (Hr & Hp & Hj). split; [lia|]. split; [exact Hp|].
      intros j Hlt. destruct (Z.eq_dec j (Z.of_nat m)) as [->|Hne];
        [exact E | apply Hj; lia].
    + intros j Hlt. destruct (Z.eq_dec j (Z.of_nat m)) as [->|Hne];
        [exact E | apply IH; lia].
Qed.

Lemma find_pool_unique (poolInfo : Z -> string) (pair_address : string)
    (n : nat) (pid : Z) :
  0 <= pid < Z.of_nat n ->
  poolInfo pid = pair_address ->
  (forall j, pid < j < Z.of_nat n -> poolInfo j <> pair_address) ->
  SushiswapLps.find_pool poolInfo pair_address n = Some pid.
Proof.
  intros Hr Hp Hj. pose proof (find_pool_spec poolInfo pair_address n) as H.
  destruct (SushiswapLps.find_pool poolInfo pair_address n) as [pid'|].
  - destruct H as (Hr' & Hp' & Hj'). f_equal.
    destruct (Z.lt_trichotomy pid pid') as [Hlt|[->|Hgt]]; [|reflexivity|].
    + now destruct (Hj pid' ltac:(lia)).
    + now destruct (Hj' pid ltac:(lia)).
  - now destruct (H pid Hr).
Qed.

Section PoolSearch.

Variable getTransaction : string -> Transaction.
Variable balanceOf : string -> N.
Variable master_chef_address : string.
Variable pool_length : N.
Variable poolInfo : Z -> string.
Variable userInfo : Z -> string -> N.
Variables total_supply a_supply b_supply : N.
Variables a b : string.
Variable credits_per_token : option Z.
Variable current_cpt : Z.

Let main :=
  SushiswapLps.main getTransaction balanceOf master_chef_address pool_length
    poolInfo userInfo total_supply a_supply b_supply a b credits_per_token
    current_cpt.

(** X11.  The Sushiswap script looks for the pair among the pools 0 to
    [pool_length - 2] of MasterChef; the pool [pool_length - 1] is not looked
    at.  Without a match there the run ends with exit status 1 before its
    first line; otherwise the highest matching pool id is the one whose
    stakes are read. *)
Theorem sushiswap_pool_search (pair_address : string)
    (mints : list MintEvent) (transfers : list TransferEvent) :
  str_truthy pair_address = true ->
  let n := Z.of_N pool_length - 1 in
  ((forall j, 0 <= j < n -> poolInfo j <> pair_address) ->
   main pair_address mints transfers = ([], Some SysExit))
  /\ (forall pid,
        0 <= pid < n -> poolInfo pid = pair_address ->
        (forall j, pid < j < n -> poolInfo j <> pair_address) ->
        main pair_address mints transfers
        = match SushiswapLps.discover getTransaction mints transfers with
          | Raise e => ([], Some e)
          | Return addresses_of_interest =>
              SushiswapLps.attribute balanceOf master_chef_address userInfo
                total_supply a_supply b_supply a b credits_per_token
                current_cpt pid addresses_of_interest
          end).
Proof.
  intros Hpair n. unfold main, SushiswapLps.main. rewrite Hpair. cbn [negb].
  fold n. split.
  - intros Hnone.
    pose proof (find_pool_spec poolInfo pair_address (Z.to_nat n)) as H.
    destruct (SushiswapLps.find_pool poolInfo pair_address (Z.to_nat n))
      as [pid|]; [|reflexivity].
    destruct H as (Hr & Hp & _). now destruct (Hnone pid ltac:(lia)).
  - intros pid Hr Hp Hj.
    rewrite (find_pool_unique poolInfo pair_address (Z.to_nat n) pid);
      [reflexivity | lia | exact Hp | intros j Hlt; apply Hj; lia].
Qed.

End PoolSearch.

Lemma sushiswap_pool_search_witness :
  let poolInfo (pid : Z) : string :=
    if pid =? 2 then "0xPAIR"%string else "0xOTHER"%string in
  SushiswapLps.main Examples.transactions (Examples.holders3 500 0 0)
    "0xCHEF" 3 poolInfo Examples.no_stake 1500 8 4 "0xOUSD" "0xUSDT" None 0
    "0xPAIR" [] [mkTransfer "0xA"]
  = ([], Some SysExit).
Proof.
  intros poolInfo.
  apply (sushiswap_pool_search Examples.transactions
           (Examples.holders3 500 0 0) "0xCHEF" 3 poolInfo Examples.no_stake
           1500 8 4 "0xOUSD" "0xUSDT" None 0 "0xPAIR" [] [mkTransfer "0xA"]
           eq_refl).
  intros j Hj. unfold poolInfo.
  replace (j =? 2) with false by (symmetry; apply Z.eqb_neq; lia).
  discriminate.
Defined.

(** ** The lines of uniswap_swaps.py *)

Lemma last_default {A : Type} (xs : list A) : forall x d d',
  List.last (x :: xs) d = List.last (x :: xs) d'.
Proof.
  induction xs as [|y ys IH]; intros x d d'; [reflexivity|].
  change (List.last (x :: y :: ys) d) with (List.last (y :: ys) d).
  change (List.last (x :: y :: ys) d') with (List.last (y :: ys) d').
  apply IH.
Qed.

Section SwapRows.
Import UniswapSwaps.

Variables a b : string.
Variable pair_address : string.
Variables token0 token1 : string.
Variable pair_token0 : string -> string.
Variable pair_token1 : string -> string.
Variable getTransactionReceipt : string -> Receipt.
Variable processReceipt : string -> list SwapEvent.
Variable rebasingCreditsPerToken : Z -> Z.
Variable credits_per_token : option Z.

Let classify :=
  classify a b pair_address token0 token1 pair_token0 pair_token1
           getTransactionReceipt processReceipt rebasingCreditsPerToken
           credits_per_token.

(** The loop [if swap.args.to != out_address: out_address = swap.args.to]
    ends with the recipient of the last swap. *)
Lemma out_address_last (swaps : list SwapEvent) : forall out d,
  fold_left (fun out swap =>
               if negb (String.eqb (to (event_args swap)) out)
               then to (event_args swap) else out)
            swaps out
  = match swaps with
    | [] => out
    | _ :: _ => to (event_args (List.last swaps d))
    end.
Proof.
  induction swaps as [|s swaps IH]; intros out d; [reflexivity|].
  cbn [fold_left]. rewrite (IH _ d).
  destruct swaps as [|s' swaps]; [|reflexivity].
  cbn [List.last].
  destruct (String.eqb (to (event_args s)) out) eqn:E; cbn [negb];
    [apply String.eqb_eq in E; now subst | reflexivity].
Qed.

(** The adjustment of the OUSD amount never fails: an override of 0 is no
    override, any other divides by itself. *)
Lemma classify_returns (event : SwapEvent) :
  exists r, classify event = Return r.
Proof.
  unfold classify, UniswapSwaps.classify.
  destruct (negb (receipt_status _)); [now eexists|].
  destruct (changes (event_args event)) as [a_change b_change].
  match goal with
  | |- context [match processReceipt ?h with _ => _ end] =>
      destruct (match processReceipt h with
                | [] => _ | first :: _ => _ end) as [[[rel tin] tout] out]
  end.
  destruct credits_per_token as [cpt|]; [|now eexists].
  destruct (cpt =? 0) eqn:E; [now eexists|].
  apply Z.eqb_neq in E.
  destruct (ousd_value_adjustment_returns (PyInt a_change)
              (rebasingCreditsPerToken (event_blockNumber event)) cpt E)
    as (v & ->).
  now eexists.
Qed.

Lemma classify_skips_failed (event : SwapEvent) :
  receipt_status (getTransactionReceipt (event_transactionHash event)) = false ->
  classify event = Return None.
Proof.
  intros H. unfold classify, UniswapSwaps.classify. now rewrite H.
Qed.

Lemma classify_row (event : SwapEvent) :
  receipt_status (getTransactionReceipt (event_transactionHash event)) = true ->
  exists row, classify event = Return (Some row)
              /\ swap_tx_hash row = event_transactionHash event.
Proof.
  intros H. unfold classify, UniswapSwaps.classify. rewrite H. cbn [negb].
  destruct (changes (event_args event)) as [a_change b_change].
  match goal with
  | |- context [match processReceipt ?h with _ => _ end] =>
      destruct (match processReceipt h with
                | [] => _ | first :: _ => _ end) as [[[rel tin] tout] out]
  end.
  destruct credits_per_token as [cpt|];
    [|eexists; split; [reflexivity | reflexivity]].
  destruct (cpt =? 0) eqn:E; [eexists; split; reflexivity|].
  apply Z.eqb_neq in E.
  destruct (ousd_value_adjustment_returns (PyInt a_change)
              (rebasingCreditsPerToken (event_blockNumber event)) cpt E)
    as (v & ->).
  eexists; split; reflexivity.
Qed.


End SwapRows.

Section SwapLines.
Import UniswapSwaps.

Variables a b : string.
Variable pair_address : string.
Variables token0 token1 : string.
Variable pair_token0 : string -> string.
Variable pair_token1 : string -> string.
Variable getTransactionReceipt : string -> Receipt.
Variable processReceipt : string -> list SwapEvent.
Variable rebasingCreditsPerToken : Z -> Z.
Variable credits_per_token : option Z.

Let classify :=
  classify a b pair_address token0 token1 pair_token0 pair_token1
           getTransactionReceipt processReceipt rebasingCreditsPerToken
           credits_per_token.

(** What a printed line carries besides the amounts. *)
Lemma classify_inv (event : SwapEvent) (row : swap_row) :
  classify event = Return (Some row) ->
  let args := event_args event in
  let buy := is_left (direction_of args) in
  let swaps := processReceipt (event_transactionHash event) in
  receipt_status (getTransactionReceipt (event_transactionHash event)) = true
  /\ swap_in_address row
     = receipt_from (getTransactionReceipt (event_transactionHash event))
  /\ swap_token_out row = (if buy then token0 else token1)
  /\ swap_token1_amount row = snd (changes args)
  /\ match swaps with
     | [] =>
         swap_token0_relevance row = "unknown"%string
         /\ swap_out_address row = to args
         /\ swap_token_in row = (if buy then token1 else token0)
     | first :: _ =>
         let last := List.last swaps first in
         let first_is_pair := String.eqb (event_address first) pair_address in
         let last_is_pair := String.eqb (event_address last) pair_address in
         swap_token0_relevance row
         = relevance first_is_pair last_is_pair (direction_of args)
         /\ swap_out_address row = to (event_args last)
         /\ swap_token_in row
            = (if (first_is_pair && negb buy) || (last_is_pair && buy)
               then if buy then token1 else token0
               else if (amount1In (event_args first)
                        <? amount0In (event_args first))%N
                    then pair_token0 (event_address first)
                    else pair_token1 (event_address first))
     end.
Proof.
  intros H args buy swaps. subst args buy swaps. revert H.
  unfold classify, UniswapSwaps.classify.
  destruct (receipt_status _) eqn:Es; cbv beta iota delta [negb];
    [|discriminate].
  destruct (changes (event_args event)) as [a_change b_change] eqn:Ec.
  intros H.
  split; [reflexivity|].
  destruct (processReceipt (event_transactionHash event)) as [|first rest] eqn:Ep.
  - match type of H with
    | bind ?m _ = _ => destruct m as [v|e]
    end; cbn [bind] in H; [|discriminate].
    injection H as <-. cbn. repeat split.
  - rewrite (out_address_last (first :: rest) _ first) in H.
    match type of H with
    | context [if ?c then _ else _] => destruct c eqn:Eneither
    end.
    + match type of H with
      | context [if ?c then _ else _] => destruct c eqn:Efrom
      end.
      * match type of H with
        | bind ?m _ = _ => destruct m as [v|e]
        end; cbn [bind] in H; [|discriminate].
        injection H as <-. cbn [swap_in_address swap_token_out
          swap_token1_amount swap_token0_relevance swap_out_address
          swap_token_in snd].
        apply negb_true_iff in Eneither. rewrite Eneither.
        repeat split.
      * apply negb_true_iff in Eneither. apply negb_false_iff in Efrom.
        rewrite Efrom in Eneither. discriminate Eneither.
    + match type of H with
      | bind ?m _ = _ => destruct m as [v|e]
      end; cbn [bind] in H; [|discriminate].
      injection H as <-. cbn [swap_in_address swap_token_out
        swap_token1_amount swap_token0_relevance swap_out_address
        swap_token_in snd].
      apply negb_false_iff in Eneither. rewrite Eneither.
      repeat split.
Qed.

End SwapLines.

Section SwapTheorems.
Import UniswapSwaps.

Variables a b : string.
Variable pair_address : string.
Variables token0 token1 : string.
Variable pair_token0 : string -> string.
Variable pair_token1 : string -> string.
Variable getTransactionReceipt : string -> Receipt.
Variable processReceipt : string -> list SwapEvent.
Variable rebasingCreditsPerToken : Z -> Z.
Variable credits_per_token : option Z.

Let classify :=
  classify a b pair_address token0 token1 pair_token0 pair_token1
           getTransactionReceipt processReceipt rebasingCreditsPerToken
           credits_per_token.

Let main :=
  UniswapSwapsMain.main a b pair_address token0 token1 pair_token0
    pair_token1 getTransactionReceipt processReceipt rebasingCreditsPerToken
    credits_per_token.

(** X12.  The relevance label of a printed line.  Without a decoded swap in the
    receipt it is "unknown".  Otherwise it is "in" for a sale when the first
    swap of the transaction is on the pair, "out" for a purchase when the
    last swap is on the pair and the first is not, and "through" in every
    other case, a purchase whose first swap is on the pair included; the
    label "in+out" is never printed. *)
Theorem swap_relevance_label (event : SwapEvent) (row : swap_row) :
  classify event = Return (Some row) ->
  let args := event_args event in
  let buy := (amount1Out args <? amount0Out args)%N in
  let swaps := processReceipt (event_transactionHash event) in
  swap_token0_relevance row <> "in+out"%string
  /\ match swaps with
     | [] => swap_token0_relevance row = "unknown"%string
     | first :: _ =>
         let first_is_pair := String.eqb (event_address first) pair_address in
         let last_is_pair :=
           String.eqb (event_address (List.last swaps first)) pair_address in
         swap_token0_relevance row
         = (if first_is_pair then if buy then "through" else "in"
            else if last_is_pair && buy then "out" else "through")%string
     end.
Proof.
  intros H args buy swaps. subst args buy swaps.
  destruct (classify_inv _ _ _ _ _ _ _ _ _ _ _ _ _ H) as (_ & _ & _ & _ & Hs).
  unfold direction_of, relevance in Hs.
  destruct (processReceipt (event_transactionHash event)) as [|first rest].
  - destruct Hs as (-> & _). split; [discriminate | reflexivity].
  - destruct Hs as (-> & _).
    destruct (String.eqb (event_address first) pair_address),
      (String.eqb (event_address (List.last (first :: rest) first))
                  pair_address),
      (amount1Out (event_args event) <? amount0Out (event_args event))%N;
      split; (discriminate || reflexivity).
Qed.

(** X13.  The recipient of a printed line is the recipient of the last swap
    decoded from the receipt of the transaction, and the recipient of the
    event itself only when none is decoded. *)
Theorem swap_out_address_is_last_recipient (event : SwapEvent)
    (row : swap_row) :
  classify event = Return (Some row) ->
  let swaps := processReceipt (event_transactionHash event) in
  swap_out_address row
  = to (event_args (List.last swaps event))
  /\ swap_in_address row
     = receipt_from (getTransactionReceipt (event_transactionHash event)).
Proof.
  intros H swaps. subst swaps.
  destruct (classify_inv _ _ _ _ _ _ _ _ _ _ _ _ _ H) as (_ & Hin & _ & _ & Hs).
  split; [|exact Hin].
  destruct (processReceipt (event_transactionHash event)) as [|first rest].
  - now destruct Hs as (_ & -> & _).
  - destruct Hs as (_ & -> & _). f_equal. f_equal. apply last_default.
Qed.

(** X14.  The output token of a printed line is always a token of the pair
    itself, token0 for a purchase and token1 for a sale; the input token is
    taken from the first swap of the transaction when the swap on the pair
    is neither a sale that comes first nor a purchase that comes last. *)
Theorem swap_tokens_of_line (event : SwapEvent) (row : swap_row) :
  classify event = Return (Some row) ->
  let args := event_args event in
  let buy := (amount1Out args <? amount0Out args)%N in
  let swaps := processReceipt (event_transactionHash event) in
  swap_token_out row = (if buy then token0 else token1)
  /\ match swaps with
     | [] => swap_token_in row = (if buy then token1 else token0)
     | first :: _ =>
         let first_is_pair := String.eqb (event_address first) pair_address in
         let last_is_pair :=
           String.eqb (event_address (List.last swaps first)) pair_address in
         swap_token_in row
         = (if (first_is_pair && negb buy) || (last_is_pair && buy)
            then if buy then token1 else token0
            else if (amount1In (event_args first)
                     <? amount0In (event_args first))%N
                 then pair_token0 (event_address first)
                 else pair_token1 (event_address first))
     end.
Proof.
  intros H args buy swaps. subst args buy swaps.
  destruct (classify_inv _ _ _ _ _ _ _ _ _ _ _ _ _ H) as (_ & _ & Hout & _ & Hs).
  unfold direction_of in *.
  split; [revert Hout; now destruct (_ <? _)%N|].
  destruct (processReceipt (event_transactionHash event)) as [|first rest].
  - destruct Hs as (_ & _ & ->). now destruct (_ <? _)%N.
  - destruct Hs as (_ & _ & ->).
    destruct (amount1Out (event_args event) <? amount0Out (event_args event))%N;
      reflexivity.
Qed.


End SwapTheorems.

Lemma swap_relevance_label_witness :
  exists row1 row2,
    SwapExamples.classify SwapExamples.hop2 = Return (Some row1)
    /\ UniswapSwaps.swap_token0_relevance row1 = "out"%string
    /\ SwapExamples.classify SwapExamples.direct = Return (Some row2)
    /\ UniswapSwaps.swap_token0_relevance row2 = "through"%string.
Proof.
  destruct (SwapExamples.classify SwapExamples.hop2) as [[row1|]|] eqn:E1;
    try (vm_compute in E1; discriminate E1).
  destruct (SwapExamples.classify SwapExamples.direct) as [[row2|]|] eqn:E2;
    try (vm_compute in E2; discriminate E2).
  exists row1, row2.
  pose proof (swap_relevance_label _ _ _ _ _ _ _ _ _ _ _ _ _ E1) as (_ & H1).
  pose proof (swap_relevance_label _ _ _ _ _ _ _ _ _ _ _ _ _ E2) as (_ & H2).
  repeat split; [exact H1 | exact H2].
Defined.

Lemma swap_out_address_is_last_recipient_witness :
  exists row,
    SwapExamples.classify SwapExamples.hop1 = Return (Some row)
    /\ UniswapSwaps.swap_out_address row = "0xA"%string
    /\ UniswapSwaps.swap_in_address row = "0xA"%string.
Proof.
  destruct (SwapExamples.classify SwapExamples.hop1) as [[row|]|] eqn:E;
    try (vm_compute in E; discriminate E).
  exists row.
  pose proof (swap_out_address_is_last_recipient _ _ _ _ _ _ _ _ _ _ _ _ _ E)
    as (H1 & H2).
  repeat split; [exact H1 | exact H2].
Defined.

Lemma swap_tokens_of_line_witness :
  exists row1 row2,
    SwapExamples.classify SwapExamples.hop2 = Return (Some row1)
    /\ UniswapSwaps.swap_token_out row1 = "0xOUSD"%string
    /\ UniswapSwaps.swap_token_in row1 = "0xUSDT"%string
    /\ SwapExamples.classify SwapExamples.sale5 = Return (Some row2)
    /\ UniswapSwaps.swap_token_out row2 = "0xUSDT"%string
    /\ UniswapSwaps.swap_token_in row2 = "0xUSDC"%string.
Proof.
  destruct (SwapExamples.classify SwapExamples.hop2) as [[row1|]|] eqn:E1;
    try (vm_compute in E1; discriminate E1).
  destruct (SwapExamples.classify SwapExamples.sale5) as [[row2|]|] eqn:E2;
    try (vm_compute in E2; discriminate E2).
  exists row1, row2.
  pose proof (swap_tokens_of_line _ _ _ _ _ _ _ _ _ _ _ _ _ E1) as (H1 & H2).
  pose proof (swap_tokens_of_line _ _ _ _ _ _ _ _ _ _ _ _ _ E2) as (H3 & H4).
  repeat split; [exact H1 | exact H2 | exact H3 | exact H4].
Defined.


(** ** Eligibility under further swaps *)

Lemma dec_ltb_int_mono (d1 d2 : Z) (thr : decimal) :
  d1 <= d2 ->
  dec_ltb (dec_of_Z d2) thr = true -> dec_ltb (dec_of_Z d1) thr = true.
Proof.
  intros Hle. unfold dec_ltb, dec_compare, dec_of_Z. cbn [coef expo].
  set (e := Z.min 0 (expo thr)).
  assert (He : 0 <= 0 - e) by (unfold e; lia).
  pose proof (Z.pow_pos_nonneg 10 (0 - e) ltac:(lia) He) as Hp.
  set (P := 10 ^ (0 - e)) in *. set (T := coef thr * 10 ^ (expo thr - e)).
  assert (Hm : d1 * P <= d2 * P) by (apply Z.mul_le_mono_nonneg_r; lia).
  destruct (Z.compare_spec (d2 * P) T) as [E2|E2|E2]; intros H;
    try discriminate.
  destruct (Z.compare_spec (d1 * P) T) as [E1|E1|E1]; [lia | reflexivity | lia].
Qed.

(** An int below a threshold has every smaller int below it. *)
Lemma below_int_mono (d1 d2 : Z) (t : Eligibility.threshold) :
  d1 <= d2 ->
  Eligibility.below (Eligibility.Int d2) t = Return true ->
  Eligibility.below (Eligibility.Int d1) t = Return true.
Proof.
  intros Hle H. destruct t as [[n|y]|d]; cbn [Eligibility.below] in *;
    injection H as H; f_equal.
  - cbn [Eligibility.number_ltb] in *.
    apply Z.ltb_lt in H. apply Z.ltb_lt. lia.
  - cbn [Eligibility.number_ltb] in *.
    destruct y as [s|s| |s m e]; cbn [PyFloat.compare_int_float] in *;
      try discriminate.
    + destruct (Z.compare_spec d2 0); try discriminate.
      destruct (Z.compare_spec d1 0); [lia | reflexivity | lia].
    + exact H.
    + destruct (0 <=? e) eqn:E.
      * destruct (Z.compare_spec d2 (PyFloat.mantissa s m * 2 ^ e));
          try discriminate.
        destruct (Z.compare_spec d1 (PyFloat.mantissa s m * 2 ^ e));
          [lia | reflexivity | lia].
      * apply Z.leb_gt in E.
        assert (He : 0 < 2 ^ (- e)) by (apply Z.pow_pos_nonneg; lia).
        destruct (Z.compare_spec (d2 * 2 ^ (- e)) (PyFloat.mantissa s m));
          try discriminate.
        destruct (Z.compare_spec (d1 * 2 ^ (- e)) (PyFloat.mantissa s m));
          [nia | reflexivity | nia].
  - now apply (dec_ltb_int_mono d1 d2).
Qed.

(** The eligible balance for an integer ETH rate, as an int. *)
Lemma eligible_integer_bounds (self : Account) (rate : Z)
    (t : Eligibility.threshold) :
  Eligibility.nonnegative t = true ->
  let pre_incident := _ousd_balance_start self + _ousd_lp_start self in
  exists e,
    Eligibility.eligible_balance_usd (Eligibility.Int rate) t self
    = Return (Eligibility.Int e)
    /\ 0 <= e <= Z.max pre_incident 0
    /\ (pre_incident <= 0 -> e = 0).
Proof.
  intros Ht pre_incident.
  destruct (eligible_integer self rate t) as (small & Hs & He).
  fold pre_incident in Hs, He.
  eexists. split; [exact He|].
  destruct small; [lia|].
  pose proof (not_below_nonnegative _ _ Ht Hs) as Hn.
  cbn [Eligibility.negative Eligibility.number_ltb] in Hn.
  apply Z.ltb_ge in Hn. lia.
Qed.

(** The eligible balance does not grow with the trading gain. *)
Lemma eligible_antitone (self other : Account) (rate : Z)
    (t : Eligibility.threshold) :
  Eligibility.nonnegative t = true ->
  _ousd_balance_start other + _ousd_lp_start other
  = _ousd_balance_start self + _ousd_lp_start self ->
  Eligibility.integer_gain self rate <= Eligibility.integer_gain other rate ->
  exists e e',
    Eligibility.eligible_balance_usd (Eligibility.Int rate) t self
    = Return (Eligibility.Int e)
    /\ Eligibility.eligible_balance_usd (Eligibility.Int rate) t other
       = Return (Eligibility.Int e')
    /\ e' <= e.
Proof.
  intros Ht Hpre Hg.
  destruct (eligible_integer self rate t) as (small & Hs & He).
  destruct (eligible_integer other rate t) as (small' & Hs' & He').
  rewrite Hpre in Hs', He'.
  do 2 eexists. split; [exact He|]. split; [exact He'|].
  set (pre := _ousd_balance_start self + _ousd_lp_start self) in *.
  assert (Hd : pre - Z.max (Eligibility.integer_gain other rate) 0
               <= pre - Z.max (Eligibility.integer_gain self rate) 0) by lia.
  destruct small.
  - rewrite (below_int_mono _ _ t Hd Hs) in Hs'. injection Hs' as <-. lia.
  - pose proof (not_below_nonnegative _ _ Ht Hs) as Hn.
    cbn [Eligibility.negative Eligibility.number_ltb] in Hn.
    apply Z.ltb_ge in Hn. destruct small'; lia.
Qed.

Lemma sum_Z_app (xs ys : list Z) : sum_Z (xs ++ ys) = sum_Z xs + sum_Z ys.
Proof.
  unfold sum_Z. rewrite fold_left_app.
  rewrite fold_left_add_shift. lia.
Qed.

Lemma swap_in_app (swaps : list swap) (s : swap) :
  swap_in (swaps ++ [s])
  = swap_in swaps + (if Direction_eqb (snd s) RIGHT then snd (fst s) else 0).
Proof.
  unfold swap_in. rewrite map_app, sum_Z_app. cbn [map].
  unfold sum_Z at 2. cbn [fold_left]. lia.
Qed.

Lemma swap_out_app (swaps : list swap) (s : swap) :
  swap_out (swaps ++ [s])
  = swap_out swaps + (if Direction_eqb (snd s) LEFT then snd (fst s) else 0).
Proof.
  unfold swap_out. rewrite map_app, sum_Z_app. cbn [map].
  unfold sum_Z at 2. cbn [fold_left]. lia.
Qed.

Lemma trading_gain_virgox_sum (self : Account) :
  trading_gain_virgox self = sum_Z (_virgox_proceeds self).
Proof.
  unfold trading_gain_virgox. now destruct (_virgox_proceeds self).
Qed.

Section GainAfterSwap.

Variable self : Account.
Variables ousd_value v rate : Z.
Hypothesis v_nonneg : 0 <= v.
Hypothesis rate_nonneg : 0 <= rate.

Let gain := Eligibility.integer_gain self rate.

Lemma gain_after_usdt_swap :
  gain <= Eligibility.integer_gain
            (add_usdt_swap self (ousd_value, v, RIGHT)) rate
  /\ Eligibility.integer_gain
       (add_usdt_swap self (ousd_value, v, LEFT)) rate <= gain.
Proof.
  unfold gain, Eligibility.integer_gain, trading_gain_usdt, trading_gain_usdc,
    trading_gain_weth, trading_gain_virgox, usdt_swap_in, usdt_swap_out,
    usdc_swap_in, usdc_swap_out, weth_swap_in, weth_swap_out,
    convert_decimals, add_usdt_swap.
  cbn [_ousd_balance_start _ousd_lp_start _usdt_swaps _usdc_swaps _weth_swaps
       _virgox_proceeds params].
  rewrite !swap_in_app, !swap_out_app. cbn [snd fst Direction_eqb].
  set (c := 10 ^ (18 - 6)).
  assert (Hc : 0 < c) by reflexivity.
  destruct (_ousd_balance_start self + _ousd_lp_start self <=? 0);
    split; nia.
Qed.

Lemma gain_after_usdc_swap :
  gain <= Eligibility.integer_gain
            (add_usdc_swap self (ousd_value, v, RIGHT)) rate
  /\ Eligibility.integer_gain
       (add_usdc_swap self (ousd_value, v, LEFT)) rate <= gain.
Proof.
  unfold gain, Eligibility.integer_gain, trading_gain_usdt, trading_gain_usdc,
    trading_gain_weth, trading_gain_virgox, usdt_swap_in, usdt_swap_out,
    usdc_swap_in, usdc_swap_out, weth_swap_in, weth_swap_out,
    convert_decimals, add_usdc_swap.
  cbn [_ousd_balance_start _ousd_lp_start _usdt_swaps _usdc_swaps _weth_swaps
       _virgox_proceeds params].
  rewrite !swap_in_app, !swap_out_app. cbn [snd fst Direction_eqb].
  set (c := 10 ^ (18 - 6)).
  assert (Hc : 0 < c) by reflexivity.
  destruct (_ousd_balance_start self + _ousd_lp_start self <=? 0);
    split; nia.
Qed.

Lemma gain_after_weth_swap :
  gain <= Eligibility.integer_gain
            (add_weth_swap self (ousd_value, v, RIGHT)) rate
  /\ Eligibility.integer_gain
       (add_weth_swap self (ousd_value, v, LEFT)) rate <= gain.
Proof.
  unfold gain, Eligibility.integer_gain, trading_gain_usdt, trading_gain_usdc,
    trading_gain_weth, trading_gain_virgox, usdt_swap_in, usdt_swap_out,
    usdc_swap_in, usdc_swap_out, weth_swap_in, weth_swap_out,
    convert_decimals, add_weth_swap.
  cbn [_ousd_balance_start _ousd_lp_start _usdt_swaps _usdc_swaps _weth_swaps
       _virgox_proceeds params].
  rewrite !swap_in_app, !swap_out_app. cbn [snd fst Direction_eqb].
  destruct (_ousd_balance_start self + _ousd_lp_start self <=? 0);
    split; nia.
Qed.

Lemma gain_after_virgox_proceed :
  gain <= Eligibility.integer_gain (add_virgox_proceed self v) rate.
Proof.
  unfold gain, Eligibility.integer_gain.
  rewrite !trading_gain_virgox_sum.
  unfold trading_gain_usdt, trading_gain_usdc,
    trading_gain_weth, usdt_swap_in, usdt_swap_out,
    usdc_swap_in, usdc_swap_out, weth_swap_in, weth_swap_out,
    convert_decimals, add_virgox_proceed.
  cbn [_ousd_balance_start _ousd_lp_start _usdt_swaps _usdc_swaps _weth_swaps
       _virgox_proceeds params].
  rewrite sum_Z_app. unfold sum_Z at 3. cbn [fold_left]. lia.
Qed.

End GainAfterSwap.

(** X16.  With an integer ETH rate, the one the constructor of
    CalcParameters has by default, a further sale of OUSD for USDT, USDC or
    WETH, or a further sale on VirgoX, never raises the eligible balance of
    an account, and a further purchase never lowers it (amounts, the ETH
    rate and the minimum threshold being non-negative).  The eligible
    balance is an int in each case. *)
Theorem sales_never_raise_eligibility (self : Account)
    (ousd_value v rate : Z) (minimum_threshold : Eligibility.threshold) :
  0 <= v -> 0 <= rate ->
  Eligibility.nonnegative minimum_threshold = true ->
  let eligible_balance_usd :=
    Eligibility.eligible_balance_usd (Eligibility.Int rate)
                                     minimum_threshold in
  exists eligible,
    eligible_balance_usd self = Return (Eligibility.Int eligible)
    /\ (forall after,
          In after [ add_usdt_swap self (ousd_value, v, RIGHT);
                     add_usdc_swap self (ousd_value, v, RIGHT);
                     add_weth_swap self (ousd_value, v, RIGHT);
                     add_virgox_proceed self v ] ->
          exists e, eligible_balance_usd after = Return (Eligibility.Int e)
                    /\ e <= eligible)
    /\ (forall after,
          In after [ add_usdt_swap self (ousd_value, v, LEFT);
                     add_usdc_swap self (ousd_value, v, LEFT);
                     add_weth_swap self (ousd_value, v, LEFT) ] ->
          exists e, eligible_balance_usd after = Return (Eligibility.Int e)
                    /\ eligible <= e).
Proof.
  intros Hv Hr Ht eligible_balance_usd. subst eligible_balance_usd.
  pose proof (gain_after_usdt_swap self ousd_value v rate Hv) as (T1 & T2).
  pose proof (gain_after_usdc_swap self ousd_value v rate Hv) as (C1 & C2).
  pose proof (gain_after_weth_swap self ousd_value v rate Hv Hr) as (W1 & W2).
  pose proof (gain_after_virgox_proceed self v rate Hv) as V1.
  destruct (eligible_integer self rate minimum_threshold)
    as (small & _ & He).
  eexists. split; [exact He|]. split.
  - intros after Hin.
    assert (Hg : Eligibility.integer_gain self rate
                 <= Eligibility.integer_gain after rate
                 /\ _ousd_balance_start after + _ousd_lp_start after
                    = _ousd_balance_start self + _ousd_lp_start self).
    { destruct Hin as [<-|[<-|[<-|[<-|[]]]]]; split;
        solve [assumption | reflexivity]. }
    destruct Hg as (Hg & Hpre).
    destruct (eligible_antitone self after rate _ Ht Hpre Hg)
      as (e & e' & H1 & H2 & Hle).
    rewrite He in H1. injection H1 as <-. eauto.
  - intros after Hin.
    assert (Hg : Eligibility.integer_gain after rate
                 <= Eligibility.integer_gain self rate
                 /\ _ousd_balance_start self + _ousd_lp_start self
                    = _ousd_balance_start after + _ousd_lp_start after).
    { destruct Hin as [<-|[<-|[<-|[]]]]; split;
        solve [assumption | reflexivity]. }
    destruct Hg as (Hg & Hpre).
    destruct (eligible_antitone after self rate _ Ht Hpre Hg)
      as (e & e' & H1 & H2 & Hle).
    rewrite He in H2. injection H2 as <-. eauto.
Qed.

Lemma sales_never_raise_eligibility_witness :
  let self := Examples.holder default_params (5 * 10 ^ 18) in
  let eligible_balance_usd :=
    Eligibility.eligible_balance_usd
      (Eligibility.Int 600) (Eligibility.Dec (mkDec 0 0)) in
  eligible_balance_usd self = Return (Eligibility.Int (5 * 10 ^ 18))
  /\ exists e,
       eligible_balance_usd (add_usdt_swap self (10 ^ 18, 2 * 10 ^ 6, RIGHT))
       = Return (Eligibility.Int e)
       /\ e <= 5 * 10 ^ 18.
Proof.
  intros self eligible_balance_usd.
  assert (Hv : 0 <= 2 * 10 ^ 6) by (vm_compute; discriminate).
  assert (Hr : 0 <= 600) by (vm_compute; discriminate).
  destruct (sales_never_raise_eligibility self (10 ^ 18) (2 * 10 ^ 6) 600
              (Eligibility.Dec (mkDec 0 0)) Hv Hr eq_refl)
    as (eligible & He & Hsale & _).
  assert (E : eligible_balance_usd self
              = Return (Eligibility.Int (5 * 10 ^ 18)))
    by (vm_compute; reflexivity).
  split; [exact E|].
  unfold eligible_balance_usd in E. rewrite E in He. injection He as <-.
  apply Hsale. left. reflexivity.
Defined.

(** ** Bounds *)

(** X17.  With an integer ETH rate, the one the constructor of
    CalcParameters has by default, and a minimum threshold that is not
    negative, the eligible balance is an int that is neither negative nor
    more than the pre-incident balance, base plus pooled, and it is 0 when
    that balance is not positive. *)
Theorem eligible_balance_bounded (self : Account) (rate : Z)
    (minimum_threshold : Eligibility.threshold) :
  Eligibility.nonnegative minimum_threshold = true ->
  let pre_incident := _ousd_balance_start self + _ousd_lp_start self in
  exists eligible,
    Eligibility.eligible_balance_usd (Eligibility.Int rate)
      minimum_threshold self
    = Return (Eligibility.Int eligible)
    /\ 0 <= eligible <= Z.max pre_incident 0
    /\ (pre_incident <= 0 -> eligible = 0).
Proof. apply eligible_integer_bounds. Qed.

Lemma eligible_balance_bounded_witness :
  let self :=
    add_virgox_proceed (Examples.holder default_params 0) (10 ^ 18) in
  Eligibility.eligible_balance_usd
    (Eligibility.Int 600) (Eligibility.Number (Eligibility.Float PyFloat.float_1e16)) self
  = Return (Eligibility.Int 0).
Proof.
  intros self.
  destruct (eligible_balance_bounded self 600
              (Eligibility.Number (Eligibility.Float PyFloat.float_1e16))
              eq_refl)
    as (eligible & He & _ & H0).
  rewrite He. rewrite H0; [reflexivity|].
  vm_compute. discriminate.
Defined.

(** ** The sign of a rounded float *)

Section RoundingSign.
Import SpecFloat.

Lemma shr_1_nonneg (mrs : shr_record) :
  0 <= shr_m mrs -> 0 <= shr_m (shr_1 mrs).
Proof.
  destruct mrs as [m r s]. cbn [shr_m]. intros Hm.
  destruct m as [|p|p]; [cbn; lia | | lia].
  destruct p; cbn; lia.
Qed.

Lemma iter_shr_1_nonneg (p : positive) : forall mrs,
  0 <= shr_m mrs -> 0 <= shr_m (iter_pos shr_1 p mrs).
Proof.
  induction p as [p IH|p IH|]; intros mrs Hm; cbn [iter_pos].
  - apply IH, IH, shr_1_nonneg, Hm.
  - apply IH, IH, Hm.
  - apply shr_1_nonneg, Hm.
Qed.

Lemma shr_fexp_nonneg (m e : Z) (l : location) :
  0 <= m -> 0 <= shr_m (fst (shr_fexp 53 1024 m e l)).
Proof.
  intros Hm. unfold shr_fexp, shr.
  assert (H0 : 0 <= shr_m (shr_record_of_loc m l))
    by (destruct l as [|[| |]]; exact Hm).
  destruct (fexp 53 1024 (Zdigits2 m + e) - e) as [|p|p]; cbn [fst];
    try exact H0.
  now apply iter_shr_1_nonneg.
Qed.

(** A rounded float has the sign it is given, also when it is a zero or an
    infinity. *)
Lemma binary_round_aux_sign (sx : bool) (mx : positive) (ex : Z)
    (lx : location) :
  match binary_round_aux 53 1024 sx (Zpos mx) ex lx with
  | S754_zero s | S754_infinity s | S754_finite s _ _ => s = sx
  | S754_nan => False
  end.
Proof.
  unfold binary_round_aux.
  pose proof (shr_fexp_nonneg (Zpos mx) ex lx ltac:(lia)) as H1.
  destruct (shr_fexp 53 1024 (Zpos mx) ex lx) as [mrs' e'].
  cbn [fst] in H1.
  assert (H2 : 0 <= round_nearest_even (shr_m mrs') (loc_of_shr_record mrs')).
  { unfold round_nearest_even.
    destruct (loc_of_shr_record mrs') as [|[| |]]; try lia.
    destruct (Z.even (shr_m mrs')); lia. }
  pose proof (shr_fexp_nonneg _ e' loc_Exact H2) as H3.
  destruct (shr_fexp 53 1024 _ e' loc_Exact) as [mrs'' e''].
  cbn [fst] in H3.
  destruct (shr_m mrs'') as [|m|m]; [reflexivity | | lia].
  now destruct (e'' <=? 1024 - 53).
Qed.

Lemma binary_round_sign (sx : bool) (mx : positive) (ex : Z) :
  match binary_round 53 1024 sx mx ex with
  | S754_zero s | S754_infinity s | S754_finite s _ _ => s = sx
  | S754_nan => False
  end.
Proof.
  unfold binary_round.
  destruct (shl_align mx ex _) as [mz ez].
  apply binary_round_aux_sign.
Qed.

(** The nearest float to an int is no NaN, and it has the sign of the
    int. *)
Lemma nearest_float_sign (n : Z) :
  match PyFloat.nearest_float n with
  | S754_zero s | S754_infinity s | S754_finite s _ _ => s = (n <? 0)
  | S754_nan => False
  end.
Proof.
  unfold PyFloat.nearest_float, binary_normalize.
  destruct n as [|p|p]; [reflexivity | |].
  - apply (binary_round_sign false).
  - apply (binary_round_sign true).
Qed.

End RoundingSign.

(** ** An account without a pre-incident balance *)

Section NoBalance.
Import SpecFloat.

(** Floats that are not above zero, floats that are not below. *)
Let nonpos (x : PyFloat.float) : Prop :=
  match x with
  | S754_zero _ => True
  | S754_finite s _ _ | S754_infinity s => s = true
  | S754_nan => False
  end.

Let nonneg (x : PyFloat.float) : Prop :=
  match x with
  | S754_zero _ => True
  | S754_finite s _ _ | S754_infinity s => s = false
  | S754_nan => False
  end.

Lemma nearest_float_nonpos (n : Z) :
  n <= 0 -> nonpos (PyFloat.nearest_float n).
Proof.
  intros Hn. destruct n as [|p|p]; [exact I | lia |].
  pose proof (nearest_float_sign (Z.neg p)) as H. unfold nonpos.
  now destruct (PyFloat.nearest_float (Z.neg p)).
Qed.

Lemma nearest_float_signed (n : Z) :
  (n < 0 -> nonpos (PyFloat.nearest_float n))
  /\ (0 <= n -> nonneg (PyFloat.nearest_float n)).
Proof.
  split; intros Hn.
  - apply nearest_float_nonpos. lia.
  - destruct n as [|p|p]; [exact I | | lia].
    pose proof (nearest_float_sign (Z.pos p)) as H. unfold nonneg.
    now destruct (PyFloat.nearest_float (Z.pos p)).
Qed.

(** What is not above zero stays so when what is not below is taken from
    it. *)
Lemma float_sub_nonpos (p g : PyFloat.float) :
  nonpos p -> nonneg g -> nonpos (PyFloat.float_sub p g).
Proof.
  unfold nonpos, nonneg, PyFloat.float_sub.
  destruct p as [sp|sp| |sp mp ep], g as [sg|sg| |sg mg eg];
    intros Hp Hg; try contradiction; subst; cbn [SFsub negb]; auto.
  - now destruct sp, sg.
  - (* both finite *)
    set (ez := Z.min ep eg).
    destruct (shl_align mp ep ez) as [a ea], (shl_align mg eg ez) as [b eb].
    cbn [fst cond_Zopp]. unfold binary_normalize.
    replace (- Z.pos a - Z.pos b) with (Z.neg (a + b)) by lia.
    pose proof (binary_round_sign true (a + b) ez) as H.
    now destruct (binary_round 53 1024 true (a + b) ez).
Qed.

(** Below a non-negative threshold or not, what is not above zero is taken
    for zero. *)
Lemma below_nonpos (x : PyFloat.float) (t : Eligibility.threshold) :
  nonpos x ->
  Eligibility.nonnegative t = true ->
  exists small,
    Eligibility.below (Eligibility.Float x) t = Return small
    /\ Eligibility.equals_zero
         (if small then Eligibility.Int 0 else Eligibility.Float x) = true.
Proof.
  intros Hx Ht.
  assert (Hr : exists small,
             Eligibility.below (Eligibility.Float x) t = Return small).
  { destruct t as [w|d]; cbn [Eligibility.below]; [eauto|].
    destruct x as [s|s| |s m e]; cbn [PyFloat.dec_of_float]; eauto.
    contradiction. }
  destruct Hr as (small & Hs). exists small. split; [exact Hs|].
  destruct small; [reflexivity|].
  pose proof (not_below_nonnegative _ _ Ht Hs) as Hn.
  rewrite negative_float in Hn.
  destruct x as [s|s| |s m e]; cbn in Hx; subst;
    first [reflexivity | discriminate | contradiction].
Qed.

Lemma below_int_nonpos (n : Z) (t : Eligibility.threshold) :
  n <= 0 ->
  Eligibility.nonnegative t = true ->
  exists small,
    Eligibility.below (Eligibility.Int n) t = Return small
    /\ Eligibility.equals_zero
         (Eligibility.Int (if small then 0 else n)) = true.
Proof.
  intros Hn Ht. destruct (below_int n t) as (small & Hs).
  exists small. split; [exact Hs|].
  destruct small; [reflexivity|].
  pose proof (not_below_nonnegative _ _ Ht Hs) as H.
  cbn [Eligibility.negative Eligibility.number_ltb] in H.
  apply Z.ltb_ge in H. cbn [Eligibility.equals_zero]. apply Z.eqb_eq. lia.
Qed.

Lemma float_of_int_nearest (n : Z) :
  PyFloat.float_of_int n <> Raise OverflowError ->
  PyFloat.float_of_int n = Return (PyFloat.nearest_float n).
Proof.
  unfold PyFloat.float_of_int.
  now destruct (PyFloat.nearest_float n).
Qed.

Section Account.

Variable self : Account.
Variable minimum_threshold : Eligibility.threshold.

Let pre_incident := _ousd_balance_start self + _ousd_lp_start self.

Hypothesis no_balance : pre_incident <= 0.
Hypothesis threshold_nonneg :
  Eligibility.nonnegative minimum_threshold = true.

Lemma no_balance_no_flows :
  trading_gain_usdt self = 0 /\ trading_gain_usdc self = 0
  /\ trading_gain_weth self = 0.
Proof.
  unfold trading_gain_usdt, trading_gain_usdc, trading_gain_weth.
  fold pre_incident.
  replace (pre_incident <=? 0) with true
    by (symmetry; now apply Z.leb_le).
  auto.
Qed.

(** With a float for the ETH rate, the gain of the account is the float of
    its VirgoX proceeds. *)
Lemma no_balance_gain (y g : PyFloat.float) :
  match y with S754_zero _ | S754_finite _ _ _ => True | _ => False end ->
  PyFloat.float_of_int (trading_gain_virgox self) = Return g ->
  exists g',
    Eligibility.trading_gain_total_usd (Eligibility.Float y) self
    = Return (Eligibility.Float g')
    /\ (nonneg g' \/ Eligibility.negative (Eligibility.Float g') = true).
Proof.
  intros Hy Hg.
  destruct no_balance_no_flows as (Et & Ec & Ew).
  unfold Eligibility.trading_gain_total_usd, Eligibility._eth_to_usd.
  rewrite Et, Ec, Ew.
  change (convert_decimals 0 6 18 + convert_decimals 0 6 18) with 0.
  cbn [Eligibility.number_mul].
  change (PyFloat.float_of_int 0) with (Return (S754_zero false)).
  cbn [bind].
  assert (E : exists s, PyFloat.float_mul (S754_zero false) y = S754_zero s).
  { destruct y as [s|s| |s m e]; try contradiction; cbn; eauto. }
  destruct E as (s & ->).
  cbn [Eligibility.number_add].
  change (PyFloat.float_of_int 0) with (Return (S754_zero false)).
  cbn [bind].
  replace (PyFloat.float_add (S754_zero false) (S754_zero s))
    with (S754_zero false) by (now destruct s).
  cbn [Eligibility.number_add bind].
  rewrite Hg. cbn [bind].
  eexists. split; [reflexivity|].
  assert (Hn : g = PyFloat.nearest_float (trading_gain_virgox self)).
  { unfold PyFloat.float_of_int in Hg.
    destruct (PyFloat.nearest_float (trading_gain_virgox self));
      now inversion Hg. }
  pose proof (nearest_float_sign (trading_gain_virgox self)) as Hsign.
  rewrite <- Hn in Hsign. rewrite negative_float.
  destruct g as [sg|sg| |sg mg eg]; cbn; try contradiction.
  - left. now destruct sg.
  - unfold PyFloat.float_of_int in Hg. rewrite <- Hn in Hg. discriminate.
  - destruct sg; [now right | now left].
Qed.

End Account.

(** X27.  An account without a pre-incident balance, base plus pooled, gets
    the eligible balance zero, also with a float for the ETH rate as in
    main(): when the rate is finite, the minimum threshold not negative and
    the balance and the VirgoX proceeds within the range of a float,
    [eligible_balance_usd] returns a number that is equal to 0, so that main()
    leaves the account out of its output. *)
Theorem no_balance_no_eligibility (self : Account)
    (eth_value_usd : Eligibility.number)
    (minimum_threshold : Eligibility.threshold) :
  let pre_incident := _ousd_balance_start self + _ousd_lp_start self in
  pre_incident <= 0 ->
  match eth_value_usd with
  | Eligibility.Float (S754_nan | S754_infinity _) => False
  | _ => True
  end ->
  Eligibility.nonnegative minimum_threshold = true ->
  PyFloat.float_of_int pre_incident <> Raise OverflowError ->
  PyFloat.float_of_int (trading_gain_virgox self) <> Raise OverflowError ->
  exists v,
    Eligibility.eligible_balance_usd eth_value_usd minimum_threshold self
    = Return v
    /\ Eligibility.equals_zero v = true.
Proof.
  intros pre_incident Hpre Hrate Ht Hp Hv.
  destruct eth_value_usd as [rate|y].
  - (* an int *)
    destruct (eligible_integer self rate minimum_threshold)
      as (small & Hs & He).
    fold pre_incident in Hs, He.
    set (diff := pre_incident
                 - Z.max (Eligibility.integer_gain self rate) 0) in *.
    destruct (below_int_nonpos diff minimum_threshold ltac:(unfold diff; lia)
                Ht) as (small' & Hs' & Hz).
    rewrite Hs in Hs'. injection Hs' as <-.
    eexists. split; [exact He | exact Hz].
  - (* a float *)
    apply float_of_int_nearest in Hp, Hv.
    destruct (no_balance_gain self Hpre y _
                ltac:(now destruct y) Hv) as (g' & Hg & Hsign).
    unfold Eligibility.eligible_balance_usd. rewrite Hg. cbn [bind].
    unfold Eligibility.number_max.
    fold (Eligibility.negative (Eligibility.Float g')).
    destruct (Eligibility.negative (Eligibility.Float g')) eqn:Hneg.
    + (* a negative gain counts as the int 0 *)
      cbn [Eligibility.number_sub bind]. fold pre_incident.
      rewrite Z.sub_0_r.
      destruct (below_int_nonpos pre_incident minimum_threshold Hpre Ht)
        as (small & Hs & Hz).
      rewrite Hs. cbn [bind].
      exists (Eligibility.Int (if small then 0 else pre_incident)).
      split; [now destruct small | exact Hz].
    + destruct Hsign as [Hsign|Hsign]; [|discriminate].
      cbn [Eligibility.number_sub]. fold pre_incident.
      rewrite Hp. cbn [bind].
      pose proof (float_sub_nonpos _ _
                    (nearest_float_nonpos pre_incident Hpre) Hsign) as Hd.
      destruct (below_nonpos _ minimum_threshold Hd Ht) as (small & Hs & Hz).
      rewrite Hs. cbn [bind].
      eexists. split; [|exact Hz]. now destruct small.
Qed.

End NoBalance.

Lemma no_balance_no_eligibility_witness :
  let self :=
    add_virgox_proceed (Examples.holder Examples.main_params 0) (10 ^ 18) in
  exists v,
    Eligibility.eligible_balance_usd Eligibility.main_eth_value_usd
      Eligibility.main_minimum_threshold self = Return v
    /\ Eligibility.equals_zero v = true.
Proof.
  intros self.
  apply (no_balance_no_eligibility self Eligibility.main_eth_value_usd
           Eligibility.main_minimum_threshold).
  - vm_compute. discriminate.
  - exact I.
  - reflexivity.
  - vm_compute. discriminate.
  - vm_compute. discriminate.
Defined.

(** X18.  With a threshold that is a non-negative integer [t], a split ratio
    [cr / 10^k] of [0, 1] and an eligible balance whose product with [10^k]
    has at most 28 digits, the OUSD compensation is at least the smaller of
    the eligible balance and the threshold, and at most the eligible
    balance. *)
Theorem ousd_compensation_bounded (self : Account) (t cr k : Z) :
  split_threshold (params self) = dec_of_Z t ->
  ousd_ogn_split (params self) = mkDec cr (- k) ->
  0 <= t -> 0 <= k -> 0 <= cr <= 10 ^ k ->
  eligible_balance_usd self * 10 ^ k < 10 ^ prec ->
  Z.min (eligible_balance_usd self) t <= adjusted_ousd_compensation self
  /\ adjusted_ousd_compensation self <= eligible_balance_usd self.
Proof.
  intros Hthr Hsplit Ht Hk Hcr Hsize.
  destruct (Z_le_gt_dec (eligible_balance_usd self) t) as [Hle|Hgt].
  - unfold adjusted_ousd_compensation.
    rewrite Hthr, dec_leb_int.
    replace (eligible_balance_usd self <=? t) with true
      by (symmetry; now apply Z.leb_le).
    lia.
  - rewrite (ousd_compensation_exact self t cr k) by (assumption || lia).
    assert (HP : 0 < 10 ^ k) by (apply Z.pow_pos_nonneg; lia).
    assert (Hf : 0 <= (eligible_balance_usd self - t) * cr / 10 ^ k
                 <= eligible_balance_usd self - t).
    { split; [apply Z.div_pos | apply Z.div_le_upper_bound]; nia. }
    lia.
Qed.

Lemma ousd_compensation_bounded_witness :
  let self := Examples.holder Examples.main_params (5000 * 10 ^ 18) in
  eligible_balance_usd self * 10 ^ 2 < 10 ^ prec
  /\ 10 ^ 21 <= adjusted_ousd_compensation self <= 5000 * 10 ^ 18.
Proof.
  intros self.
  assert (Hsize : eligible_balance_usd self * 10 ^ 2 < 10 ^ prec)
    by (vm_compute; reflexivity).
  assert (Ht : 0 <= 10 ^ 21) by (vm_compute; discriminate).
  assert (Hk : 0 <= 2) by (vm_compute; discriminate).
  assert (Hcr : 0 <= 25 <= 10 ^ 2) by (vm_compute; split; discriminate).
  split; [exact Hsize|].
  pose proof (ousd_compensation_bounded self (10 ^ 21) 25 2 eq_refl eq_refl
                Ht Hk Hcr Hsize) as (H1 & H2).
  assert (E : eligible_balance_usd self = 5000 * 10 ^ 18)
    by (vm_compute; reflexivity).
  rewrite E in H1, H2.
  split; [|exact H2].
  replace (Z.min (5000 * 10 ^ 18) (10 ^ 21)) with (10 ^ 21) in H1
    by (vm_compute; reflexivity).
  exact H1.
Defined.

(** ** The loading of the lines (transform.py) *)

Section LoadFacts.
Import TransformLoad.

Variable toChecksumAddress : string -> string.
Variable prm : CalcParameters.

Let create := create_account_if_not_exists toChecksumAddress.

Lemma get_app_one (accounts : ledger) (k : string) (v : account_object)
    (x : string) :
  get (accounts ++ [(k, v)]) x
  = match get accounts x with
    | Some e => Some e
    | None => if String.eqb k x then Some v else None
    end.
Proof.
  induction accounts as [|[k' v'] accounts IH]; cbn [app get]; [reflexivity|].
  destruct (String.eqb k' x); [reflexivity | exact IH].
Qed.

Lemma get_create (accounts : ledger) (address x : string) :
  get (create accounts address prm) x
  = match get accounts x with
    | Some e => Some e
    | None =>
        if String.eqb (toChecksumAddress address) x
        then Some (new_object (toChecksumAddress address) prm)
        else None
    end.
Proof.
  unfold create, create_account_if_not_exists.
  destruct (get accounts (toChecksumAddress address)) as [e|] eqn:E.
  - destruct (get accounts x) eqn:Ex; [reflexivity|].
    destruct (String.eqb (toChecksumAddress address) x) eqn:Ek;
      [|reflexivity].
    apply String.eqb_eq in Ek. subst x. congruence.
  - apply get_app_one.
Qed.

Lemma account_at_create (accounts : ledger) (address x : string) :
  account_at (create accounts address prm) prm x
  = account_at accounts prm x.
Proof.
  unfold account_at. rewrite get_create.
  destruct (get accounts x); [reflexivity|].
  destruct (String.eqb (toChecksumAddress address) x) eqn:Ek; [|reflexivity].
  apply String.eqb_eq in Ek. now subst x.
Qed.

Lemma call_ok (accounts accounts' : ledger) (key : string)
    (method : account_object -> account_object) :
  call accounts key method = Ok accounts' ->
  exists v,
    get accounts key = Some v
    /\ forall x, get accounts' x
                 = if String.eqb key x then Some (method v)
                   else get accounts x.
Proof.
  revert accounts'.
  induction accounts as [|[k v] accounts IH]; intros accounts' H;
    cbn [call get] in *; [discriminate|].
  destruct (String.eqb k key) eqn:Ek.
  - apply String.eqb_eq in Ek. subst k. injection H as <-.
    exists v. split; [reflexivity|]. intros x. cbn [get].
    destruct (String.eqb key x); reflexivity.
  - destruct (call accounts key method) as [rest|f]; [|discriminate].
    injection H as <-. destruct (IH rest eq_refl) as (w & Hw & Hx).
    exists w. split; [exact Hw|]. intros x. cbn [get].
    destruct (String.eqb k x) eqn:Ekx.
    + apply String.eqb_eq in Ekx. subst x. now rewrite String.eqb_sym, Ek.
    + apply Hx.
Qed.

Lemma call_present (accounts : ledger) (key : string)
    (method : account_object -> account_object) (v : account_object) :
  get accounts key = Some v ->
  exists accounts', call accounts key method = Ok accounts'.
Proof.
  induction accounts as [|[k w] accounts IH]; cbn [call get]; [discriminate|].
  destruct (String.eqb k key); [now eexists|].
  intros H. destruct (IH H) as (rest & ->). now eexists.
Qed.

Lemma call_missing (accounts : ledger) (key : string)
    (method : account_object -> account_object) :
  get accounts key = None -> call accounts key method = Fail (KeyError key).
Proof.
  induction accounts as [|[k w] accounts IH]; cbn [call get]; [reflexivity|].
  destruct (String.eqb k key); [discriminate|].
  intros H. now rewrite (IH H).
Qed.

Lemma account_at_call_account (accounts accounts' : ledger) (key : string)
    (method : Account -> Account) (x : string) :
  call accounts key (on_account method) = Ok accounts' ->
  account_at accounts' prm x
  = if String.eqb key x then method (account_at accounts prm x)
    else account_at accounts prm x.
Proof.
  intros H. apply call_ok in H. destruct H as (v & Hv & Hx).
  unfold account_at. rewrite Hx.
  destruct (String.eqb key x) eqn:E; [|reflexivity].
  apply String.eqb_eq in E. subst x. now rewrite Hv.
Qed.

Lemma account_at_call_counter (accounts accounts' : ledger) (key : string)
    (method : CounterLp -> CounterLp) (x : string) :
  call accounts key (on_counter method) = Ok accounts' ->
  account_at accounts' prm x = account_at accounts prm x.
Proof.
  intros H. apply call_ok in H. destruct H as (v & Hv & Hx).
  unfold account_at. rewrite Hx.
  destruct (String.eqb key x) eqn:E; [|reflexivity].
  apply String.eqb_eq in E. subst x. now rewrite Hv.
Qed.

(** A line of an LP script adds its amount of OUSD to the LP balance of its
    address, at the start or at the end, and changes nothing else that
    [Account] reads. *)
Lemma lp_data_step_ok (is_start : bool) (accounts accounts' : ledger)
    (lp : lp_row) (x : string) :
  lp_data_step toChecksumAddress prm is_start accounts lp = Ok accounts' ->
  account_at accounts' prm x
  = if String.eqb (row_lp_address lp) x
    then (if is_start
          then add_ousd_lp_start (account_at accounts prm x)
                                 (row_token0_value lp)
          else add_ousd_lp_end (account_at accounts prm x)
                               (row_token0_value lp))
    else account_at accounts prm x.
Proof.
  unfold lp_data_step. fold create.
  destruct is_start.
  - destruct (call (create accounts (row_lp_address lp) prm) _ _)
      as [acc1|f] eqn:H1; [|discriminate].
    intros H2.
    assert (E : account_at accounts' prm x = account_at acc1 prm x).
    { destruct (String.eqb (row_token1 lp) USDT_ADDRESS);
        [exact (account_at_call_counter _ _ _ _ x H2)|].
      destruct (String.eqb (row_token1 lp) USDC_ADDRESS);
        [exact (account_at_call_counter _ _ _ _ x H2)|].
      destruct (String.eqb (row_token1 lp) WETH_ADDRESS);
        [exact (account_at_call_counter _ _ _ _ x H2) | discriminate]. }
    rewrite E, (account_at_call_account _ _ _ _ x H1), account_at_create.
    reflexivity.
  - destruct (call (create accounts (row_lp_address lp) prm) _ _)
      as [acc1|f] eqn:H1; [|discriminate].
    intros H2.
    assert (E : account_at accounts' prm x = account_at acc1 prm x).
    { destruct (String.eqb (row_token1 lp) USDT_ADDRESS);
        [exact (account_at_call_counter _ _ _ _ x H2)|].
      destruct (String.eqb (row_token1 lp) USDC_ADDRESS);
        [exact (account_at_call_counter _ _ _ _ x H2)|].
      destruct (String.eqb (row_token1 lp) WETH_ADDRESS);
        [exact (account_at_call_counter _ _ _ _ x H2) | discriminate]. }
    rewrite E, (account_at_call_account _ _ _ _ x H1), account_at_create.
    reflexivity.
Qed.

Lemma lp_data_ok (is_start : bool) (csvdata : list lp_row) (x : string) :
  forall accounts accounts',
  process_uniswap_lp_data toChecksumAddress csvdata accounts prm is_start
  = Ok accounts' ->
  account_at accounts' prm x
  = fold_left (fun self lp =>
                 if is_start
                 then add_ousd_lp_start self (row_token0_value lp)
                 else add_ousd_lp_end self (row_token0_value lp))
              (lines_of x csvdata) (account_at accounts prm x).
Proof.
  induction csvdata as [|lp csvdata IH]; intros accounts accounts' H.
  - cbn in H. injection H as <-. reflexivity.
  - cbn [process_uniswap_lp_data] in H.
    destruct (lp_data_step toChecksumAddress prm is_start accounts lp)
      as [acc1|f] eqn:Hs; [|discriminate].
    rewrite (IH _ _ H), (lp_data_step_ok _ _ _ _ x Hs).
    unfold lines_of. cbn [filter].
    destruct (String.eqb (row_lp_address lp) x); reflexivity.
Qed.

Lemma fold_add_ousd_lp_start (lines : list lp_row) : forall self,
  let after := fold_left (fun self lp =>
                            add_ousd_lp_start self (row_token0_value lp))
                         lines self in
  _ousd_lp_start after
  = _ousd_lp_start self + sum_Z (map row_token0_value lines)
  /\ _ousd_balance_start after = _ousd_balance_start self
  /\ _usdt_swaps after = _usdt_swaps self
  /\ _usdc_swaps after = _usdc_swaps self
  /\ _weth_swaps after = _weth_swaps self
  /\ _virgox_proceeds after = _virgox_proceeds self
  /\ Transform.params after = Transform.params self.
Proof.
  induction lines as [|lp lines IH]; intros self.
  - cbn. repeat split. unfold sum_Z. cbn. lia.
  - cbn [fold_left map]. cbv zeta in *.
    destruct (IH (add_ousd_lp_start self (row_token0_value lp)))
      as (H1 & H2 & H3 & H4 & H5 & H6 & H7).
    rewrite H1, H2, H3, H4, H5, H6, H7, sum_Z_cons.
    cbn [add_ousd_lp_start _ousd_lp_start _ousd_balance_start _usdt_swaps
         _usdc_swaps _weth_swaps _virgox_proceeds Transform.params].
    repeat split. lia.
Qed.

Lemma fold_add_ousd_lp_end (lines : list lp_row) : forall self,
  let after := fold_left (fun self lp =>
                            add_ousd_lp_end self (row_token0_value lp))
                         lines self in
  _ousd_lp_start after = _ousd_lp_start self
  /\ _ousd_balance_start after = _ousd_balance_start self
  /\ _usdt_swaps after = _usdt_swaps self
  /\ _usdc_swaps after = _usdc_swaps self
  /\ _weth_swaps after = _weth_swaps self
  /\ _virgox_proceeds after = _virgox_proceeds self
  /\ Transform.params after = Transform.params self.
Proof.
  induction lines as [|lp lines IH]; intros self.
  - cbn. repeat split.
  - cbn [fold_left map]. cbv zeta in *.
    destruct (IH (add_ousd_lp_end self (row_token0_value lp)))
      as (H1 & H2 & H3 & H4 & H5 & H6 & H7).
    rewrite H1, H2, H3, H4, H5, H6, H7.
    cbn [add_ousd_lp_end _ousd_lp_start _ousd_balance_start _usdt_swaps
         _usdc_swaps _weth_swaps _virgox_proceeds Transform.params].
    repeat split.
Qed.


Lemma lp_data_step_total (is_start : bool) (accounts : ledger) (lp : lp_row) :
  toChecksumAddress (row_lp_address lp) = row_lp_address lp ->
  known_pair (row_token1 lp) = true ->
  exists accounts',
    lp_data_step toChecksumAddress prm is_start accounts lp = Ok accounts'.
Proof.
  intros Hcs Hpair. unfold lp_data_step. fold create.
  assert (Hget : exists v, get (create accounts (row_lp_address lp) prm)
                               (row_lp_address lp) = Some v).
  { rewrite get_create, Hcs, String.eqb_refl.
    destruct (get accounts (row_lp_address lp)); now eexists. }
  destruct Hget as (v & Hv).
  unfold known_pair in Hpair.
  destruct is_start.
  - destruct (call_present _ _
                (on_account (fun self =>
                   add_ousd_lp_start self (row_token0_value lp))) _ Hv)
      as (acc1 & H1).
    rewrite H1. apply call_ok in H1. destruct H1 as (w & _ & Hx).
    specialize (Hx (row_lp_address lp)). rewrite String.eqb_refl in Hx.
    destruct (String.eqb (row_token1 lp) USDT_ADDRESS);
      [exact (call_present _ _ _ _ Hx)|].
    destruct (String.eqb (row_token1 lp) USDC_ADDRESS);
      [exact (call_present _ _ _ _ Hx)|].
    destruct (String.eqb (row_token1 lp) WETH_ADDRESS);
      [exact (call_present _ _ _ _ Hx) | discriminate].
  - destruct (call_present _ _
                (on_account (fun self =>
                   add_ousd_lp_end self (row_token0_value lp))) _ Hv)
      as (acc1 & H1).
    rewrite H1. apply call_ok in H1. destruct H1 as (w & _ & Hx).
    specialize (Hx (row_lp_address lp)). rewrite String.eqb_refl in Hx.
    destruct (String.eqb (row_token1 lp) USDT_ADDRESS);
      [exact (call_present _ _ _ _ Hx)|].
    destruct (String.eqb (row_token1 lp) USDC_ADDRESS);
      [exact (call_present _ _ _ _ Hx)|].
    destruct (String.eqb (row_token1 lp) WETH_ADDRESS);
      [exact (call_present _ _ _ _ Hx) | discriminate].
Qed.

Lemma lp_data_total (is_start : bool) (csvdata : list lp_row) :
  (forall lp, In lp csvdata ->
     toChecksumAddress (row_lp_address lp) = row_lp_address lp
     /\ known_pair (row_token1 lp) = true) ->
  forall accounts,
  exists accounts',
    process_uniswap_lp_data toChecksumAddress csvdata accounts prm is_start
    = Ok accounts'.
Proof.
  induction csvdata as [|lp csvdata IH]; intros Hall accounts;
    [now eexists|].
  cbn [process_uniswap_lp_data].
  destruct (Hall lp (or_introl eq_refl)) as (Hcs & Hpair).
  destruct (lp_data_step_total is_start accounts lp Hcs Hpair) as (acc1 & ->).
  apply IH. intros l Hl. apply Hall. now right.
Qed.

Lemma lp_data_step_unknown_pair (is_start : bool) (accounts : ledger)
    (lp : lp_row) :
  toChecksumAddress (row_lp_address lp) = row_lp_address lp ->
  known_pair (row_token1 lp) = false ->
  lp_data_step toChecksumAddress prm is_start accounts lp = Fail Exit.
Proof.
  intros Hcs Hpair. unfold lp_data_step. fold create.
  assert (Hget : exists v, get (create accounts (row_lp_address lp) prm)
                               (row_lp_address lp) = Some v).
  { rewrite get_create, Hcs, String.eqb_refl.
    destruct (get accounts (row_lp_address lp)); now eexists. }
  destruct Hget as (v & Hv).
  unfold known_pair in Hpair.
  apply orb_false_iff in Hpair. destruct Hpair as (Hp & ->).
  apply orb_false_iff in Hp. destruct Hp as (-> & ->).
  destruct is_start.
  - destruct (call_present _ _
                (on_account (fun self =>
                   add_ousd_lp_start self (row_token0_value lp))) _ Hv)
      as (acc1 & ->). reflexivity.
  - destruct (call_present _ _
                (on_account (fun self =>
                   add_ousd_lp_end self (row_token0_value lp))) _ Hv)
      as (acc1 & ->). reflexivity.
Qed.

Lemma lp_data_step_key_error (is_start : bool) (accounts : ledger)
    (lp : lp_row) :
  toChecksumAddress (row_lp_address lp) <> row_lp_address lp ->
  get accounts (row_lp_address lp) = None ->
  lp_data_step toChecksumAddress prm is_start accounts lp
  = Fail (KeyError (row_lp_address lp)).
Proof.
  intros Hcs Hnone. unfold lp_data_step. fold create.
  assert (Hget : get (create accounts (row_lp_address lp) prm)
                     (row_lp_address lp) = None).
  { rewrite get_create, Hnone.
    apply String.eqb_neq in Hcs. now rewrite Hcs. }
  destruct is_start; now rewrite (call_missing _ _ _ Hget).
Qed.

(** A line of uniswap_swaps.py adds its swap to the swaps of its sender
    with the counter-asset of the line, and changes nothing else. *)
Lemma swap_data_step_ok (accounts accounts' : ledger)
    (swap : UniswapSwaps.swap_row) (x : string) :
  swap_data_step toChecksumAddress prm accounts swap = Ok accounts' ->
  known_pair (UniswapSwaps.swap_token1 swap) = true
  /\ account_at accounts' prm x
     = if String.eqb (UniswapSwaps.swap_in_address swap) x
       then
         let self := account_at accounts prm x in
         if String.eqb (UniswapSwaps.swap_token1 swap) USDT_ADDRESS
         then add_usdt_swap self (swap_of_line swap)
         else if String.eqb (UniswapSwaps.swap_token1 swap) USDC_ADDRESS
         then add_usdc_swap self (swap_of_line swap)
         else add_weth_swap self (swap_of_line swap)
       else account_at accounts prm x.
Proof.
  unfold swap_data_step, known_pair. fold create. intros H.
  destruct (String.eqb (UniswapSwaps.swap_token1 swap) USDT_ADDRESS);
    [|destruct (String.eqb (UniswapSwaps.swap_token1 swap) USDC_ADDRESS);
      [|destruct (String.eqb (UniswapSwaps.swap_token1 swap) WETH_ADDRESS);
        [|discriminate]]];
    (split; [reflexivity|]);
    rewrite (account_at_call_account _ _ _ _ x H), !account_at_create;
    reflexivity.
Qed.

Lemma swaps_of_cons (x token1 : string) (swap : UniswapSwaps.swap_row)
    (csvdata : list UniswapSwaps.swap_row) :
  swaps_of x token1 (swap :: csvdata)
  = if String.eqb (UniswapSwaps.swap_in_address swap) x
       && String.eqb (UniswapSwaps.swap_token1 swap) token1
    then swap :: swaps_of x token1 csvdata
    else swaps_of x token1 csvdata.
Proof. reflexivity. Qed.

Lemma swap_data_ok (csvdata : list UniswapSwaps.swap_row) (x : string) :
  forall accounts accounts',
  process_uniswap_swap_data toChecksumAddress csvdata accounts prm
  = Ok accounts' ->
  let before := account_at accounts prm x in
  let after := account_at accounts' prm x in
  _usdt_swaps after
  = _usdt_swaps before ++ map swap_of_line (swaps_of x USDT_ADDRESS csvdata)
  /\ _usdc_swaps after
     = _usdc_swaps before ++ map swap_of_line (swaps_of x USDC_ADDRESS csvdata)
  /\ _weth_swaps after
     = _weth_swaps before ++ map swap_of_line (swaps_of x WETH_ADDRESS csvdata)
  /\ _ousd_balance_start after = _ousd_balance_start before
  /\ _ousd_lp_start after = _ousd_lp_start before
  /\ _virgox_proceeds after = _virgox_proceeds before
  /\ Transform.params after = Transform.params before.
Proof.
  induction csvdata as [|swap csvdata IH]; intros accounts accounts' H.
  - cbn in H. injection H as <-. cbn. rewrite !app_nil_r. repeat split.
  - cbn [process_uniswap_swap_data] in H.
    destruct (swap_data_step toChecksumAddress prm accounts swap)
      as [acc1|f] eqn:Hs; [|discriminate].
    destruct (swap_data_step_ok _ _ _ x Hs) as (Hpair & Hat).
    specialize (IH _ _ H). cbv zeta in *.
    destruct IH as (H1 & H2 & H3 & H4 & H5 & H6 & H7).
    rewrite H1, H2, H3, H4, H5, H6, H7, Hat, !swaps_of_cons.
    unfold known_pair in Hpair.
    destruct (String.eqb (UniswapSwaps.swap_in_address swap) x);
      cbn [andb]; [|repeat split].
    destruct (String.eqb (UniswapSwaps.swap_token1 swap) USDT_ADDRESS) eqn:Et.
    { apply String.eqb_eq in Et. rewrite Et.
      cbn [String.eqb Ascii.eqb Bool.eqb andb map add_usdt_swap _usdt_swaps
           _usdc_swaps _weth_swaps _ousd_balance_start _ousd_lp_start
           _virgox_proceeds Transform.params USDT_ADDRESS USDC_ADDRESS
           WETH_ADDRESS].
      rewrite <- app_assoc. repeat split. }
    destruct (String.eqb (UniswapSwaps.swap_token1 swap) USDC_ADDRESS) eqn:Ec.
    { apply String.eqb_eq in Ec. rewrite Ec.
      cbn [String.eqb Ascii.eqb Bool.eqb andb map add_usdc_swap _usdt_swaps
           _usdc_swaps _weth_swaps _ousd_balance_start _ousd_lp_start
           _virgox_proceeds Transform.params USDT_ADDRESS USDC_ADDRESS
           WETH_ADDRESS].
      rewrite <- app_assoc. repeat split. }
    cbn [orb] in Hpair. rewrite Hpair.
    cbn [map add_weth_swap _usdt_swaps _usdc_swaps _weth_swaps
         _ousd_balance_start _ousd_lp_start _virgox_proceeds Transform.params].
    rewrite <- app_assoc. repeat split.
Qed.

End LoadFacts.

Lemma account_reads_ext (self other : Account) :
  Transform.params other = Transform.params self ->
  _ousd_balance_start other = _ousd_balance_start self ->
  _ousd_lp_start other = _ousd_lp_start self ->
  _usdt_swaps other = _usdt_swaps self ->
  _usdc_swaps other = _usdc_swaps self ->
  _weth_swaps other = _weth_swaps self ->
  _virgox_proceeds other = _virgox_proceeds self ->
  eligible_balance_usd other = eligible_balance_usd self
  /\ adjusted_ousd_compensation other = adjusted_ousd_compensation self
  /\ adjusted_ogn_compensation other = adjusted_ogn_compensation self.
Proof.
  intros Hp Hb Hl Ht Hc Hw Hv.
  assert (He : eligible_balance_usd other = eligible_balance_usd self).
  { unfold eligible_balance_usd, trading_gain_total_usd, trading_gain_usdt,
      trading_gain_usdc, trading_gain_weth, trading_gain_virgox,
      usdt_swap_in, usdt_swap_out, usdc_swap_in, usdc_swap_out,
      weth_swap_in, weth_swap_out, _eth_to_usd.
    rewrite Hp, Hb, Hl, Ht, Hc, Hw, Hv. reflexivity. }
  assert (Ho : adjusted_ousd_compensation other
               = adjusted_ousd_compensation self).
  { unfold adjusted_ousd_compensation. rewrite He, Hp. reflexivity. }
  split; [exact He|]. split; [exact Ho|].
  unfold adjusted_ogn_compensation, sanity_check, ogn_usd_value.
  rewrite He, Ho, Hp. reflexivity.
Qed.

(** X19.  The lines of the LP scripts at the start block add up: after
    process_uniswap_lp_data the pooled OUSD of every address has grown by
    the amounts of OUSD of its lines, and its base balance, its swaps and
    its VirgoX proceeds are as before. *)
Theorem lp_start_lines_accumulate (toChecksumAddress : string -> string)
    (csvdata : list lp_row) (accounts accounts' : TransformLoad.ledger)
    (prm : CalcParameters) :
  TransformLoad.process_uniswap_lp_data toChecksumAddress csvdata accounts
    prm true = TransformLoad.Ok accounts' ->
  forall key,
    let before := TransformLoad.account_at accounts prm key in
    let after := TransformLoad.account_at accounts' prm key in
    _ousd_lp_start after
    = _ousd_lp_start before
      + sum_Z (map row_token0_value (TransformLoad.lines_of key csvdata))
    /\ _ousd_balance_start after = _ousd_balance_start before
    /\ _usdt_swaps after = _usdt_swaps before
    /\ _usdc_swaps after = _usdc_swaps before
    /\ _weth_swaps after = _weth_swaps before
    /\ _virgox_proceeds after = _virgox_proceeds before.
Proof.
  intros H key before after. subst before after.
  rewrite (lp_data_ok toChecksumAddress prm true csvdata key _ _ H).
  destruct (fold_add_ousd_lp_start (TransformLoad.lines_of key csvdata)
              (TransformLoad.account_at accounts prm key))
    as (H1 & H2 & H3 & H4 & H5 & H6 & _).
  repeat split; assumption.
Qed.

(** X20.  The lines of the LP scripts at the end block change no compensation:
    after process_uniswap_lp_data with [is_start=False] the eligible
    balance, the OUSD compensation and the OGN compensation of every address
    are what they were. *)
Theorem lp_end_lines_change_nothing (toChecksumAddress : string -> string)
    (csvdata : list lp_row) (accounts accounts' : TransformLoad.ledger)
    (prm : CalcParameters) :
  TransformLoad.process_uniswap_lp_data toChecksumAddress csvdata accounts
    prm false = TransformLoad.Ok accounts' ->
  forall key,
    let before := TransformLoad.account_at accounts prm key in
    let after := TransformLoad.account_at accounts' prm key in
    eligible_balance_usd after = eligible_balance_usd before
    /\ adjusted_ousd_compensation after = adjusted_ousd_compensation before
    /\ adjusted_ogn_compensation after = adjusted_ogn_compensation before.
Proof.
  intros H key before after. subst before after.
  rewrite (lp_data_ok toChecksumAddress prm false csvdata key _ _ H).
  destruct (fold_add_ousd_lp_end (TransformLoad.lines_of key csvdata)
              (TransformLoad.account_at accounts prm key))
    as (H1 & H2 & H3 & H4 & H5 & H6 & H7).
  apply account_reads_ext; assumption.
Qed.

(** X21.  process_uniswap_lp_data loads every line when the addresses of the
    lines are checksum addresses and the second token of every line is
    USDT, USDC or WETH.  A line with another second token ends the script
    with exit status 1, and a line whose address is not in checksum form,
    and not yet a key of the dict, with a KeyError: the account is created
    under the checksum address and looked up under the address as read. *)
Theorem lp_data_loads_or_stops (toChecksumAddress : string -> string)
    (accounts : TransformLoad.ledger) (prm : CalcParameters)
    (is_start : bool) :
  (forall csvdata,
     (forall lp, In lp csvdata ->
        toChecksumAddress (row_lp_address lp) = row_lp_address lp
        /\ TransformLoad.known_pair (row_token1 lp) = true) ->
     exists accounts',
       TransformLoad.process_uniswap_lp_data toChecksumAddress csvdata
         accounts prm is_start = TransformLoad.Ok accounts')
  /\ (forall lp rest,
        toChecksumAddress (row_lp_address lp) = row_lp_address lp ->
        TransformLoad.known_pair (row_token1 lp) = false ->
        TransformLoad.process_uniswap_lp_data toChecksumAddress (lp :: rest)
          accounts prm is_start = TransformLoad.Fail TransformLoad.Exit)
  /\ (forall lp rest,
        toChecksumAddress (row_lp_address lp) <> row_lp_address lp ->
        TransformLoad.get accounts (row_lp_address lp) = None ->
        TransformLoad.process_uniswap_lp_data toChecksumAddress (lp :: rest)
          accounts prm is_start
        = TransformLoad.Fail (TransformLoad.KeyError (row_lp_address lp))).
Proof.
  split; [|split].
  - intros csvdata Hall. now apply lp_data_total.
  - intros lp rest Hcs Hpair. cbn [TransformLoad.process_uniswap_lp_data].
    now rewrite lp_data_step_unknown_pair.
  - intros lp rest Hcs Hnone. cbn [TransformLoad.process_uniswap_lp_data].
    now rewrite lp_data_step_key_error.
Qed.

(** X22.  The lines of uniswap_swaps.py are recorded on the sender of the
    transaction alone: after process_uniswap_swap_data the USDT, USDC and
    WETH swaps of every address are those it had followed by the swaps of
    the lines it sent, in the order of the lines, a line being a purchase
    when its direction is "buy" and a sale otherwise; the balances and the
    VirgoX proceeds are as before. *)
Theorem swap_lines_recorded_on_sender (toChecksumAddress : string -> string)
    (csvdata : list UniswapSwaps.swap_row)
    (accounts accounts' : TransformLoad.ledger) (prm : CalcParameters) :
  TransformLoad.process_uniswap_swap_data toChecksumAddress csvdata accounts
    prm = TransformLoad.Ok accounts' ->
  forall key,
    let before := TransformLoad.account_at accounts prm key in
    let after := TransformLoad.account_at accounts' prm key in
    _usdt_swaps after
    = _usdt_swaps before
      ++ map TransformLoad.swap_of_line
             (TransformLoad.swaps_of key TransformLoad.USDT_ADDRESS csvdata)
    /\ _usdc_swaps after
       = _usdc_swaps before
         ++ map TransformLoad.swap_of_line
                (TransformLoad.swaps_of key TransformLoad.USDC_ADDRESS csvdata)
    /\ _weth_swaps after
       = _weth_swaps before
         ++ map TransformLoad.swap_of_line
                (TransformLoad.swaps_of key TransformLoad.WETH_ADDRESS csvdata)
    /\ _ousd_balance_start after = _ousd_balance_start before
    /\ _ousd_lp_start after = _ousd_lp_start before
    /\ _virgox_proceeds after = _virgox_proceeds before.
Proof.
  intros H key before after. subst before after.
  destruct (swap_data_ok toChecksumAddress prm csvdata key _ _ H)
    as (H1 & H2 & H3 & H4 & H5 & H6 & _).
  repeat split; assumption.
Qed.

(** X23.  create_account_if_not_exists never replaces an account: every key of the
    dict keeps its object, and the checksum address is a key afterwards,
    with a new account when it was none before. *)
Theorem create_account_keeps_accounts (toChecksumAddress : string -> string)
    (accounts : TransformLoad.ledger) (address : string)
    (prm : CalcParameters) :
  let created :=
    TransformLoad.create_account_if_not_exists toChecksumAddress accounts
      address prm in
  (forall key self,
     TransformLoad.get accounts key = Some self ->
     TransformLoad.get created key = Some self)
  /\ (TransformLoad.get accounts (toChecksumAddress address) = None ->
      TransformLoad.get created (toChecksumAddress address)
      = Some (TransformLoad.new_object (toChecksumAddress address) prm))
  /\ (forall key,
        key <> toChecksumAddress address ->
        TransformLoad.get created key = TransformLoad.get accounts key)
  /\ TransformLoad.create_account_if_not_exists toChecksumAddress created
       address prm = created.
Proof.
  intros created. subst created.
  split; [|split; [|split]].
  - intros key self H. now rewrite get_create, H.
  - intros H. now rewrite get_create, H, String.eqb_refl.
  - intros key Hne. rewrite get_create.
    destruct (TransformLoad.get accounts key); [reflexivity|].
    replace (String.eqb (toChecksumAddress address) key) with false;
      [reflexivity|].
    symmetry. apply String.eqb_neq. congruence.
  - unfold TransformLoad.create_account_if_not_exists at 1.
    rewrite get_create.
    destruct (TransformLoad.get accounts (toChecksumAddress address));
      [reflexivity|].
    now rewrite String.eqb_refl.
Qed.

Lemma lp_start_lines_accumulate_witness :
  exists accounts',
    TransformLoad.process_uniswap_lp_data LoadExamples.checksum
      LoadExamples.lp_lines [] default_params true
    = TransformLoad.Ok accounts'
    /\ _ousd_lp_start (TransformLoad.account_at accounts' default_params "0xA")
       = 1001006.
Proof.
  destruct (TransformLoad.process_uniswap_lp_data LoadExamples.checksum
              LoadExamples.lp_lines [] default_params true)
    as [accounts'|f] eqn:E; [|vm_compute in E; discriminate E].
  exists accounts'. split; [reflexivity|].
  destruct (lp_start_lines_accumulate _ _ _ _ _ E "0xA"%string) as (H & _).
  rewrite H. reflexivity.
Defined.

Lemma lp_end_lines_change_nothing_witness :
  exists accounts',
    TransformLoad.process_uniswap_lp_data LoadExamples.checksum
      LoadExamples.lp_lines [] default_params false
    = TransformLoad.Ok accounts'
    /\ eligible_balance_usd
         (TransformLoad.account_at accounts' default_params "0xA")
       = eligible_balance_usd (new_account "0xA" default_params).
Proof.
  destruct (TransformLoad.process_uniswap_lp_data LoadExamples.checksum
              LoadExamples.lp_lines [] default_params false)
    as [accounts'|f] eqn:E; [|vm_compute in E; discriminate E].
  exists accounts'. split; [reflexivity|].
  destruct (lp_end_lines_change_nothing _ _ _ _ _ E "0xA"%string) as (H & _).
  exact H.
Defined.

Lemma lp_data_loads_or_stops_witness :
  TransformLoad.process_uniswap_lp_data LoadExamples.checksum
    [LoadExamples.dai_line] [] default_params true
  = TransformLoad.Fail TransformLoad.Exit
  /\ TransformLoad.process_uniswap_lp_data LoadExamples.checksum
       [LoadExamples.lower_case_line] [] default_params true
     = TransformLoad.Fail (TransformLoad.KeyError "0xabc").
Proof.
  destruct (lp_data_loads_or_stops LoadExamples.checksum [] default_params
              true) as (_ & Hexit & Hkey).
  split.
  - apply Hexit; reflexivity.
  - apply (Hkey LoadExamples.lower_case_line []); [discriminate | reflexivity].
Defined.

Lemma swap_lines_recorded_on_sender_witness :
  exists accounts',
    TransformLoad.process_uniswap_swap_data LoadExamples.checksum
      LoadExamples.swap_lines [] default_params
    = TransformLoad.Ok accounts'
    /\ _usdt_swaps (TransformLoad.account_at accounts' default_params "0xA")
       = [(30, 29, RIGHT)]
    /\ _usdc_swaps (TransformLoad.account_at accounts' default_params "0xA")
       = [(49, 50, LEFT)]
    /\ _usdt_swaps (TransformLoad.account_at accounts' default_params "0xB")
       = [].
Proof.
  destruct (TransformLoad.process_uniswap_swap_data LoadExamples.checksum
              LoadExamples.swap_lines [] default_params)
    as [accounts'|f] eqn:E; [|vm_compute in E; discriminate E].
  exists accounts'. split; [reflexivity|].
  destruct (swap_lines_recorded_on_sender _ _ _ _ _ E "0xA"%string)
    as (H1 & H2 & _).
  destruct (swap_lines_recorded_on_sender _ _ _ _ _ E "0xB"%string)
    as (H3 & _).
  rewrite H1, H2, H3. repeat split.
Defined.

Lemma create_account_keeps_accounts_witness :
  let accounts :=
    [("0xABC"%string,
      TransformLoad.on_account (fun self => add_ousd_balance_start self 7)
        (TransformLoad.new_object "0xABC" default_params))] in
  let created :=
    TransformLoad.create_account_if_not_exists LoadExamples.checksum accounts
      "0xabc" default_params in
  created = accounts
  /\ _ousd_balance_start
       (TransformLoad.account_at created default_params "0xABC") = 7.
Proof.
  intros accounts created.
  pose proof (create_account_keeps_accounts LoadExamples.checksum accounts
                "0xabc" default_params) as H.
  cbv zeta in H. destruct H as (Hkeep & _).
  split; [reflexivity|].
  subst created. unfold TransformLoad.account_at.
  rewrite (Hkeep "0xABC"%string _ eq_refl). reflexivity.
Defined.

(** ** From the extractors to the accounts *)


Section UniswapLines.
Import UniswapLps.

Variable balanceOf : string -> N.
Variables total_supply a_supply b_supply : N.
Variables a b : string.
Variable credits_per_token : option Z.
Variable current_cpt : Z.


End UniswapLines.



Section SwapLinesLoad.
Import UniswapSwaps.

Variables a b : string.
Variable pair_address : string.
Variables token0 token1 : string.
Variable pair_token0 : string -> string.
Variable pair_token1 : string -> string.
Variable getTransactionReceipt : string -> Receipt.
Variable processReceipt : string -> list SwapEvent.
Variable rebasingCreditsPerToken : Z -> Z.

Let classify :=
  classify a b pair_address token0 token1 pair_token0 pair_token1
           getTransactionReceipt processReceipt rebasingCreditsPerToken None.
Let loop :=
  UniswapSwapsMain.events_loop a b pair_address token0 token1 pair_token0
    pair_token1 getTransactionReceipt processReceipt rebasingCreditsPerToken
    None.
Let succeeded (e : SwapEvent) : bool :=
  receipt_status (getTransactionReceipt (event_transactionHash e)).
Let sender (e : SwapEvent) : string :=
  receipt_from (getTransactionReceipt (event_transactionHash e)).

(** The line of a Swap event, without an override. *)
Lemma classify_line (event : SwapEvent) (row : swap_row) :
  classify event = Return (Some row) ->
  swap_token1 row = b
  /\ swap_in_address row = sender event
  /\ TransformLoad.swap_of_line row = swap_of_event event.
Proof.
  unfold classify, UniswapSwaps.classify, sender, swap_of_event,
    TransformLoad.swap_of_line.
  destruct (negb (receipt_status _)); [discriminate|].
  destruct (changes (event_args event)) as [a_change b_change].
  match goal with
  | |- context [match processReceipt ?h with _ => _ end] =>
      destruct (match processReceipt h with
                | [] => _ | first :: _ => _ end) as [[[rel tin] tout] out]
  end.
  cbn [bind]. intros H. injection H as <-.
  cbn [swap_token1 swap_in_address swap_token0_amount swap_token1_amount
       swap_direction fst snd].
  split; [reflexivity|]. split; [reflexivity|].
  destruct (is_left (direction_of (event_args event))); reflexivity.
Qed.

Lemma events_loop_lines (events : list SwapEvent) (x : string) :
  snd (loop events) = None
  /\ Forall (fun row => swap_token1 row = b) (fst (loop events))
  /\ map TransformLoad.swap_of_line
         (filter (fun row => String.eqb (swap_in_address row) x)
                 (fst (loop events)))
     = map swap_of_event
           (filter (fun e => succeeded e && String.eqb (sender e) x) events)
  /\ map swap_in_address (fst (loop events))
     = map sender (filter succeeded events).
Proof.
  induction events as [|event events IH].
  - repeat split. constructor.
  - unfold loop in *. cbn [UniswapSwapsMain.events_loop filter].
    fold (succeeded event).
    destruct (succeeded event) eqn:E; cbn [andb].
    + destruct (classify_row a b pair_address token0 token1 pair_token0
                  pair_token1 getTransactionReceipt processReceipt
                  rebasingCreditsPerToken None event E) as (row & Hrow & _).
      rewrite Hrow. apply classify_line in Hrow.
      destruct Hrow as (Ht & Hin & Hsw).
      destruct (UniswapSwapsMain.events_loop _ _ _ _ _ _ _ _ _ _ _ events)
        as [out e]. cbn [fst snd] in *.
      destruct IH as (-> & HF & Hm & Hs).
      split; [reflexivity|]. split; [now constructor|].
      cbn [filter map]. rewrite Hin, Hs.
      split; [|reflexivity].
      destruct (String.eqb (sender event) x); cbn [map];
        [now rewrite Hsw, Hm | exact Hm].
    + rewrite (classify_skips_failed a b pair_address token0 token1
                 pair_token0 pair_token1 getTransactionReceipt processReceipt
                 rebasingCreditsPerToken None event E).
      exact IH.
Qed.

End SwapLinesLoad.

(** X25.  The swaps that transform.py records for an address are the Swap events
    of the transactions it sent: when uniswap_swaps.py runs without an
    override for a pair with USDT, USDC or WETH and the senders are in
    checksum form, its lines load into an empty dict without a failure, and
    the swaps of an address with that counter-asset are then the changes and
    directions of the events of the succeeded transactions of which it is
    the sender, in the order of the events. *)
Theorem swap_events_reach_accounts (toChecksumAddress : string -> string)
    (a b pair_address : string) (pair_token0 pair_token1 : string -> string)
    (getTransactionReceipt : string -> UniswapSwaps.Receipt)
    (processReceipt : string -> list UniswapSwaps.SwapEvent)
    (rebasingCreditsPerToken : Z -> Z)
    (events : list UniswapSwaps.SwapEvent) (prm : CalcParameters) :
  let run :=
    UniswapSwapsMain.main a b pair_address a b pair_token0 pair_token1
      getTransactionReceipt processReceipt rebasingCreditsPerToken None
      events in
  let succeeded e :=
    UniswapSwaps.receipt_status
      (getTransactionReceipt (UniswapSwaps.event_transactionHash e)) in
  let sender e :=
    UniswapSwaps.receipt_from
      (getTransactionReceipt (UniswapSwaps.event_transactionHash e)) in
  str_truthy pair_address = true ->
  TransformLoad.known_pair b = true ->
  (forall e, In e events -> succeeded e = true ->
             toChecksumAddress (sender e) = sender e) ->
  snd run = None
  /\ exists accounts',
       TransformLoad.process_uniswap_swap_data toChecksumAddress (fst run) []
         prm = TransformLoad.Ok accounts'
       /\ forall key,
            let self := TransformLoad.account_at accounts' prm key in
            let recorded :=
              map swap_of_event
                  (filter (fun e => succeeded e && String.eqb (sender e) key)
                          events) in
            (b = TransformLoad.USDT_ADDRESS -> _usdt_swaps self = recorded)
            /\ (b = TransformLoad.USDC_ADDRESS -> _usdc_swaps self = recorded)
            /\ (b = TransformLoad.WETH_ADDRESS -> _weth_swaps self = recorded).
Proof.
  intros run succeeded sender Hpair Hknown Hcs.
  assert (Hrun : run = UniswapSwapsMain.events_loop a b pair_address a b
                         pair_token0 pair_token1 getTransactionReceipt
                         processReceipt rebasingCreditsPerToken None events).
  { unfold run, UniswapSwapsMain.main.
    now rewrite Hpair, !String.eqb_refl. }
  rewrite Hrun. clear Hrun run.
  set (rows := fst (UniswapSwapsMain.events_loop a b pair_address a b
                      pair_token0 pair_token1 getTransactionReceipt
                      processReceipt rebasingCreditsPerToken None events)).
  pose proof (fun x => events_loop_lines a b pair_address a b pair_token0
                         pair_token1 getTransactionReceipt processReceipt
                         rebasingCreditsPerToken events x) as Hlines.
  cbv zeta in Hlines. fold rows in Hlines.
  destruct (Hlines EmptyString) as (Hnone & Htok & _ & Hsend).
  split; [exact Hnone|].
  assert (Hload : exists accounts',
            TransformLoad.process_uniswap_swap_data toChecksumAddress rows []
              prm = TransformLoad.Ok accounts').
  { assert (Hrows : Forall (fun row =>
                      UniswapSwaps.swap_token1 row = b
                      /\ toChecksumAddress (UniswapSwaps.swap_in_address row)
                         = UniswapSwaps.swap_in_address row) rows).
    { rewrite Forall_forall in *. intros row Hrow.
      split; [now apply Htok|].
      assert (Hin : In (UniswapSwaps.swap_in_address row)
                       (map UniswapSwaps.swap_in_address rows))
        by now apply in_map.
      rewrite Hsend in Hin. apply in_map_iff in Hin.
      destruct Hin as (e & <- & He). apply filter_In in He.
      destruct He as (He & Hs). now apply Hcs. }
    clear Hlines Hsend Htok Hnone.
    generalize (@nil (string * TransformLoad.account_object)).
    induction rows as [|row rows IH]; intros accounts; [now eexists|].
    inversion Hrows as [|? ? (Ht & Hc) Hrest]; subst.
    cbn [TransformLoad.process_uniswap_swap_data].
    assert (Hstep : exists acc1,
              TransformLoad.swap_data_step toChecksumAddress prm accounts row
              = TransformLoad.Ok acc1).
    { unfold TransformLoad.swap_data_step.
      set (created :=
             TransformLoad.create_account_if_not_exists toChecksumAddress
               (TransformLoad.create_account_if_not_exists toChecksumAddress
                  accounts (UniswapSwaps.swap_in_address row) prm)
               (UniswapSwaps.swap_out_address row) prm).
      assert (Hget : exists v,
                TransformLoad.get created (UniswapSwaps.swap_in_address row)
                = Some v).
      { unfold created. rewrite !get_create, Hc, String.eqb_refl.
        destruct (TransformLoad.get accounts
                    (UniswapSwaps.swap_in_address row)); now eexists. }
      destruct Hget as (v & Hv).
      unfold TransformLoad.known_pair in Hknown.
      destruct (String.eqb (UniswapSwaps.swap_token1 row)
                           TransformLoad.USDT_ADDRESS);
        [exact (call_present _ _ _ _ Hv)|].
      destruct (String.eqb (UniswapSwaps.swap_token1 row)
                           TransformLoad.USDC_ADDRESS);
        [exact (call_present _ _ _ _ Hv)|].
      destruct (String.eqb (UniswapSwaps.swap_token1 row)
                           TransformLoad.WETH_ADDRESS);
        [exact (call_present _ _ _ _ Hv) | discriminate]. }
    destruct Hstep as (acc1 & ->). apply IH. exact Hrest. }
  destruct Hload as (accounts' & Hload).
  exists accounts'. split; [exact Hload|].
  intros key self recorded. subst self recorded.
  pose proof (swap_data_ok toChecksumAddress prm rows key _ _ Hload) as Hrec.
  cbv zeta in Hrec. destruct Hrec as (H1 & H2 & H3 & _).
  destruct (Hlines key) as (_ & _ & Hm & _).
  assert (Hsw : forall t, b = t ->
            TransformLoad.swaps_of key t rows
            = filter (fun row => String.eqb (UniswapSwaps.swap_in_address row)
                                            key) rows).
  { intros t <-. unfold TransformLoad.swaps_of.
    apply filter_ext_in. intros row Hrow.
    rewrite Forall_forall in Htok. rewrite (Htok row Hrow), String.eqb_refl.
    apply andb_true_r. }
  change (TransformLoad.account_at [] prm key) with (new_account key prm)
    in H1, H2, H3.
  cbn [new_account _usdt_swaps _usdc_swaps _weth_swaps app] in H1, H2, H3.
  split; [|split]; intros Hb.
  - rewrite H1, (Hsw _ Hb). exact Hm.
  - rewrite H2, (Hsw _ Hb). exact Hm.
  - rewrite H3, (Hsw _ Hb). exact Hm.
Qed.

Lemma swap_events_reach_accounts_witness :
  exists accounts',
    TransformLoad.process_uniswap_swap_data LoadExamples.checksum
      (fst (SwapLoadExamples.main SwapLoadExamples.events)) [] default_params
    = TransformLoad.Ok accounts'
    /\ _usdt_swaps (TransformLoad.account_at accounts' default_params "0xA")
       = [(68, 69, LEFT)]
    /\ _usdt_swaps (TransformLoad.account_at accounts' default_params "0xC")
       = [(30, 29, RIGHT)]
    /\ _usdt_swaps (TransformLoad.account_at accounts' default_params "0xD")
       = [].
Proof.
  destruct (swap_events_reach_accounts LoadExamples.checksum OUSD_ADDRESS
              TransformLoad.USDT_ADDRESS "0xPAIR" SwapExamples.tokens0
              SwapExamples.tokens1 SwapExamples.receipts SwapExamples.swaps_of
              (fun _ => 10 ^ 18) SwapLoadExamples.events default_params
              eq_refl eq_refl)
    as (_ & accounts' & Hload & Hswaps).
  { intros e [<-|[<-|[<-|[]]]] H; reflexivity. }
  exists accounts'. split; [exact Hload|].
  split; [|split].
  - exact (proj1 (Hswaps "0xA"%string) eq_refl).
  - exact (proj1 (Hswaps "0xC"%string) eq_refl).
  - exact (proj1 (Hswaps "0xD"%string) eq_refl).
Defined.
